(** * Dataset download scripts: layout search, archive policy, finalisation

    A shallow embedding of

    - [jupyterhub_external_server/download_food101.py]
      ([extract_any], [iter_dirs_upto_depth], [find_images_meta], [main]),
    - [jupyterhub_external_server/download_food11.py] ([main]),
    - [utility_functions.py] ([utils_image_find]),

    together with the properties of these functions.

    Conventions of the embedding.

    - A [pathlib.Path] is the list of its components; [p / name] appends one
      component.  Equality and hashing of [Path] objects are equality of the
      component lists; no symbolic link is resolved by them.
    - The file system is observed through the probes the scripts call
      ([is_dir], [is_file], [exists], [iterdir], [glob("*")], [resolve]).
      The listing [iterdir], which the traversal guards with [try], returns
      a [result]; the boolean probes give the answer of the call where it
      answers.  [Path.is_dir] can also raise; the search on a file system
      where it does is the subject of [Raising].
    - Python [int] is [Z]; a Python [set] of paths is a [gset path].
    - The generator [iter_dirs_upto_depth] is a state machine ([walker]) that
      is resumed by its consumer, so that the laziness of [yield] is kept.
      Loops over a generator take fuel; the fuel they are given is shown to
      suffice ([iter_dirs_upto_depth_yields], [for_each_root_returns]).
    - A script is a program over the file system that records the calls it
      makes into its collaborators and ends with a value, with [sys.exit] or
      with an uncaught exception ([prog]).  The collaborators (download,
      [rmtree], [mkdir], extraction, copy) are parameters ([externals]).

    The file has three parts: the embedding, concrete file systems and
    collaborators on which it is run, and the properties. *)

From Stdlib Require Import ZArith Lia Ascii String.
From stdpp Require Import base strings list sorting gmap sets pretty.

(** ** Paths, exceptions, file-system probes *)

Definition path := list string.

(** [p / name] of [pathlib]. *)
Definition joinpath (p : path) (name : string) : path := p ++ [name].

Notation "p // n" := (joinpath p n) (at level 40, left associativity).

(** [p.name]: the last component (empty for the empty path). *)
Definition name_of (p : path) : string := List.last p ""%string.

(** [p.parent]. *)
Definition parent (p : path) : path := removelast p.

(** [str(p)]. *)
Definition show_path (p : path) : string := String.concat "/" p.

Inductive exn : Type :=
  | PermissionError
  | FileNotFoundError
  | FileExistsError
  | ValueError (msg : string)
  | OtherError (msg : string).

Inductive result (A : Type) : Type :=
  | Ok (a : A)
  | Raise (e : exn).

Arguments Ok {A} a.
Arguments Raise {A} e.

Record filesystem : Type := FileSystem {
  (** the answer of [Path.is_dir] where it answers; where it raises, see
      [Raising.denied] *)
  is_dir : path -> bool;
  is_file : path -> bool;
  path_exists : path -> bool;
  (** names of the entries of a directory, in listing order; [Raise] when
      the listing fails *)
  iterdir : path -> result (list string);
  (** names matched by [glob("*")] *)
  glob_star : path -> list string;
  (** canonical, symlink-free path *)
  resolve : path -> path
}.

(** ** [iter_dirs_upto_depth] as a resumable walker *)

Definition entry : Type := path * Z.

(** Order of the entries by depth. *)
Definition depth_le (a b : entry) : Prop := (a.2 <= b.2)%Z.

Record walker : Type := Walker {
  (** the entry handed out by the last [yield]; its children are listed only
      when the generator is resumed *)
  pending : option entry;
  queue : list entry;
  seen : gset path
}.

Section Traversal.

Variable fs : filesystem.
Variable max_depth : Z.

(** The code after [yield]:
    [if depth < max_depth: try: for p in cur.iterdir(): if p.is_dir():
     queue.append((p, depth+1)) except Exception: pass]. *)
Definition expand (cur : path) (depth : Z) (q : list entry) : list entry :=
  if (depth <? max_depth)%Z then
    match iterdir fs cur with
    | Ok names =>
        q ++ ((fun p => (p, (depth + 1)%Z))
                <$> filter (fun p => is_dir fs p) (joinpath cur <$> names))
    | Raise _ => q
    end
  else q.

(** [while queue: cur, depth = queue.pop(0); if cur in seen: continue],
    up to the first entry that is not in [seen]. *)
Fixpoint pop_unseen (q : list entry) (s : gset path)
  : option (entry * list entry) :=
  match q with
  | [] => None
  | (cur, depth) :: q' =>
      if bool_decide (cur ∈ s) then pop_unseen q' s
      else Some ((cur, depth), q')
  end.

(** One [next()] on the generator: finish the iteration that yielded
    [pending] ([expanded]), then run the loop to the next [yield] or to its
    end. *)
Definition expanded (w : walker) : list entry :=
  match pending w with
  | Some (cur, depth) => expand cur depth (queue w)
  | None => queue w
  end.

Definition resume (w : walker) : option (entry * walker) :=
  match pop_unseen (expanded w) (seen w) with
  | None => None
  | Some ((cur, depth), q2) =>
      Some ((cur, depth), Walker (Some (cur, depth)) q2 ({[cur]} ∪ seen w))
  end.

(** [queue = [(root, 0)]; seen = set()]. *)
Definition start (root : path) : walker := Walker None [(root, 0%Z)] ∅.

(** The complete run of a walker: the entries it yields until it stops. *)
Inductive yields : walker -> list entry -> Prop :=
  | yields_stop w :
      resume w = None -> yields w []
  | yields_step w e w' l :
      resume w = Some (e, w') -> yields w' l -> yields w (e :: l).

(** *** A bound on the number of resumptions

    [tree_size k p] counts the lexical paths below [p] that the walker can
    reach with [k] levels left; the sum over the queue decreases at every
    resumption. *)
Definition subdirs (p : path) : list path :=
  match iterdir fs p with
  | Ok names => filter (fun c => is_dir fs c) (joinpath p <$> names)
  | Raise _ => []
  end.

(** The entries that [expand] appends for a yielded entry. *)
Definition children (e : entry) : list entry :=
  if (e.2 <? max_depth)%Z
  then (fun p => (p, (e.2 + 1)%Z)) <$> subdirs e.1
  else [].

(** The directories at depth [d] below [root] that a traversal bounded by
    [max_depth] is meant to reach: the root at depth 0, and the listed
    subdirectories of a reachable directory whose depth is below the
    bound. *)
Inductive reachable (root : path) : path -> Z -> Prop :=
  | reachable_root : reachable root root 0
  | reachable_child p d names name :
      reachable root p d ->
      (d < max_depth)%Z ->
      iterdir fs p = Ok names ->
      name ∈ names ->
      is_dir fs (p // name) = true ->
      reachable root (p // name) (d + 1).

Fixpoint tree_size (k : nat) (p : path) : nat :=
  match k with
  | O => 1
  | S k' => S (sum_list (tree_size k' <$> subdirs p))
  end.

Definition entry_size (e : entry) : nat :=
  tree_size (Z.to_nat (max_depth - e.2)) e.1.

Definition weight (w : walker) : nat :=
  match pending w with
  | Some e => pred (entry_size e)
  | None => 0
  end + sum_list (entry_size <$> queue w).

(** Exhausting the generator: [list(iter_dirs_upto_depth(root, max_depth))].
    [None] means that the fuel ran out. *)
Fixpoint drain (fuel : nat) (w : walker) : option (list entry) :=
  match fuel with
  | O => None
  | S fuel' =>
      match resume w with
      | None => Some []
      | Some (e, w') => cons e <$> drain fuel' w'
      end
  end.

Definition iter_dirs_upto_depth (root : path) : list entry :=
  default [] (drain (S (weight (start root))) (start root)).

(** ** [find_images_meta] *)

Definition has_pair (p : path) : bool :=
  is_dir fs (p // "images") && is_dir fs (p // "meta").

(** How the inner [for p, d in iter_dirs_upto_depth(...)] loop ends. *)
Inductive loop_exit : Type :=
  | Return (img met : path)
  | Exhausted.

(** What the inner loop does with the complete list of a generator: stop at
    the first directory that has both labels. *)
Fixpoint first_hit (l : list entry) : loop_exit * list entry :=
  match l with
  | [] => (Exhausted, [])
  | (p, d) :: l' =>
      if has_pair p then (Return (p // "images") (p // "meta"), [(p, d)])
      else let '(r, visited) := first_hit l' in (r, (p, d) :: visited)
  end.

(** The inner loop, with the list of the directories it was handed. *)
Fixpoint for_each_dir (fuel : nat) (w : walker)
  : option (loop_exit * list entry) :=
  match fuel with
  | O => None
  | S fuel' =>
      match resume w with
      | None => Some (Exhausted, [])
      | Some ((p, d), w') =>
          let img := p // "images" in
          let met := p // "meta" in
          if is_dir fs img && is_dir fs met then
            Some (Return img met, [(p, d)])
          else
            match for_each_dir fuel' w' with
            | Some (r, visited) => Some (r, (p, d) :: visited)
            | None => None
            end
      end
  end.

(** The outer [for r in roots] loop and the final [return None, None]. *)
Fixpoint for_each_root (roots : list path)
  : option ((option path * option path) * list entry) :=
  match roots with
  | [] => Some ((None, None), [])
  | r :: roots' =>
      match for_each_dir (S (weight (start r))) (start r) with
      | None => None
      | Some (Return img met, visited) =>
          Some ((Some img, Some met), visited)
      | Some (Exhausted, visited) =>
          match for_each_root roots' with
          | Some (res, visited') => Some (res, visited ++ visited')
          | None => None
          end
      end
  end.

(** All that the generators of the candidate roots would yield, root after
    root, if none of them were abandoned. *)
Definition traversal (roots : list path) : list entry :=
  roots ≫= iter_dirs_upto_depth.

(** The result of [find_images_meta] paired with the directories visited. *)
Definition find_images_meta_traced (roots : list path)
  : (option path * option path) * list entry :=
  default ((None, None), []) (for_each_root roots).

Definition find_images_meta (roots : list path) : option path * option path :=
  (find_images_meta_traced roots).1.

End Traversal.

(** The file system in which a directory whose listing fails is an empty
    directory. *)
Definition quiet (fs : filesystem) : filesystem :=
  {| is_dir := is_dir fs;
     is_file := is_file fs;
     path_exists := path_exists fs;
     iterdir p := match iterdir fs p with
                  | Ok names => Ok names
                  | Raise _ => Ok []
                  end;
     glob_star := glob_star fs;
     resolve := resolve fs |}.

(** ** Strings: [str.lower], [str.startswith], [str.endswith]

    File names are byte strings; [lower] maps the ASCII capitals, the only
    letters that occur in the prefixes and suffixes tested here. *)

Definition lower_ascii (c : ascii) : ascii :=
  let n := nat_of_ascii c in
  if (65 <=? n) && (n <=? 90) then ascii_of_nat (n + 32) else c.

Fixpoint lower (s : string) : string :=
  match s with
  | EmptyString => EmptyString
  | String c s' => String (lower_ascii c) (lower s')
  end.

Definition startswith (s pre : string) : bool := String.prefix pre s.

Definition endswith (s suf : string) : bool :=
  String.prefix (String.rev suf) (String.rev s).

(** [s.endswith(tuple)]. *)
Definition endswith_any (s : string) (sufs : list string) : bool :=
  existsb (endswith s) sufs.

(** Names that differ by the case of ASCII letters only.  [capital_of small
    cap]: [cap] is one of [A]-[Z] and [small] the letter 32 places after
    it. *)
Definition capital_of (small cap : ascii) : bool :=
  let n := nat_of_ascii cap in
  (65 <=? n) && (n <=? 90) && (nat_of_ascii small =? n + 32).

Definition same_letter (c1 c2 : ascii) : bool :=
  bool_decide (c1 = c2) || capital_of c1 c2 || capital_of c2 c1.

Fixpoint same_modulo_case (s1 s2 : string) : bool :=
  match s1, s2 with
  | EmptyString, EmptyString => true
  | String c1 s1', String c2 s2' => same_letter c1 c2 && same_modulo_case s1' s2'
  | _, _ => false
  end.

(** ** Programs with a trace of calls, [sys.exit] and uncaught exceptions *)

Inductive event : Type :=
  | Stdout (line : string)
  | Stderr (line : string)
  | DatasetDownload (ref : string)
  | Rmtree (p : path)
  | Mkdir (p : path)
  | TarExtractall (archive dest : path)
  | ZipExtractall (archive dest : path)
  | Copytree (src dst : path)
  | Makedirs (d : string)
  | HttpGet (url : string)
  | WriteFile (p : string).

Inductive outcome (A : Type) : Type :=
  | Value (a : A)
  | SysExit (code : Z)
  | Uncaught (e : exn).

Arguments Value {A} a.
Arguments SysExit {A} code.
Arguments Uncaught {A} e.

(** A program over a state [S]: the calls it made in order, the final
    state, and how it ended. *)
Definition prog (S A : Type) : Type := S -> list event * S * outcome A.

Definition prog_ret {S A : Type} (a : A) : prog S A :=
  fun s => ([], s, Value a).

Definition prog_bind {S A B : Type} (m : prog S A) (k : A -> prog S B)
  : prog S B :=
  fun s =>
    match m s with
    | (l, s', Value a) => let '(l', s'', o) := k a s' in (l ++ l', s'', o)
    | (l, s', SysExit c) => (l, s', SysExit c)
    | (l, s', Uncaught e) => (l, s', Uncaught e)
    end.

#[export] Instance prog_mret {S : Type} : MRet (prog S) := @prog_ret S.
#[export] Instance prog_mbind {S : Type} : MBind (prog S) :=
  fun A B k m => prog_bind m k.

Definition emit {S : Type} (ev : event) : prog S unit :=
  fun s => ([ev], s, Value tt).

Definition print {S : Type} (line : string) : prog S unit := emit (Stdout line).
Definition eprint {S : Type} (line : string) : prog S unit := emit (Stderr line).

Definition sys_exit {S A : Type} (code : Z) : prog S A :=
  fun s => ([], s, SysExit code).

Definition raise {S A : Type} (e : exn) : prog S A :=
  fun s => ([], s, Uncaught e).

Definition probe {S A : Type} (f : S -> A) : prog S A :=
  fun s => ([], s, Value (f s)).

(** A call into a collaborator that changes the state or raises. *)
Definition call {S : Type} (ev : event) (f : S -> result S) : prog S unit :=
  fun s =>
    match f s with
    | Ok s' => ([ev], s', Value tt)
    | Raise e => ([ev], s, Uncaught e)
    end.

Definition call_value {S A : Type} (ev : event) (f : S -> result (A * S))
  : prog S A :=
  fun s =>
    match f s with
    | Ok (a, s') => ([ev], s', Value a)
    | Raise e => ([ev], s, Uncaught e)
    end.

(** [try: body except Exception as e: handler(e)]; [SystemExit] is not an
    [Exception] and passes through. *)
Definition try_except {S A : Type} (body : prog S A) (handler : exn -> prog S A)
  : prog S A :=
  fun s =>
    match body s with
    | (l, s', Uncaught e) => let '(l', s'', o) := handler e s' in (l ++ l', s'', o)
    | r => r
    end.

(** The exit status of the process: a script that runs to its end exits
    with 0, [sys.exit(n)] with [n], an uncaught exception with 1. *)
Definition exit_status {A : Type} (o : outcome A) : Z :=
  match o with
  | Value _ => 0
  | SysExit code => code
  | Uncaught _ => 1
  end.

(** What a run wrote to [sys.stderr]. *)
Definition stderr_lines (tr : list event) : list string :=
  omap (fun ev => match ev with
                  | Stderr line => Some line
                  | _ => None
                  end) tr.

(** ** The collaborators of the download scripts *)

Record externals : Type := Externals {
  (** [import kagglehub] succeeds *)
  kagglehub_available : bool;
  (** [kagglehub.dataset_download(ref)]: [None] stands for a falsy result *)
  dataset_download : string -> filesystem -> result (option path * filesystem);
  expanduser : path -> path;
  rmtree : path -> filesystem -> result filesystem;
  (** [p.mkdir(parents=True, exist_ok=True)] *)
  mkdir_parents : path -> filesystem -> result filesystem;
  tar_extractall : path -> path -> filesystem -> result filesystem;
  zip_extractall : path -> path -> filesystem -> result filesystem;
  (** what [copytree] does once the source is listed and the destination
      is found absent: it makes the destination and copies the entries *)
  copy_tree : path -> path -> filesystem -> result filesystem
}.

(** [shutil.copytree(src, dst, dirs_exist_ok=...)].  It lists the source
    first ([os.scandir(src)], which fails as [iterdir] does), then makes the
    destination ([os.makedirs(dst, exist_ok=dirs_exist_ok)], which raises
    [FileExistsError] when [dst] exists and [dirs_exist_ok] is false), and
    then copies the entries.  The event [Copytree] records the call. *)
Definition shutil_copytree (E : externals) (src dst : path)
  (dirs_exist_ok : bool) : prog filesystem unit :=
  fun fs =>
    match iterdir fs src with
    | Raise e => ([Copytree src dst], fs, Uncaught e)
    | Ok _ =>
        if negb dirs_exist_ok && path_exists fs dst then
          ([Copytree src dst], fs, Uncaught FileExistsError)
        else call (Copytree src dst) (copy_tree E src dst) fs
    end.

Record args : Type := Args { out : path; force : bool }.

(** ** Lines that the two download scripts share verbatim *)

Definition msg_no_kagglehub : string :=
  "ERROR: 'kagglehub' is not installed. Run: pip install kagglehub".
Definition msg_no_path : string :=
  "ERROR: kagglehub did not return a path. Check dataset ref or authentication.".
Definition msg_skip (out_dir : path) : string :=
  "[skip] Output folder already exists: " +:+ show_path out_dir.
Definition msg_skip_hint : string :=
  "       Use --force to overwrite, or choose a different --out path.".
Definition msg_force (out_dir : path) : string :=
  "[force] Removing existing folder: " +:+ show_path out_dir.

(** [if out_dir.exists(): if args.force: print; shutil.rmtree(out_dir)
     else: print; print; sys.exit(0)]. *)
Definition handle_existing (E : externals) (force : bool) (out_dir : path)
  : prog filesystem unit :=
  target_exists ← probe (fun fs => path_exists fs out_dir) ;
  if (target_exists : bool) then
    if force then
      print (msg_force out_dir) ;;
      call (Rmtree out_dir) (rmtree E out_dir)
    else
      print (msg_skip out_dir) ;;
      print msg_skip_hint ;;
      sys_exit 0
  else mret tt.

(** ** [download_food101.py] *)

Module Food101.

Definition DATASET_REF : string := "dansbecker/food-101".

(** [extract_any(archive, dest)]. *)
Definition extract_any (E : externals) (archive dest : path)
  : prog filesystem unit :=
  call (Mkdir dest) (mkdir_parents E dest) ;;
  let name := lower (name_of archive) in
  if endswith_any name [".tar.gz"; ".tgz"; ".tar"] then
    call (TarExtractall archive dest) (tar_extractall E archive dest)
  else if endswith name ".zip" then
    call (ZipExtractall archive dest) (zip_extractall E archive dest)
  else
    raise (ValueError ("Unsupported archive format: " +:+ show_path archive)).

(** The three variables [images_archive], [meta_archive],
    [food101_archive] of [main]. *)
Record archives : Type := Archives {
  images_archive : option path;
  meta_archive : option path;
  food101_archive : option path
}.

Definition exts : list string := [".tar.gz"; ".tgz"; ".tar"; ".zip"].

(** The body of [for p in root.glob("*")]. *)
Definition classify (fs : filesystem) (acc : archives) (p : path) : archives :=
  if negb (is_file fs p) then acc
  else
    let low := lower (name_of p) in
    if startswith low "images" && endswith_any low exts then
      Archives (Some p) (meta_archive acc) (food101_archive acc)
    else if startswith low "meta" && endswith_any low exts then
      Archives (images_archive acc) (Some p) (food101_archive acc)
    else if startswith low "food-101" && endswith_any low exts then
      Archives (images_archive acc) (meta_archive acc) (Some p)
    else acc.

(** [for root in candidates: for p in root.glob("*"): ...]. *)
Definition scan_archives (fs : filesystem) (candidates : list path) : archives :=
  fold_left
    (fun acc root =>
       fold_left (classify fs) (joinpath root <$> glob_star fs root) acc)
    candidates (Archives None None None).

(** The classification as the specification words it: a file with a known
    archive suffix is the combined archive when its name starts with the
    name of the data set, the primary archive when it starts with the first
    label, the secondary archive when it starts with the second label, the
    comparison being made on the lower-cased name. *)
Inductive archive_class : Type := Combined | Primary | Secondary.

#[export] Instance archive_class_eq_dec : EqDecision archive_class.
Proof. solve_decision. Defined.

Definition class_of (name : string) : option archive_class :=
  let low := lower name in
  if endswith_any low exts then
    if startswith low "food-101" then Some Combined
    else if startswith low "images" then Some Primary
    else if startswith low "meta" then Some Secondary
    else None
  else None.

(** The prefix that a class is named for. *)
Definition prefix_of (c : archive_class) : string :=
  match c with
  | Combined => "food-101"
  | Primary => "images"
  | Secondary => "meta"
  end.

(** The files met by the scan, in the order in which they are met. *)
Definition scanned (fs : filesystem) (candidates : list path) : list path :=
  filter (fun p => is_file fs p)
         (candidates ≫= fun root => joinpath root <$> glob_star fs root).

Definition last_of_class (c : archive_class) (files : list path) : option path :=
  last (filter (fun p => class_of (name_of p) = Some c) files).

(** A later file of a class replaces an earlier one. *)
Definition newer (new old : option path) : option path :=
  match new with
  | Some p => Some p
  | None => old
  end.

(** The archives that the policy of lines 130-143 extracts, in order. *)
Definition policy (found : archives) : list path :=
  match food101_archive found with
  | Some a => [a]
  | None =>
      option_list (images_archive found) ++ option_list (meta_archive found)
  end.

(** The extraction calls of a trace: [(archive, destination)]. *)
Definition extractions (tr : list event) : list (path * path) :=
  omap (fun ev => match ev with
                  | TarExtractall a d | ZipExtractall a d => Some (a, d)
                  | _ => None
                  end) tr.

(** [candidates], lines 101-106. *)
Definition candidate_roots (fs : filesystem) (cache_dir : path) : list path :=
  [cache_dir]
  ++ (if path_exists fs (cache_dir // "food-101")
      then [cache_dir // "food-101"] else [])
  ++ (if path_exists fs (cache_dir // "food-101" // "food-101")
      then [cache_dir // "food-101" // "food-101"] else []).

(** [images_dir and meta_dir]: a [Path] is always truthy, [None] is falsy. *)
Definition both (r : option path * option path) : option (path * path) :=
  match r with
  | (Some images_dir, Some meta_dir) => Some (images_dir, meta_dir)
  | _ => None
  end.

Definition banner_download : string :=
  "[1/6] Downloading via kagglehub: " +:+ DATASET_REF.
Definition banner_search : string :=
  "[3/6] No ready 'images/' and 'meta/' directories found. Searching for archives...".
Definition msg_not_located : string :=
  "ERROR: Could not locate 'images/' and 'meta/' after extraction.".
Definition msg_already_at (step label : string) (target : path) : string :=
  step +:+ " " +:+ label +:+ " already at " +:+ show_path target.
Definition msg_copying (step label : string) (target : path) : string :=
  step +:+ " Copying " +:+ label +:+ " -> " +:+ show_path target.

(** Lines 75-98: the download and the treatment of an existing target.
    Returns [(cache_dir, out_dir)]. *)
Definition prepare (E : externals) (a : args) : prog filesystem (path * path) :=
  (if kagglehub_available E then mret tt
   else eprint msg_no_kagglehub ;; sys_exit 1) ;;
  print banner_download ;;
  cache_path ← call_value (DatasetDownload DATASET_REF)
                          (dataset_download E DATASET_REF) ;
  match cache_path with
  | None => eprint msg_no_path ;; sys_exit 2
  | Some cache_path =>
      cache_dir ← probe (fun fs => resolve fs cache_path) ;
      print ("[2/6] KaggleHub cache at: " +:+ show_path cache_dir) ;;
      out_dir ← probe (fun fs => resolve fs (expanduser E (out a))) ;
      handle_existing E (force a) out_dir ;;
      call (Mkdir out_dir) (mkdir_parents E out_dir) ;;
      mret (cache_dir, out_dir)
  end.

(** Lines 130-143: which archives are extracted, and the second search. *)
Definition extract_found (E : externals) (found : archives) (out_dir : path)
  : prog filesystem (option path * option path) :=
  match food101_archive found with
  | Some food101_archive =>
      print ("  • Extracting monolithic archive: " +:+ name_of food101_archive) ;;
      extract_any E food101_archive out_dir ;;
      probe (fun fs => find_images_meta fs 2 [out_dir])
  | None =>
      match images_archive found with
      | Some images_archive =>
          print ("  • Extracting images archive: " +:+ name_of images_archive) ;;
          extract_any E images_archive out_dir
      | None => mret tt
      end ;;
      match meta_archive found with
      | Some meta_archive =>
          print ("  • Extracting meta archive: " +:+ name_of meta_archive) ;;
          extract_any E meta_archive out_dir
      | None => mret tt
      end ;;
      probe (fun fs => find_images_meta fs 2 [out_dir])
  end.

(** Lines 100-147: the search, the archives, the search again.
    Returns [(images_dir, meta_dir)]. *)
Definition locate (E : externals) (cache_dir out_dir : path)
  : prog filesystem (path * path) :=
  candidates ← probe (fun fs => candidate_roots fs cache_dir) ;
  r ← probe (fun fs => find_images_meta fs 3 candidates) ;
  match both r with
  | Some (images_dir, meta_dir) =>
      print ("[3/6] Found images/meta under: " +:+ show_path (parent images_dir)) ;;
      mret (images_dir, meta_dir)
  | None =>
      print banner_search ;;
      found ← probe (fun fs => scan_archives fs candidates) ;
      r' ← extract_found E found out_dir ;
      match both r' with
      | Some dirs => mret dirs
      | None => eprint msg_not_located ;; sys_exit 3
      end
  end.

(** One of the two [if x.resolve() != final.resolve(): copytree ... else
    print ... already at] statements. *)
Definition place (E : externals) (step label : string) (src target : path)
  : prog filesystem unit :=
  differ ← probe (fun fs => bool_decide (resolve fs src ≠ resolve fs target)) ;
  if (differ : bool) then
    print (msg_copying step label target) ;;
    shutil_copytree E src target false
  else
    print (msg_already_at step label target).

(** [len([d for d in final_images.iterdir() if d.is_dir()])
     if final_images.exists() else 0]. *)
Definition count_classes (final_images : path) : prog filesystem nat :=
  fun fs =>
    if path_exists fs final_images then
      match iterdir fs final_images with
      | Ok names =>
          ([], fs, Value (length (filter (fun d => is_dir fs d)
                                         (joinpath final_images <$> names))))
      | Raise e => ([], fs, Uncaught e)
      end
    else ([], fs, Value 0).

(** Lines 149-171. *)
Definition finalize (E : externals) (out_dir images_dir meta_dir : path)
  : prog filesystem unit :=
  let final_images := out_dir // "images" in
  let final_meta := out_dir // "meta" in
  place E "[4/6]" "images" images_dir final_images ;;
  place E "[5/6]" "meta" meta_dir final_meta ;;
  num_classes ← count_classes final_images ;
  print "[6/6] Verify:" ;;
  print ("  images: " +:+ show_path final_images +:+ " (" +:+ pretty num_classes
         +:+ " class folders)") ;;
  print ("  meta  : " +:+ show_path final_meta) ;;
  print "✅ Done." ;;
  print ("Path to dataset files: " +:+ show_path out_dir).

Definition main (E : externals) (a : args) : prog filesystem unit :=
  '(cache_dir, out_dir) ← prepare E a ;
  '(images_dir, meta_dir) ← locate E cache_dir out_dir ;
  finalize E out_dir images_dir meta_dir.

End Food101.

(** ** [download_food11.py] *)

Module Food11.

Definition DATASET_REF : string := "trolukovich/food11-image-dataset".

Definition main (E : externals) (a : args) : prog filesystem unit :=
  (if kagglehub_available E then mret tt
   else eprint msg_no_kagglehub ;; sys_exit 1) ;;
  print ("[1/3] Downloading via kagglehub: " +:+ DATASET_REF) ;;
  cache_path ← call_value (DatasetDownload DATASET_REF)
                          (dataset_download E DATASET_REF) ;
  match cache_path with
  | None => eprint msg_no_path ;; sys_exit 2
  | Some cache_path =>
      cache_dir ← probe (fun fs => resolve fs cache_path) ;
      print ("[2/3] KaggleHub cache at: " +:+ show_path cache_dir) ;;
      out_dir ← probe (fun fs => resolve fs (expanduser E (out a))) ;
      handle_existing E (force a) out_dir ;;
      print ("[3/3] Copying to: " +:+ show_path out_dir) ;;
      call (Mkdir (parent out_dir)) (mkdir_parents E (parent out_dir)) ;;
      shutil_copytree E cache_dir out_dir true ;;
      print "✅ Done." ;;
      print ("Path to dataset files: " +:+ show_path out_dir)
  end.

End Food11.

(** ** [utility_functions.py] *)

Module Utility.

(** What [utils_image_find] asks of the operating system and the network;
    [W] is the state of both. *)
Record host (W : Type) : Type := Host {
  (** [os.makedirs(d, exist_ok=True)] *)
  os_makedirs : string -> W -> result W;
  os_path_exists : string -> W -> bool;
  (** [requests.get(url, timeout=30)] and [raise_for_status()]; the value
      is the body of the response *)
  requests_get : string -> W -> result (string * W);
  (** [open(p, "wb")] and [write] *)
  write_bytes : string -> string -> W -> result W;
  (** [str(e)] *)
  exn_text : exn -> string
}.

Arguments os_makedirs {W} h d w.
Arguments os_path_exists {W} h p w.
Arguments requests_get {W} h url w.
Arguments write_bytes {W} h p content w.
Arguments exn_text {W} h e.

Fixpoint drop_while (f : ascii -> bool) (l : list ascii) : list ascii :=
  match l with
  | [] => []
  | c :: l' => if f c then drop_while f l' else l
  end.

Definition is_sep (c : ascii) : bool := bool_decide (c = "/"%char).

(** [os.path.dirname] of [posixpath]: [head = p[:p.rfind('/') + 1]], with
    the trailing separators stripped unless [head] consists of separators
    only.  The characters are handled in reverse order. *)
Definition dirname (p : string) : string :=
  let rev_head := drop_while (fun c => negb (is_sep c))
                             (rev (list_ascii_of_string p)) in
  if forallb is_sep rev_head then string_of_list_ascii (rev rev_head)
  else string_of_list_ascii (rev (drop_while is_sep rev_head)).

(** [if url:]. *)
Definition truthy (url : option string) : option string :=
  match url with
  | Some u => if String.eqb u "" then None else Some u
  | None => None
  end.

Definition utils_image_find {W : Type} (H : host W) (local_path : string)
  (url : option string) : prog W string :=
  call (Makedirs (dirname local_path)) (os_makedirs H (dirname local_path)) ;;
  present ← probe (os_path_exists H local_path) ;
  if (present : bool) then mret local_path
  else
    match truthy url with
    | Some u =>
        try_except
          (content ← call_value (HttpGet u) (requests_get H u) ;
           call (WriteFile local_path) (write_bytes H local_path content) ;;
           mret local_path)
          (fun e => mret ("Download failed: " +:+ exn_text H e))
    | None => mret "Image not found, add url argument"
    end.

End Utility.

(** * Concrete file systems and collaborators *)

Module Scenario.

Inductive node : Type :=
  | Dir (names : list string)
  | LockedDir
  | RegularFile.

Fixpoint lookup_node (t : list (path * node)) (p : path) : option node :=
  match t with
  | [] => None
  | (q, n) :: t' => if bool_decide (q = p) then Some n else lookup_node t' p
  end.

(** A file system without symbolic links, given by the table of its nodes. *)
Definition of_table (t : list (path * node)) : filesystem :=
  {| is_dir p := match lookup_node t p with
                 | Some (Dir _) | Some LockedDir => true
                 | _ => false
                 end;
     is_file p := match lookup_node t p with
                  | Some RegularFile => true
                  | _ => false
                  end;
     path_exists p := bool_decide (is_Some (lookup_node t p));
     iterdir p := match lookup_node t p with
                  | Some (Dir names) => Ok names
                  | Some LockedDir => Raise PermissionError
                  | Some RegularFile => Raise (OtherError "NotADirectoryError")
                  | None => Raise FileNotFoundError
                  end;
     glob_star p := match lookup_node t p with
                    | Some (Dir names) => names
                    | _ => []
                    end;
     resolve p := p |}.

Definition cache : path := ["cache"].

(** The pair once at depth 3, in the subtree listed first, and once at
    depth 1, differently populated. *)
Definition nested : filesystem :=
  of_table
    [ (["cache"], Dir ["deep"; "shallow"]);
      (["cache"; "deep"], Dir ["a"]);
      (["cache"; "deep"; "a"], Dir ["b"]);
      (["cache"; "deep"; "a"; "b"], Dir ["images"; "meta"]);
      (["cache"; "deep"; "a"; "b"; "images"], Dir ["apple_pie"]);
      (["cache"; "deep"; "a"; "b"; "images"; "apple_pie"], Dir []);
      (["cache"; "deep"; "a"; "b"; "meta"], Dir []);
      (["cache"; "shallow"], Dir ["images"; "meta"]);
      (["cache"; "shallow"; "images"], Dir []);
      (["cache"; "shallow"; "meta"], Dir []) ].

(** The pair at depth 3 only. *)
Definition buried : filesystem :=
  of_table
    [ (["cache"], Dir ["a"]);
      (["cache"; "a"], Dir ["b"]);
      (["cache"; "a"; "b"], Dir ["c"]);
      (["cache"; "a"; "b"; "c"], Dir ["images"; "meta"]);
      (["cache"; "a"; "b"; "c"; "images"], Dir []);
      (["cache"; "a"; "b"; "c"; "meta"], Dir []) ].

(** The pair directly under the root. *)
Definition flat : filesystem :=
  of_table
    [ (["cache"], Dir ["images"; "meta"]);
      (["cache"; "images"], Dir []);
      (["cache"; "meta"], Dir []) ].

(** A directory that cannot be listed, next to one that holds the pair. *)
Definition guarded : filesystem :=
  of_table
    [ (["cache"], Dir ["private"; "public"]);
      (["cache"; "private"], LockedDir);
      (["cache"; "public"], Dir ["images"; "meta"]);
      (["cache"; "public"; "images"], Dir []);
      (["cache"; "public"; "meta"], Dir []) ].

(** [r/a] is a symbolic link to [r]: every path [r/a/.../a] is the
    directory [r]. *)
Definition on_cycle (p : path) : bool :=
  match p with
  | r :: rest => String.eqb r "r" && forallb (String.eqb "a") rest
  | [] => false
  end.

Definition cyclic : filesystem :=
  {| is_dir := on_cycle;
     is_file := fun _ => false;
     path_exists := on_cycle;
     iterdir p := if on_cycle p then Ok ["a"] else Raise FileNotFoundError;
     glob_star p := if on_cycle p then ["a"] else [];
     resolve p := if on_cycle p then ["r"] else p |}.

(** The components of [p] after [d], when [p] lies at or below [d]. *)
Fixpoint below (d p : path) : option path :=
  match d, p with
  | [], _ => Some p
  | x :: d', y :: p' => if String.eqb x y then below d' p' else None
  | _ :: _, [] => None
  end.

(** [fs] seen from the directory [src]. *)
Definition rerooted (src : path) (fs : filesystem) : filesystem :=
  {| is_dir p := is_dir fs (src ++ p);
     is_file p := is_file fs (src ++ p);
     path_exists p := path_exists fs (src ++ p);
     iterdir p := iterdir fs (src ++ p);
     glob_star p := glob_star fs (src ++ p);
     resolve p := p |}.

(** [fs] with the tree [payload] in the place of [d]. *)
Definition overlay (d : path) (payload fs : filesystem) : filesystem :=
  {| is_dir p := match below d p with
                 | Some rest => is_dir payload rest
                 | None => is_dir fs p
                 end;
     is_file p := match below d p with
                  | Some rest => is_file payload rest
                  | None => is_file fs p
                  end;
     path_exists p := match below d p with
                      | Some rest => path_exists payload rest
                      | None => path_exists fs p
                      end;
     iterdir p := match below d p with
                  | Some rest => iterdir payload rest
                  | None => iterdir fs p
                  end;
     glob_star p := match below d p with
                    | Some rest => glob_star payload rest
                    | None => glob_star fs p
                    end;
     resolve := resolve fs |}.

Definition empty_dir : filesystem := of_table [([], Dir [])].
Definition nothing : filesystem := of_table [].

(** What the archive [food-101.tar] of the scenarios unpacks to. *)
Definition food101_payload : filesystem :=
  of_table
    [ ([], Dir ["food-101"]);
      (["food-101"], Dir ["images"; "meta"]);
      (["food-101"; "images"], Dir ["apple_pie"; "waffles"]);
      (["food-101"; "images"; "apple_pie"], Dir []);
      (["food-101"; "images"; "waffles"], Dir []);
      (["food-101"; "meta"], Dir ["classes.txt"]);
      (["food-101"; "meta"; "classes.txt"], RegularFile) ].

(** Collaborators that succeed: the download answers with [cache], an
    extraction of [food-101.tar] puts [food101_payload] at the destination,
    a copy puts the source tree at the destination. *)
Definition hub : externals :=
  {| kagglehub_available := true;
     dataset_download := fun _ fs => Ok (Some cache, fs);
     expanduser := fun p => p;
     rmtree := fun p fs => Ok (overlay p nothing fs);
     mkdir_parents := fun p fs =>
       Ok (if path_exists fs p then fs else overlay p empty_dir fs);
     tar_extractall := fun a d fs =>
       Ok (if String.eqb (name_of a) "food-101.tar"
           then overlay d food101_payload fs else fs);
     zip_extractall := fun _ _ fs => Ok fs;
     copy_tree := fun src dst fs => Ok (overlay dst (rerooted src fs) fs) |}.

(** No download capability. *)
Definition offline : externals :=
  {| kagglehub_available := false;
     dataset_download := dataset_download hub;
     expanduser := expanduser hub;
     rmtree := rmtree hub;
     mkdir_parents := mkdir_parents hub;
     tar_extractall := tar_extractall hub;
     zip_extractall := zip_extractall hub;
     copy_tree := copy_tree hub |}.

(** A download that answers with no path. *)
Definition pathless : externals :=
  {| kagglehub_available := true;
     dataset_download := fun _ fs => Ok (None, fs);
     expanduser := expanduser hub;
     rmtree := rmtree hub;
     mkdir_parents := mkdir_parents hub;
     tar_extractall := tar_extractall hub;
     zip_extractall := zip_extractall hub;
     copy_tree := copy_tree hub |}.

(** The cache holds the three archives of the specification's example. *)
Definition archived : filesystem :=
  of_table
    [ (["cache"], Dir ["images.zip"; "meta.tar.gz"; "food-101.tar"]);
      (["cache"; "images.zip"], RegularFile);
      (["cache"; "meta.tar.gz"], RegularFile);
      (["cache"; "food-101.tar"], RegularFile) ].

(** The cache holds archives that unpack to nothing useful. *)
Definition hollow : filesystem :=
  of_table
    [ (["cache"], Dir ["images.zip"]);
      (["cache"; "images.zip"], RegularFile) ].

(** The target exists already. *)
Definition occupied : filesystem :=
  of_table
    [ (["cache"], Dir ["images.zip"; "meta.tar.gz"; "food-101.tar"]);
      (["cache"; "images.zip"], RegularFile);
      (["cache"; "meta.tar.gz"], RegularFile);
      (["cache"; "food-101.tar"], RegularFile);
      (["out"], Dir ["keep.txt"]);
      (["out"; "keep.txt"], RegularFile) ].

(** The pair was found below the target, whose [images] directory exists
    and is empty. *)
Definition staged : filesystem :=
  of_table
    [ (["out"], Dir ["images"; "food-101"]);
      (["out"; "images"], Dir []);
      (["out"; "food-101"], Dir ["images"; "meta"]);
      (["out"; "food-101"; "images"], Dir ["apple_pie"]);
      (["out"; "food-101"; "images"; "apple_pie"], Dir []);
      (["out"; "food-101"; "meta"], Dir []) ].

(** The pair is in place already. *)
Definition settled : filesystem :=
  of_table
    [ (["out"], Dir ["images"; "meta"]);
      (["out"; "images"], Dir ["apple_pie"]);
      (["out"; "images"; "apple_pie"], Dir []);
      (["out"; "meta"], Dir []) ].

(** A host on which the current directory holds [img.jpg], the network is
    down, and [mkdir] of the empty path fails as it does on POSIX systems
    ([ENOENT]).  The state is the list of the files that exist. *)
Definition posix : Utility.host (list string) :=
  {| Utility.os_makedirs := fun d w =>
       if String.eqb d "" then Raise FileNotFoundError else Ok w;
     Utility.os_path_exists := fun p w => bool_decide (p ∈ w);
     Utility.requests_get := fun _ _ => Raise (OtherError "ConnectionError");
     Utility.write_bytes := fun p _ w => Ok (p :: w);
     Utility.exn_text := fun e =>
       match e with
       | OtherError msg | ValueError msg => msg
       | _ => ""
       end |}.

(** The example of the specification: the cache holds the data set under
    [food-101/food-101]. *)
Definition mirrored : filesystem :=
  of_table
    [ (["cache"], Dir ["food-101"]);
      (["cache"; "food-101"], Dir ["food-101"]);
      (["cache"; "food-101"; "food-101"], Dir ["images"; "meta"]);
      (["cache"; "food-101"; "food-101"; "images"],
       Dir ["apple_pie"; "baklava"; "waffles"]);
      (["cache"; "food-101"; "food-101"; "images"; "apple_pie"], Dir []);
      (["cache"; "food-101"; "food-101"; "images"; "baklava"], Dir []);
      (["cache"; "food-101"; "food-101"; "images"; "waffles"], Dir []);
      (["cache"; "food-101"; "food-101"; "meta"], Dir ["classes.txt"]);
      (["cache"; "food-101"; "food-101"; "meta"; "classes.txt"], RegularFile) ].

Definition to_out : args := {| out := ["out"]; force := false |}.
Definition to_out_forced : args := {| out := ["out"]; force := true |}.
Definition to_elsewhere : args := {| out := ["srv"; "data"]; force := false |}.

(** Archives whose names are written in capitals and in mixed case, two of
    them of the same class. *)
Definition shouting : filesystem :=
  of_table
    [ (["cache"], Dir ["IMAGES.ZIP"; "Food-101.Tar.Gz"; "Images.tar";
                       "META.TGZ"; "readme.txt"]);
      (["cache"; "IMAGES.ZIP"], RegularFile);
      (["cache"; "Food-101.Tar.Gz"], RegularFile);
      (["cache"; "Images.tar"], RegularFile);
      (["cache"; "META.TGZ"], RegularFile);
      (["cache"; "readme.txt"], RegularFile) ].

(** The cache holds files, none of which is an archive of the data set,
    and a directory without the pair. *)
Definition cluttered : filesystem :=
  of_table
    [ (["cache"], Dir ["readme.txt"; "images.rar"; "my-images.zip"; "docs"]);
      (["cache"; "readme.txt"], RegularFile);
      (["cache"; "images.rar"], RegularFile);
      (["cache"; "my-images.zip"], RegularFile);
      (["cache"; "docs"], Dir ["images"]);
      (["cache"; "docs"; "images"], Dir []) ].

(** An empty cache. *)
Definition bare : filesystem := of_table [ (["cache"], Dir []) ].

(** The target [out/images] exists and the source found below the target
    cannot be listed. *)
Definition sealed : filesystem :=
  of_table
    [ (["out"], Dir ["images"; "food-101"]);
      (["out"; "images"], Dir []);
      (["out"; "food-101"], Dir ["images"; "meta"]);
      (["out"; "food-101"; "images"], LockedDir);
      (["out"; "food-101"; "meta"], Dir []) ].

End Scenario.

(** * The search when [Path.is_dir] raises

    [Path.is_dir] swallows the errors of [stat] that say that the path is
    absent ([ENOENT], [ENOTDIR], [EBADF], [ELOOP]) and raises every other
    one again; up to Python 3.12 a [PermissionError], as met under a
    directory that may not be searched, is among the latter.  In
    [iter_dirs_upto_depth] the call is inside the [try]; in
    [find_images_meta] it is not. *)

Module Raising.

(** A file system together with the paths on which [is_dir] raises:
    [plain] gives the listings and the answers of [is_dir] where it
    answers, [denied] the error where it raises. *)
Record probes : Type := Probes {
  plain : filesystem;
  denied : path -> option exn
}.

Section Search.

Variable g : probes.
Variable max_depth : Z.

(** [p.is_dir()]. *)
Definition path_is_dir (p : path) : result bool :=
  match denied g p with
  | Some e => Raise e
  | None => Ok (is_dir (plain g) p)
  end.

(** [for p in cur.iterdir(): if p.is_dir(): queue.append((p, depth+1))],
    inside the [try]: when a test raises, the loop is left and what was
    appended before stays in the queue. *)
Fixpoint append_dirs (cur : path) (depth : Z) (names : list string)
  (q : list entry) : list entry :=
  match names with
  | [] => q
  | name :: names' =>
      match path_is_dir (cur // name) with
      | Ok true =>
          append_dirs cur depth names' (q ++ [(cur // name, (depth + 1)%Z)])
      | Ok false => append_dirs cur depth names' q
      | Raise _ => q
      end
  end.

(** The code after [yield]. *)
Definition expand (cur : path) (depth : Z) (q : list entry) : list entry :=
  if (depth <? max_depth)%Z then
    match iterdir (plain g) cur with
    | Ok names => append_dirs cur depth names q
    | Raise _ => q
    end
  else q.

Definition expanded (w : walker) : list entry :=
  match pending w with
  | Some (cur, depth) => expand cur depth (queue w)
  | None => queue w
  end.

(** One [next()] on the generator. *)
Definition resume (w : walker) : option (entry * walker) :=
  match pop_unseen (expanded w) (seen w) with
  | None => None
  | Some ((cur, depth), q2) =>
      Some ((cur, depth), Walker (Some (cur, depth)) q2 ({[cur]} ∪ seen w))
  end.

(** The names of a listing that the traversal gets to test: those before
    the first one whose test raises. *)
Fixpoint listed (cur : path) (names : list string) : list string :=
  match names with
  | [] => []
  | name :: names' =>
      match denied g (cur // name) with
      | Some _ => []
      | None => name :: listed cur names'
      end
  end.

(** The file system as the traversal gets to see it. *)
Definition visible : filesystem :=
  {| is_dir := is_dir (plain g);
     is_file := is_file (plain g);
     path_exists := path_exists (plain g);
     iterdir p := match iterdir (plain g) p with
                  | Ok names => Ok (listed p names)
                  | Raise e => Raise e
                  end;
     glob_star := glob_star (plain g);
     resolve := resolve (plain g) |}.

(** [img.is_dir() and met.is_dir()]. *)
Definition has_pair (p : path) : result bool :=
  match path_is_dir (p // "images") with
  | Ok true => path_is_dir (p // "meta")
  | Ok false => Ok false
  | Raise e => Raise e
  end.

(** What the inner loop does with the complete list of a generator: stop
    at the first directory whose test succeeds or raises. *)
Fixpoint first_hit (l : list entry) : result loop_exit * list entry :=
  match l with
  | [] => (Ok Exhausted, [])
  | (p, d) :: l' =>
      match has_pair p with
      | Ok true => (Ok (Return (p // "images") (p // "meta")), [(p, d)])
      | Ok false => let '(r, visited) := first_hit l' in (r, (p, d) :: visited)
      | Raise e => (Raise e, [(p, d)])
      end
  end.

(** The inner loop [for p, d in iter_dirs_upto_depth(r, max_depth)]. *)
Fixpoint for_each_dir (fuel : nat) (w : walker)
  : option (result loop_exit * list entry) :=
  match fuel with
  | O => None
  | S fuel' =>
      match resume w with
      | None => Some (Ok Exhausted, [])
      | Some ((p, d), w') =>
          match has_pair p with
          | Ok true => Some (Ok (Return (p // "images") (p // "meta")), [(p, d)])
          | Ok false =>
              match for_each_dir fuel' w' with
              | Some (r, visited) => Some (r, (p, d) :: visited)
              | None => None
              end
          | Raise e => Some (Raise e, [(p, d)])
          end
      end
  end.

(** The outer loop and the final [return None, None].  The fuel of the
    inner loop is the weight of the walker in the file system that the
    traversal sees. *)
Fixpoint for_each_root (roots : list path)
  : option (result (option path * option path) * list entry) :=
  match roots with
  | [] => Some (Ok (None, None), [])
  | r :: roots' =>
      match for_each_dir (S (weight visible max_depth (start r))) (start r) with
      | None => None
      | Some (Ok (Return img met), visited) =>
          Some (Ok (Some img, Some met), visited)
      | Some (Ok Exhausted, visited) =>
          match for_each_root roots' with
          | Some (res, visited') => Some (res, visited ++ visited')
          | None => None
          end
      | Some (Raise e, visited) => Some (Raise e, visited)
      end
  end.

(** The outcome of [find_images_meta] paired with the directories
    visited. *)
Definition find_images_meta_traced (roots : list path)
  : result (option path * option path) * list entry :=
  default (Ok (None, None), []) (for_each_root roots).

Definition find_images_meta (roots : list path)
  : result (option path * option path) :=
  (find_images_meta_traced roots).1.

End Search.

(** The same, with every directory whose listing fails taken for an empty
    directory. *)
Definition hushed (g : probes) : probes :=
  {| plain := quiet (plain g); denied := denied g |}.

(** [is_dir] raises nowhere. *)
Definition permissive (fs : filesystem) : probes :=
  {| plain := fs; denied := fun _ => None |}.

(** [Scenario.guarded] with the directory [cache/private] closed to
    listing and to search (mode 000): what lies below it cannot be
    tested. *)
Definition locked : probes :=
  {| plain := Scenario.guarded;
     denied := fun p =>
       match Scenario.below ["cache"; "private"] p with
       | Some (_ :: _) => Some PermissionError
       | _ => None
       end |}.

(** The test of one entry, [cache/a/y], fails with an input/output
    error. *)
Definition faulty : probes :=
  {| plain :=
       Scenario.of_table
         [ (["cache"], Scenario.Dir ["a"; "b"; "c"]);
           (["cache"; "a"], Scenario.Dir ["x"; "y"; "z"]);
           (["cache"; "b"], Scenario.Dir []);
           (["cache"; "c"], Scenario.Dir []);
           (["cache"; "a"; "x"], Scenario.Dir []);
           (["cache"; "a"; "y"], Scenario.Dir []);
           (["cache"; "a"; "z"], Scenario.Dir []) ];
     denied := fun p =>
       if bool_decide (p = ["cache"; "a"; "y"]) then Some (OtherError "OSError")
       else None |}.

End Raising.

(** * Further code of the repository *)

(** ** [download_nutrition5k.py] *)

Module Nutrition5k.

Definition DEFAULT_REF : string := "siddhantrout/nutrition5k-dataset".

(** The parsed command line: [--out], [--ref], [--force]. *)
Record args : Type := Args { out : path; ref : string; force : bool }.

Definition msg_note : string :=
  "Note: If this ref stores images as bytes inside tables, use the training notebook to materialize JPEGs.".

Definition main (E : externals) (a : args) : prog filesystem unit :=
  (if kagglehub_available E then mret tt
   else eprint msg_no_kagglehub ;; sys_exit 1) ;;
  print ("[1/3] Downloading via kagglehub: " +:+ ref a) ;;
  cache_path ← call_value (DatasetDownload (ref a)) (dataset_download E (ref a)) ;
  match cache_path with
  | None => eprint msg_no_path ;; sys_exit 2
  | Some cache_path =>
      cache_dir ← probe (fun fs => resolve fs cache_path) ;
      print ("[2/3] KaggleHub cache at: " +:+ show_path cache_dir) ;;
      out_dir ← probe (fun fs => resolve fs (expanduser E (out a))) ;
      handle_existing E (force a) out_dir ;;
      print ("[3/3] Copying to: " +:+ show_path out_dir) ;;
      call (Mkdir (parent out_dir)) (mkdir_parents E (parent out_dir)) ;;
      shutil_copytree E cache_dir out_dir true ;;
      print "✅ Done." ;;
      print ("Path to dataset files: " +:+ show_path out_dir) ;;
      print msg_note
  end.

End Nutrition5k.

(** ** [utility_functions.py]: [run_yolo] *)

Module Detection.

Fixpoint take_while (f : ascii -> bool) (l : list ascii) : list ascii :=
  match l with
  | [] => []
  | c :: l' => if f c then c :: take_while f l' else []
  end.

(** [os.path.basename] of [posixpath]: [p[p.rfind('/') + 1:]].  The
    characters are handled in reverse order. *)
Definition basename (p : string) : string :=
  string_of_list_ascii
    (rev (take_while (fun c => negb (Utility.is_sep c))
                     (rev (list_ascii_of_string p)))).

(** [os.path.join(a, b)] of [posixpath]. *)
Definition path_join (a b : string) : string :=
  if startswith b "/" then b
  else if String.eqb a "" || endswith a "/" then a +:+ b
  else a +:+ "/" +:+ b.

(** What [run_yolo] asks of its libraries; [W] is the state of the
    machine. *)
Record vision (W : Type) : Type := Vision {
  (** [os.makedirs(d, exist_ok=True)] *)
  makedirs : string -> W -> result W;
  (** [YOLO(model_path)(img_path)[0].plot()]: the annotated image *)
  annotate : string -> string -> W -> result (string * W);
  (** [cv2.imwrite(path, image)] *)
  imwrite : string -> string -> W -> result W;
  (** [plt.imshow], [plt.axis("off")], [plt.show()] *)
  display : string -> W -> result W
}.

Arguments makedirs {W} v d w.
Arguments annotate {W} v model_path img_path w.
Arguments imwrite {W} v p image w.
Arguments display {W} v image w.

(** A call into a library that leaves no entry in the trace. *)
Definition silently {W A : Type} (f : W -> result (A * W)) : prog W A :=
  fun w =>
    match f w with
    | Ok (a, w') => ([], w', Value a)
    | Raise e => ([], w, Uncaught e)
    end.

(** [os.path.join(results_dir, f"results_{os.path.basename(img_path)}")]. *)
Definition out_path_of (img_path results_dir : string) : string :=
  path_join results_dir ("results_" +:+ basename img_path).

Definition run_yolo {W : Type} (V : vision W)
  (img_path model_path results_dir : string) : prog W string :=
  call (Makedirs results_dir) (makedirs V results_dir) ;;
  annotated ← silently (annotate V model_path img_path) ;
  let out_path := out_path_of img_path results_dir in
  call (WriteFile out_path) (imwrite V out_path annotated) ;;
  print ("Saved: " +:+ out_path) ;;
  silently (fun w => match display V annotated w with
                     | Ok w' => Ok (tt, w')
                     | Raise e => Raise e
                     end) ;;
  mret out_path.

End Detection.

(** ** [utilities/utility_traning/train_yolov11.py] *)

Module Train.

(** The values that the parsed arguments and the keyword arguments hold.
    A float is kept as the decimal it was written as, [digits * 10^exp10];
    the script does no arithmetic on floats. *)
Inductive value : Type :=
  | VNone
  | VStr (s : string)
  | VInt (n : Z)
  | VBool (b : bool)
  | VFloat (digits exp10 : Z).

#[global] Instance value_eq_dec : EqDecision value.
Proof. solve_decision. Defined.

(** The namespace returned by [parse_args]. *)
Record args : Type := Args {
  data : option string;
  weights : string;
  model_type : string;
  imgsz : Z;
  epochs : Z;
  batch : Z;
  name : string;
  device : string;
  resume : bool;
  hsv_h : option value;
  hsv_s : option value;
  hsv_v : option value;
  degrees : option value;
  translate : option value;
  scale : option value;
  shear : option value;
  perspective : option value;
  flipud : option value;
  fliplr : option value;
  mosaic : option value;
  mixup : option value
}.

Definition of_option (o : option value) : value :=
  match o with
  | Some v => v
  | None => VNone
  end.

(** [getattr(args, k)]; [None] stands for [AttributeError]. *)
Definition getattr (a : args) (k : string) : option value :=
  if String.eqb k "data" then
    Some (match data a with Some d => VStr d | None => VNone end)
  else if String.eqb k "weights" then Some (VStr (weights a))
  else if String.eqb k "model_type" then Some (VStr (model_type a))
  else if String.eqb k "imgsz" then Some (VInt (imgsz a))
  else if String.eqb k "epochs" then Some (VInt (epochs a))
  else if String.eqb k "batch" then Some (VInt (batch a))
  else if String.eqb k "name" then Some (VStr (name a))
  else if String.eqb k "device" then Some (VStr (device a))
  else if String.eqb k "resume" then Some (VBool (resume a))
  else if String.eqb k "hsv_h" then Some (of_option (hsv_h a))
  else if String.eqb k "hsv_s" then Some (of_option (hsv_s a))
  else if String.eqb k "hsv_v" then Some (of_option (hsv_v a))
  else if String.eqb k "degrees" then Some (of_option (degrees a))
  else if String.eqb k "translate" then Some (of_option (translate a))
  else if String.eqb k "scale" then Some (of_option (scale a))
  else if String.eqb k "shear" then Some (of_option (shear a))
  else if String.eqb k "perspective" then Some (of_option (perspective a))
  else if String.eqb k "flipud" then Some (of_option (flipud a))
  else if String.eqb k "fliplr" then Some (of_option (fliplr a))
  else if String.eqb k "mosaic" then Some (of_option (mosaic a))
  else if String.eqb k "mixup" then Some (of_option (mixup a))
  else None.

(** The two [defaults] dictionaries, in insertion order. *)
Definition gentle : list (string * value) :=
  [ ("hsv_h", VInt 0); ("hsv_s", VInt 0); ("hsv_v", VInt 0);
    ("degrees", VFloat 10 (-1)); ("translate", VFloat 0 (-1));
    ("scale", VFloat 1 (-1)); ("shear", VFloat 0 (-1));
    ("perspective", VFloat 1 (-3));
    ("flipud", VFloat 0 (-1)); ("fliplr", VFloat 0 (-1));
    ("mosaic", VFloat 0 (-1)); ("mixup", VFloat 0 (-1)) ].

Definition strong : list (string * value) :=
  [ ("hsv_h", VFloat 15 (-3)); ("hsv_s", VFloat 7 (-1)); ("hsv_v", VFloat 6 (-1));
    ("degrees", VFloat 100 (-1)); ("translate", VFloat 1 (-1));
    ("scale", VFloat 3 (-1)); ("shear", VFloat 30 (-1));
    ("perspective", VFloat 2 (-3));
    ("flipud", VFloat 0 (-1)); ("fliplr", VFloat 5 (-1));
    ("mosaic", VFloat 5 (-1)); ("mixup", VFloat 1 (-1)) ].

(** [{k: (getattr(args, k) if getattr(args, k) is not None else v)
      for k, v in defaults.items()}]. *)
Fixpoint resolve_aug (a : args) (defaults : list (string * value))
  : result (list (string * value)) :=
  match defaults with
  | [] => Ok []
  | (k, v) :: rest =>
      match getattr a k with
      | None => Raise (OtherError "AttributeError")
      | Some given =>
          match resolve_aug a rest with
          | Ok aug => Ok ((k, if decide (given = VNone) then v else given) :: aug)
          | Raise e => Raise e
          end
      end
  end.

(** The one call that [main] makes: [train] on [YOLO(weights)], with its
    keyword arguments in order. *)
Record train_call : Type := TrainCall {
  call_weights : string;
  kwargs : list (string * value)
}.

(** The keyword arguments written out in the call, before [**aug]. *)
Definition explicit (a : args) (data : string) : list (string * value) :=
  [ ("data", VStr data); ("imgsz", VInt (imgsz a)); ("epochs", VInt (epochs a));
    ("batch", VInt (batch a)); ("name", VStr (name a));
    ("device", VStr (device a)); ("resume", VBool (resume a));
    ("save", VBool true); ("plots", VBool true); ("lr0", VFloat 1 (-3)) ].

(** A keyword that is given twice is a [TypeError]. *)
Definition clash (kw1 kw2 : list (string * value)) : bool :=
  existsb (fun k => bool_decide (k ∈ kw2.*1)) kw1.*1.

Definition main (a : args) : result train_call :=
  let data :=
    match data a with
    | Some d => d
    | None =>
        if String.eqb (model_type a) "license_plates"
        then "all_datasets/dataset_1_licenseplates/data.yaml"
        else "all_datasets/dataset_2_characters/data.yaml"
    end in
  let defaults :=
    if String.eqb (model_type a) "character" then gentle else strong in
  match resolve_aug a defaults with
  | Raise e => Raise e
  | Ok aug =>
      if clash (explicit a data) aug
      then Raise (OtherError "TypeError")
      else Ok (TrainCall (weights a) (explicit a data ++ aug))
  end.

(** What [parse_args] returns for an empty command line. *)
Definition default_args : args :=
  {| data := None; weights := "yolo11m.pt"; model_type := "character";
     imgsz := 640; epochs := 100; batch := 16; name := "run_yolo11";
     device := "0"; resume := false;
     hsv_h := None; hsv_s := None; hsv_v := None; degrees := None;
     translate := None; scale := None; shear := None; perspective := None;
     flipud := None; fliplr := None; mosaic := None; mixup := None |}.

(** The value a keyword has in a call. *)
Fixpoint keyword (kw : list (string * value)) (k : string) : option value :=
  match kw with
  | [] => None
  | (k', v) :: rest => if String.eqb k' k then Some v else keyword rest k
  end.

(** The command-line value of an augmentation parameter. *)
Definition override (a : args) (k : string) : value :=
  default VNone (getattr a k).

End Train.

(** ** What a download script may do to the file system

    The calls that the scripts are seen to make, as predicates on the
    events of a run.  [out_dir] is the resolved target, [existed] tells
    whether it existed when the script looked. *)

Module Safety.

Definition quiet_event (ref : string) (ev : event) : Prop :=
  match ev with
  | Stdout _ | Stderr _ => True
  | DatasetDownload r => r = ref
  | _ => False
  end.

(** [download_food101.py]: the target is removed only under [--force] and
    only if it existed; directories are made, archives extracted and trees
    copied only at the target. *)
Definition food101_event (force existed : bool) (out_dir : path) (ev : event)
  : Prop :=
  match ev with
  | Stdout _ | Stderr _ => True
  | DatasetDownload r => r = Food101.DATASET_REF
  | Rmtree p => force = true /\ existed = true /\ p = out_dir
  | Mkdir p => p = out_dir
  | TarExtractall _ d | ZipExtractall _ d => d = out_dir
  | Copytree _ d => d = out_dir // "images" \/ d = out_dir // "meta"
  | _ => False
  end.

(** [download_food11.py] and [download_nutrition5k.py]: the parent of the
    target is made and the cache is copied onto the target. *)
Definition copy_event (ref : string) (force existed : bool)
  (cache_dir out_dir : path) (ev : event) : Prop :=
  match ev with
  | Stdout _ | Stderr _ => True
  | DatasetDownload r => r = ref
  | Rmtree p => force = true /\ existed = true /\ p = out_dir
  | Mkdir p => p = parent out_dir
  | Copytree s d => s = cache_dir /\ d = out_dir
  | _ => False
  end.

End Safety.

(** ** The two scripts that copy the cache, in closed form

    [download_food11.py] and [download_nutrition5k.py] run the same steps;
    they differ in the data set they ask for and in the lines printed at
    the end.  [copy_run] gives the trace, the final file system and the
    outcome of these steps, case by case. *)

Module CopyScript.

Definition copy_run (E : externals) (ref : string) (final_lines : path -> list string)
  (out : path) (force : bool) (fs : filesystem)
  : list event * filesystem * outcome unit :=
  if kagglehub_available E then
    let banner := Stdout ("[1/3] Downloading via kagglehub: " +:+ ref) in
    match dataset_download E ref fs with
    | Raise e => ([banner; DatasetDownload ref], fs, Uncaught e)
    | Ok (None, fs1) =>
        ([banner; DatasetDownload ref; Stderr msg_no_path], fs1, SysExit 2)
    | Ok (Some cache_path, fs1) =>
        let cache_dir := resolve fs1 cache_path in
        let out_dir := resolve fs1 (expanduser E out) in
        let head :=
          [banner; DatasetDownload ref;
           Stdout ("[2/3] KaggleHub cache at: " +:+ show_path cache_dir)] in
        let copying :=
          [Stdout ("[3/3] Copying to: " +:+ show_path out_dir);
           Mkdir (parent out_dir)] in
        match handle_existing E force out_dir fs1 with
        | (tr, fs2, Value _) =>
            match mkdir_parents E (parent out_dir) fs2 with
            | Raise e => (head ++ tr ++ copying, fs2, Uncaught e)
            | Ok fs3 =>
                match iterdir fs3 cache_dir with
                | Raise e =>
                    (head ++ tr ++ copying ++ [Copytree cache_dir out_dir],
                     fs3, Uncaught e)
                | Ok _ =>
                    match copy_tree E cache_dir out_dir fs3 with
                    | Raise e =>
                        (head ++ tr ++ copying ++ [Copytree cache_dir out_dir],
                         fs3, Uncaught e)
                    | Ok fs4 =>
                        (head ++ tr ++ copying ++ [Copytree cache_dir out_dir]
                           ++ (Stdout <$> final_lines out_dir),
                         fs4, Value tt)
                    end
                end
            end
        | (tr, fs2, SysExit c) => (head ++ tr, fs2, SysExit c)
        | (tr, fs2, Uncaught e) => (head ++ tr, fs2, Uncaught e)
        end
    end
  else ([Stderr msg_no_kagglehub], fs, SysExit 1).

Definition food11_lines (out_dir : path) : list string :=
  ["✅ Done."; "Path to dataset files: " +:+ show_path out_dir].

Definition nutrition5k_lines (out_dir : path) : list string :=
  food11_lines out_dir ++ [Nutrition5k.msg_note].

End CopyScript.

(** ** Path strings *)

Module PathString.

(** The string has no separator. *)
Definition slash_free (s : string) : bool :=
  forallb (fun c => negb (Utility.is_sep c)) (list_ascii_of_string s).

End PathString.

(** ** Concrete hosts and arguments for the further code *)

Module Cases.

(** Libraries that work; the state is the list of the files written. *)
Definition studio : Detection.vision (list string) :=
  {| Detection.makedirs := fun d w =>
       if String.eqb d "" then Raise FileNotFoundError else Ok w;
     Detection.annotate := fun _ img w => Ok ("annotated " +:+ img, w);
     Detection.imwrite := fun p _ w => Ok (p :: w);
     Detection.display := fun _ w => Ok w |}.

(** A host whose network answers with the bytes [JPEG]. *)
Definition online : Utility.host (list string) :=
  {| Utility.os_makedirs := fun d w =>
       if String.eqb d "" then Raise FileNotFoundError else Ok w;
     Utility.os_path_exists := fun p w => bool_decide (p ∈ w);
     Utility.requests_get := fun _ w => Ok ("JPEG", w);
     Utility.write_bytes := fun p _ w => Ok (p :: w);
     Utility.exn_text := fun _ => "" |}.

(** The command line [--model_type license_plates --hsv_h 0.0 --epochs 5]. *)
Definition plates : Train.args :=
  {| Train.data := None; Train.weights := "yolo11m.pt";
     Train.model_type := "license_plates";
     Train.imgsz := 640; Train.epochs := 5; Train.batch := 16;
     Train.name := "run_yolo11"; Train.device := "0"; Train.resume := false;
     Train.hsv_h := Some (Train.VFloat 0 (-1)); Train.hsv_s := None;
     Train.hsv_v := None; Train.degrees := None; Train.translate := None;
     Train.scale := None; Train.shear := None; Train.perspective := None;
     Train.flipud := None; Train.fliplr := None; Train.mosaic := None;
     Train.mixup := None |}.

End Cases.

(** * Properties *)

(** ** The definitions on examples *)

Example lower_example : lower "Food-101.TAR.GZ" = "food-101.tar.gz".
Proof. reflexivity. Qed.

Example endswith_example :
  endswith "food-101.tar.gz" ".tar.gz" = true
  /\ endswith "food-101.tar.gz" ".tar" = false
  /\ startswith "images.zip" "images" = true.
Proof. repeat split; reflexivity. Qed.

Example class_of_example :
  Food101.class_of "IMAGES.ZIP" = Some Food101.Primary
  /\ Food101.class_of "Meta.tgz" = Some Food101.Secondary
  /\ Food101.class_of "Food-101.Tar.Gz" = Some Food101.Combined
  /\ Food101.class_of "images.txt" = None
  /\ Food101.class_of "archive-images.zip" = None.
Proof. repeat split; reflexivity. Qed.

Example dirname_example :
  Utility.dirname "data/img/a.jpg" = "data/img"
  /\ Utility.dirname "/a.jpg" = "/"
  /\ Utility.dirname "data//a.jpg" = "data"
  /\ Utility.dirname "a.jpg" = "".
Proof. repeat split; reflexivity. Qed.

(** Breadth-first order: both directories of depth 1 come before any of
    depth 2. *)
Example traversal_example :
  iter_dirs_upto_depth Scenario.nested 3 Scenario.cache
  = [ (["cache"], 0%Z);
      (["cache"; "deep"], 1%Z);
      (["cache"; "shallow"], 1%Z);
      (["cache"; "deep"; "a"], 2%Z);
      (["cache"; "shallow"; "images"], 2%Z);
      (["cache"; "shallow"; "meta"], 2%Z);
      (["cache"; "deep"; "a"; "b"], 3%Z) ].
Proof. vm_compute. reflexivity. Qed.

(** The example of the specification: the pair is found at depth 2, both
    trees are copied, three class folders are counted. *)
Example main_example :
  find_images_meta_traced Scenario.mirrored 3
    (Food101.candidate_roots Scenario.mirrored Scenario.cache)
  = ((Some ["cache"; "food-101"; "food-101"; "images"],
      Some ["cache"; "food-101"; "food-101"; "meta"]),
     [ (["cache"], 0%Z); (["cache"; "food-101"], 1%Z);
       (["cache"; "food-101"; "food-101"], 2%Z) ])
  /\ (Food101.main Scenario.hub Scenario.to_out Scenario.mirrored).1.1
     = [ Stdout "[1/6] Downloading via kagglehub: dansbecker/food-101";
         DatasetDownload "dansbecker/food-101";
         Stdout "[2/6] KaggleHub cache at: cache";
         Mkdir ["out"];
         Stdout "[3/6] Found images/meta under: cache/food-101/food-101";
         Stdout "[4/6] Copying images -> out/images";
         Copytree ["cache"; "food-101"; "food-101"; "images"] ["out"; "images"];
         Stdout "[5/6] Copying meta -> out/meta";
         Copytree ["cache"; "food-101"; "food-101"; "meta"] ["out"; "meta"];
         Stdout "[6/6] Verify:";
         Stdout "  images: out/images (3 class folders)";
         Stdout "  meta  : out/meta";
         Stdout "✅ Done.";
         Stdout "Path to dataset files: out" ]
  /\ (Food101.main Scenario.hub Scenario.to_out Scenario.mirrored).2 = Value tt.
Proof. repeat split; vm_compute; reflexivity. Qed.

(** ** The walker: termination *)

Section Walker_termination.

Variable fs : filesystem.
Variable max_depth : Z.

#[local] Abbreviation expand := (expand fs max_depth).
#[local] Abbreviation resume := (resume fs max_depth).
#[local] Abbreviation entry_size := (entry_size fs max_depth).
#[local] Abbreviation weight := (weight fs max_depth).
#[local] Abbreviation drain := (drain fs max_depth).
#[local] Abbreviation expanded := (expanded fs max_depth).
#[local] Abbreviation children := (children fs max_depth).
#[local] Abbreviation yields := (yields fs max_depth).

Lemma sum_list_app (l1 l2 : list nat) :
  sum_list (l1 ++ l2) = sum_list l1 + sum_list l2.
Proof. induction l1 as [|x l1 IH]; simpl; lia. Qed.

Lemma expand_children cur depth q :
  expand cur depth q = q ++ children (cur, depth).
Proof.
  unfold expand, children, subdirs; simpl.
  destruct (depth <? max_depth)%Z; [|by rewrite app_nil_r].
  destruct (iterdir fs cur); [done|by rewrite app_nil_r].
Qed.

Lemma entry_size_children e :
  entry_size e = S (sum_list (entry_size <$> children e)).
Proof.
  destruct e as [cur depth]. unfold entry_size, children; simpl.
  destruct (Z.ltb_spec depth max_depth) as [Hlt|Hge].
  - replace (Z.to_nat (max_depth - depth))
      with (S (Z.to_nat (max_depth - (depth + 1)))) by lia.
    simpl. f_equal. f_equal. rewrite <- list_fmap_compose. done.
  - replace (Z.to_nat (max_depth - depth)) with 0 by lia. done.
Qed.

Lemma weight_expanded w :
  weight w = sum_list (entry_size <$> expanded w).
Proof.
  unfold weight, expanded. destruct (pending w) as [[cur depth]|]; [|done].
  rewrite expand_children, fmap_app, sum_list_app.
  rewrite (entry_size_children (cur, depth)). simpl. lia.
Qed.

Lemma pop_unseen_Some q s e q2 :
  pop_unseen q s = Some (e, q2) ->
  exists skipped, q = skipped ++ e :: q2
    /\ Forall (fun x => x.1 ∈ s) skipped /\ (e.1 ∉ s).
Proof.
  induction q as [|[cur depth] q IH]; simpl; [done|].
  case_bool_decide as Hin.
  - intros Hpop. destruct (IH Hpop) as (sk & -> & Hsk & Hne).
    exists ((cur, depth) :: sk). split; [done|]. split; [|done].
    by constructor.
  - intros [= <- <-]. exists []. by repeat split.
Qed.

Lemma pop_unseen_None q s :
  pop_unseen q s = None -> Forall (fun x => x.1 ∈ s) q.
Proof.
  induction q as [|[cur depth] q IH]; simpl; [by constructor|].
  case_bool_decide as Hin; [|done]. intros Hpop. constructor; auto.
Qed.

Lemma resume_Some w e w' :
  resume w = Some (e, w') ->
  exists skipped,
    expanded w = skipped ++ e :: queue w'
    /\ Forall (fun x => x.1 ∈ seen w) skipped
    /\ (e.1 ∉ seen w)
    /\ pending w' = Some e
    /\ seen w' = {[e.1]} ∪ seen w.
Proof.
  unfold resume.
  destruct (pop_unseen (expanded w) (seen w)) as [[[cur depth] q2]|] eqn:Hpop;
    [|done].
  intros [= <- <-]. simpl.
  destruct (pop_unseen_Some _ _ _ _ Hpop) as (sk & Heq & Hsk & Hne).
  exists sk. by repeat split.
Qed.

Lemma resume_None w :
  resume w = None -> Forall (fun x => x.1 ∈ seen w) (expanded w).
Proof.
  unfold resume.
  destruct (pop_unseen (expanded w) (seen w)) as [[[cur depth] q2]|] eqn:Hpop;
    [done|].
  intros _. by apply pop_unseen_None.
Qed.

Lemma expanded_after w e w' :
  resume w = Some (e, w') -> expanded w' = queue w' ++ children e.
Proof.
  intros Hres. destruct (resume_Some _ _ _ Hres) as (_ & _ & _ & _ & Hp & _).
  unfold expanded. rewrite Hp. destruct e as [cur depth].
  apply expand_children.
Qed.

Lemma entry_size_pos e : 0 < entry_size e.
Proof. rewrite entry_size_children. lia. Qed.

Lemma resume_weight w e w' :
  resume w = Some (e, w') -> weight w' < weight w.
Proof.
  intros Hres. destruct (resume_Some _ _ _ Hres) as (sk & Hexp & _ & _ & Hp & _).
  rewrite (weight_expanded w), Hexp, fmap_app, sum_list_app, fmap_cons.
  unfold weight at 1. rewrite Hp. pose proof (entry_size_pos e) as Hpos.
  change (sum_list (entry_size e :: (entry_size <$> queue w')))
    with (entry_size e + sum_list (entry_size <$> queue w')). lia.
Qed.

(** Every walker stops, after at most [weight] yields. *)
Lemma yields_total w : exists l, yields w l /\ length l <= weight w.
Proof.
  remember (weight w) as n eqn:Hn.
  revert w Hn. induction n as [n IH] using lt_wf_ind. intros w ->.
  destruct (resume w) as [[e w']|] eqn:Hres.
  - pose proof (resume_weight _ _ _ Hres) as Hlt.
    destruct (IH _ Hlt w' eq_refl) as (l & Hl & Hlen).
    exists (e :: l). split; [by eapply yields_step|]. simpl. lia.
  - exists []. split; [by apply yields_stop|]. simpl. lia.
Qed.

Lemma yields_det w l1 l2 : yields w l1 -> yields w l2 -> l1 = l2.
Proof.
  intros H1. revert l2. induction H1 as [w Hres|w e w' l Hres _ IH];
    intros l2 H2; inversion H2; subst; try congruence.
  assert (e0 = e /\ w'0 = w') as [-> ->] by (split; congruence).
  f_equal. by apply IH.
Qed.

Lemma drain_yields w l fuel :
  yields w l -> length l < fuel -> drain fuel w = Some l.
Proof.
  intros Hy. revert fuel. induction Hy as [w Hres|w e w' l Hres _ IH];
    intros [|fuel] Hlen; simpl in *; try lia.
  - by rewrite Hres.
  - rewrite Hres. rewrite IH by lia. done.
Qed.

(** The fuel given to [iter_dirs_upto_depth] suffices: the list is the
    complete run of the generator. *)
Lemma iter_dirs_upto_depth_yields root :
  yields (start root) (iter_dirs_upto_depth fs max_depth root).
Proof.
  destruct (yields_total (start root)) as (l & Hl & Hlen).
  unfold iter_dirs_upto_depth.
  rewrite (drain_yields _ l) by (done || lia). done.
Qed.

End Walker_termination.

(** ** The walker: what it yields *)

Section Walker_invariants.

Variable fs : filesystem.
Variable max_depth : Z.

#[local] Abbreviation resume := (resume fs max_depth).
#[local] Abbreviation expanded := (expanded fs max_depth).
#[local] Abbreviation children := (children fs max_depth).
#[local] Abbreviation yields := (yields fs max_depth).
#[local] Abbreviation reachable := (reachable fs max_depth).

(** A property of the queue that children inherit holds of every yield. *)
Lemma yields_Forall (P : entry -> Prop) w l :
  (forall e c, P e -> c ∈ children e -> P c) ->
  yields w l -> Forall P (expanded w) -> Forall P l.
Proof.
  intros Hchild Hy. induction Hy as [w Hres|w e w' l Hres _ IH]; intros Hq.
  - constructor.
  - destruct (resume_Some _ _ _ _ _ Hres) as (sk & Hexp & _).
    rewrite Hexp in Hq. apply Forall_app in Hq as [_ Hq].
    apply Forall_cons in Hq as [He Hq].
    constructor; [done|]. apply IH.
    rewrite (expanded_after _ _ _ _ _ Hres). apply Forall_app. split; [done|].
    apply Forall_forall. intros c Hc. by eapply Hchild.
Qed.

Lemma elem_of_children e c :
  c ∈ children e <->
  (e.2 < max_depth)%Z /\ c.2 = (e.2 + 1)%Z /\
  exists names name, iterdir fs e.1 = Ok names /\ name ∈ names
    /\ c.1 = e.1 // name /\ is_dir fs c.1 = true.
Proof.
  unfold children, subdirs. destruct (Z.ltb_spec e.2 max_depth) as [Hlt|Hge].
  - rewrite list_elem_of_fmap. split.
    + intros (p & -> & Hp). simpl. split; [done|]. split; [done|].
      destruct (iterdir fs e.1) as [names|]; [|by apply elem_of_nil in Hp].
      apply list_elem_of_filter in Hp as [Hdir Hp].
      apply list_elem_of_fmap in Hp as (name & -> & Hname).
      exists names, name. repeat split; try done. by apply Is_true_eq_true.
    + intros (_ & Hd & names & name & Hit & Hname & Hc & Hdir).
      exists c.1. split; [destruct c; simpl in *; by subst|].
      rewrite Hit. apply list_elem_of_filter. split; [by apply Is_true_eq_left|].
      rewrite Hc. by apply list_elem_of_fmap_2.
  - split; [intros Hc; by apply elem_of_nil in Hc|]. intros [? _]. lia.
Qed.

Lemma expanded_start root : expanded (start root) = [(root, 0%Z)].
Proof. done. Qed.

(** Soundness: every yield is a reachable directory. *)
Lemma yields_reachable root :
  Forall (fun e => reachable root e.1 e.2)
         (iter_dirs_upto_depth fs max_depth root).
Proof.
  eapply yields_Forall; [|apply iter_dirs_upto_depth_yields|].
  - intros e c He Hc. apply elem_of_children in Hc
      as (Hlt & -> & names & name & Hit & Hname & -> & Hdir).
    by eapply reachable_child.
  - rewrite expanded_start. repeat constructor.
Qed.

(** A reachable directory lies [d] components below the root, and [d] is
    between 0 and the bound (or 0 when the bound is negative). *)
Lemma reachable_depth root p d :
  reachable root p d ->
  (exists s, p = root ++ s /\ d = Z.of_nat (length s))
  /\ (0 <= d <= Z.max 0 max_depth)%Z.
Proof.
  induction 1 as [|p d names name _ [(s & -> & ->) Hd] Hlt _ _ _].
  - split; [|lia]. exists []. by rewrite app_nil_r.
  - split; [|lia]. exists (s ++ [name]). unfold joinpath.
    rewrite app_assoc, length_app. simpl. split; [done|lia].
Qed.

Lemma reachable_depth_unique root p d d' :
  reachable root p d -> reachable root p d' -> d = d'.
Proof.
  intros H1 H2.
  apply reachable_depth in H1 as [(s1 & Hp1 & ->) _].
  apply reachable_depth in H2 as [(s2 & Hp2 & ->) _].
  rewrite Hp1 in Hp2. by apply app_inv_head in Hp2 as ->.
Qed.

Lemma same_depth_sorted (k : Z) (l : list entry) :
  Forall (fun c => c.2 = k) l -> StronglySorted depth_le l.
Proof.
  induction 1 as [|c l Hc Hl IH]; constructor; [done|].
  eapply Forall_impl; [exact Hl|]. unfold depth_le. intros; lia.
Qed.

Lemma children_depth e : Forall (fun c => c.2 = (e.2 + 1)%Z) (children e).
Proof.
  apply Forall_forall. intros c Hc. by apply elem_of_children in Hc as (_ & ? & _).
Qed.

(** The yields are in order of depth. *)
Lemma yields_sorted_from lo w l :
  yields w l ->
  StronglySorted depth_le (expanded w) ->
  Forall (fun e : entry => (lo <= e.2 <= lo + 1)%Z) (expanded w) ->
  StronglySorted depth_le l /\ Forall (fun e : entry => (lo <= e.2)%Z) l.
Proof.
  intros Hy. revert lo. induction Hy as [w Hres|w e w' l Hres _ IH];
    intros lo Hsort Hrange.
  - split; constructor.
  - destruct (resume_Some _ _ _ _ _ Hres) as (sk & Hexp & _).
    rewrite Hexp in Hsort, Hrange.
    apply Forall_app in Hrange as [_ Hrange].
    apply Forall_cons in Hrange as [He Hrange].
    apply StronglySorted_app_1_r, StronglySorted_cons in Hsort as [Hall Hs].
    pose proof (children_depth e) as Hcd.
    destruct (IH e.2) as [IHs IHl].
    + rewrite (expanded_after _ _ _ _ _ Hres).
      apply StronglySorted_app_2; [|done|by eapply same_depth_sorted].
      intros x1 x2 Hx1 Hx2. unfold depth_le.
      rewrite Forall_forall in Hrange, Hcd.
      specialize (Hrange _ Hx1). specialize (Hcd _ Hx2). lia.
    + rewrite (expanded_after _ _ _ _ _ Hres). apply Forall_app. split.
      * rewrite Forall_forall in Hrange, Hall. apply Forall_forall.
        intros x Hx. specialize (Hrange _ Hx). specialize (Hall _ Hx).
        unfold depth_le in Hall. lia.
      * eapply Forall_impl; [exact Hcd|]. simpl. intros; lia.
    + split.
      * constructor; [done|]. eapply Forall_impl; [exact IHl|]. done.
      * constructor; [lia|]. eapply Forall_impl; [exact IHl|].
        simpl. intros; lia.
Qed.

Lemma iter_dirs_upto_depth_sorted root :
  StronglySorted depth_le (iter_dirs_upto_depth fs max_depth root).
Proof.
  eapply (yields_sorted_from 0).
  - apply iter_dirs_upto_depth_yields.
  - rewrite expanded_start. repeat constructor.
  - rewrite expanded_start. repeat constructor; simpl; lia.
Qed.

Lemma seen_or_yielded (s : gset path) (e : entry) (l : list entry) (x : path) :
  x ∈ {[e.1]} ∪ s \/ x ∈ l.*1 -> x ∈ s \/ x ∈ (e :: l).*1.
Proof.
  intros [Hx|Hx]; [|right; by right].
  apply elem_of_union in Hx as [Hx|Hx]; [|by left].
  apply elem_of_singleton in Hx as ->. right. simpl. left.
Qed.

(** No path is yielded twice, and none that was in [seen] already. *)
Lemma yields_fresh w l :
  yields w l -> NoDup l.*1 /\ Forall (fun e => e.1 ∉ seen w) l.
Proof.
  induction 1 as [w Hres|w e w' l Hres _ [IHn IHs]].
  - split; constructor.
  - destruct (resume_Some _ _ _ _ _ Hres) as (sk & _ & _ & Hne & _ & Hseen).
    rewrite Hseen in IHs. rewrite Forall_forall in IHs. split.
    + simpl. apply NoDup_cons. split; [|done].
      intros Hin. apply list_elem_of_fmap in Hin as (x & Hx & Hxl).
      apply (IHs _ Hxl). apply elem_of_union_l, elem_of_singleton. done.
    + constructor; [done|]. apply Forall_forall. intros x Hx Hin.
      apply (IHs _ Hx). by apply elem_of_union_r.
Qed.

(** Every queued entry is yielded unless its path was seen before. *)
Lemma yields_covers w l :
  yields w l -> Forall (fun x => x.1 ∈ seen w \/ x.1 ∈ l.*1) (expanded w).
Proof.
  induction 1 as [w Hres|w e w' l Hres _ IH].
  - eapply Forall_impl; [by apply resume_None|]. simpl. auto.
  - destruct (resume_Some _ _ _ _ _ Hres) as (sk & Hexp & Hsk & _ & _ & Hseen).
    rewrite (expanded_after _ _ _ _ _ Hres), Hseen in IH.
    apply Forall_app in IH as [IH _]. rewrite Hexp.
    apply Forall_app. split; [|constructor].
    + eapply Forall_impl; [exact Hsk|]. simpl. auto.
    + right. simpl. left.
    + eapply Forall_impl; [exact IH|]. intros x. apply seen_or_yielded.
Qed.

(** The children of a yielded entry are yielded too, unless their path was
    seen before. *)
Lemma yields_closed w l e c :
  yields w l -> e ∈ l -> c ∈ children e -> c.1 ∈ seen w \/ c.1 ∈ l.*1.
Proof.
  induction 1 as [w Hres|w e0 w' l Hres Hy IH]; intros He Hc.
  - by apply elem_of_nil in He.
  - destruct (resume_Some _ _ _ _ _ Hres) as (sk & _ & _ & _ & _ & Hseen).
    apply seen_or_yielded. rewrite <- Hseen.
    apply elem_of_cons in He as [->|He]; [|by apply IH].
    pose proof (yields_covers _ _ Hy) as Hcov.
    rewrite (expanded_after _ _ _ _ _ Hres) in Hcov.
    apply Forall_app in Hcov as [_ Hcov]. rewrite Forall_forall in Hcov.
    by apply Hcov.
Qed.

Lemma yielded_path_depth root p d :
  p ∈ (iter_dirs_upto_depth fs max_depth root).*1 ->
  reachable root p d ->
  (p, d) ∈ iter_dirs_upto_depth fs max_depth root.
Proof.
  intros Hin Hr. apply list_elem_of_fmap in Hin as ([p' d'] & -> & Hin).
  pose proof (yields_reachable root) as Hsound.
  rewrite Forall_forall in Hsound. pose proof (Hsound _ Hin) as Hr'.
  simpl in *. by rewrite (reachable_depth_unique _ _ _ _ Hr Hr').
Qed.

(** Completeness: every reachable directory is yielded, with its depth. *)
Lemma reachable_yielded root p d :
  reachable root p d -> (p, d) ∈ iter_dirs_upto_depth fs max_depth root.
Proof.
  pose proof (iter_dirs_upto_depth_yields fs max_depth root) as Hy.
  induction 1 as [|p d names name Hr IH Hlt Hit Hname Hdir].
  - apply yielded_path_depth; [|constructor].
    pose proof (yields_covers _ _ Hy) as Hcov. rewrite expanded_start in Hcov.
    apply Forall_cons in Hcov as [[Hx|Hx] _]; [|done].
    by apply elem_of_empty in Hx.
  - apply yielded_path_depth; [|by eapply reachable_child].
    destruct (yields_closed _ _ (p, d) (p // name, (d + 1)%Z) Hy IH)
      as [Hx|Hx]; [|by apply elem_of_empty in Hx|done].
    apply elem_of_children. simpl. repeat split; try done.
    by exists names, name.
Qed.

End Walker_invariants.

(** ** [find_images_meta] *)

Section Search.

Variable fs : filesystem.
Variable max_depth : Z.

#[local] Abbreviation yields := (yields fs max_depth).
#[local] Abbreviation has_pair := (has_pair fs).
#[local] Abbreviation first_hit := (first_hit fs).
#[local] Abbreviation iter_dirs_upto_depth := (iter_dirs_upto_depth fs max_depth).
#[local] Abbreviation traversal := (traversal fs max_depth).
#[local] Abbreviation for_each_dir := (for_each_dir fs max_depth).
#[local] Abbreviation for_each_root := (for_each_root fs max_depth).
#[local] Abbreviation find_images_meta_traced := (find_images_meta_traced fs max_depth).
#[local] Abbreviation find_images_meta := (find_images_meta fs max_depth).
#[local] Abbreviation reachable := (reachable fs max_depth).

Lemma for_each_dir_yields w l fuel :
  yields w l -> length l < fuel -> for_each_dir fuel w = Some (first_hit l).
Proof.
  intros Hy. revert fuel. induction Hy as [w Hres|w [p d] w' l Hres _ IH];
    intros [|fuel] Hlen; simpl in *; try lia.
  - by rewrite Hres.
  - rewrite Hres. fold (has_pair p). destruct (has_pair p); [done|].
    rewrite IH by lia. by destruct (first_hit l).
Qed.

(** The fuel given to the inner loop suffices. *)
Lemma for_each_dir_start r :
  for_each_dir (S (weight fs max_depth (start r))) (start r)
  = Some (first_hit (iter_dirs_upto_depth r)).
Proof.
  destruct (yields_total fs max_depth (start r)) as (l & Hl & Hlen).
  rewrite (yields_det _ _ _ _ _ (iter_dirs_upto_depth_yields fs max_depth r) Hl).
  apply for_each_dir_yields; [done|lia].
Qed.

Lemma first_hit_split l :
  exists pre rest,
    l = pre ++ rest
    /\ Forall (fun e => has_pair e.1 = false) pre
    /\ match rest with
       | [] => first_hit l = (Exhausted, pre)
       | (p, d) :: _ =>
           has_pair p = true
           /\ first_hit l = (Return (p // "images") (p // "meta"), pre ++ [(p, d)])
       end.
Proof.
  induction l as [|[p d] l (pre & rest & -> & Hpre & Hrest)].
  - exists [], []. by repeat split.
  - simpl. destruct (has_pair p) eqn:Hp.
    + exists [], ((p, d) :: pre ++ rest). by repeat split.
    + exists ((p, d) :: pre), rest. split; [done|]. split; [by constructor|].
      destruct rest as [|[q e] rest].
      * by rewrite Hrest.
      * destruct Hrest as [Hq ->]. done.
Qed.

Lemma for_each_root_cons r roots :
  for_each_root (r :: roots) =
  match for_each_dir (S (weight fs max_depth (start r))) (start r) with
  | None => None
  | Some (Return img met, visited) => Some ((Some img, Some met), visited)
  | Some (Exhausted, visited) =>
      match for_each_root roots with
      | Some (res, visited') => Some (res, visited ++ visited')
      | None => None
      end
  end.
Proof. done. Qed.

(** The fuel never runs out: the search returns. *)
Lemma for_each_root_returns roots :
  for_each_root roots = Some (find_images_meta_traced roots).
Proof.
  unfold find_images_meta_traced.
  enough (is_Some (for_each_root roots)) as [x ->] by done.
  induction roots as [|r roots [x IH]]; [done|].
  rewrite for_each_root_cons, for_each_dir_start, IH.
  destruct (first_hit (iter_dirs_upto_depth r)) as [[img met|] v]; [done|].
  by destruct x.
Qed.

Lemma find_images_meta_traced_cons r roots :
  find_images_meta_traced (r :: roots) =
  match first_hit (iter_dirs_upto_depth r) with
  | (Return img met, visited) => ((Some img, Some met), visited)
  | (Exhausted, visited) =>
      ((find_images_meta_traced roots).1,
       visited ++ (find_images_meta_traced roots).2)
  end.
Proof.
  unfold find_images_meta_traced at 1.
  rewrite for_each_root_cons, for_each_dir_start, for_each_root_returns.
  destruct (first_hit (iter_dirs_upto_depth r)) as [[img met|] v]; [done|].
  by destruct (find_images_meta_traced roots).
Qed.

Lemma find_images_meta_traced_split roots :
  exists pre rest,
    traversal roots = pre ++ rest
    /\ Forall (fun e => has_pair e.1 = false) pre
    /\ match rest with
       | [] => find_images_meta_traced roots = ((None, None), pre)
       | (p, d) :: _ =>
           has_pair p = true
           /\ find_images_meta_traced roots
              = ((Some (p // "images"), Some (p // "meta")), pre ++ [(p, d)])
       end.
Proof.
  induction roots as [|r roots (pre' & rest' & Htr & Hpre' & Hrest')].
  - exists [], []. by repeat split.
  - rewrite find_images_meta_traced_cons.
    unfold traversal in *. rewrite bind_cons.
    destruct (first_hit_split (iter_dirs_upto_depth r))
      as (pre & rest & Hl & Hpre & Hrest).
    destruct rest as [|[p d] rest].
    + rewrite app_nil_r in Hl. subst pre. rewrite Hrest.
      exists (iter_dirs_upto_depth r ++ pre'), rest'.
      split; [by rewrite Htr, app_assoc|]. split; [by apply Forall_app|].
      destruct rest' as [|[p d] rest'].
      * by rewrite Hrest'.
      * destruct Hrest' as [Hp ->]. split; [done|]. simpl. by rewrite app_assoc.
    + destruct Hrest as [Hp ->].
      exists pre, ((p, d) :: rest ++ (roots ≫= iter_dirs_upto_depth)).
      split; [by rewrite Hl, <- app_assoc|]. by repeat split.
Qed.

Lemma find_images_meta_none roots :
  Forall (fun e => has_pair e.1 = false) (traversal roots) ->
  find_images_meta roots = (None, None).
Proof.
  intros Hall. unfold find_images_meta.
  destruct (find_images_meta_traced_split roots)
    as (pre & rest & Htr & Hpre & Hrest).
  destruct rest as [|[p d] rest]; [by rewrite Hrest|].
  destruct Hrest as [Hp _]. rewrite Htr in Hall.
  apply Forall_app in Hall as [_ Hall]. apply Forall_cons in Hall as [Hq _].
  simpl in Hq. congruence.
Qed.

(** Within the first root, the match that is returned is one of least
    depth. *)
Lemma find_images_meta_least_depth r roots q e :
  reachable r q e -> has_pair q = true ->
  exists p d,
    reachable r p d /\ (d <= e)%Z /\ has_pair p = true
    /\ find_images_meta (r :: roots) = (Some (p // "images"), Some (p // "meta")).
Proof.
  intros Hq Hpair. apply reachable_yielded in Hq.
  unfold find_images_meta. rewrite find_images_meta_traced_cons.
  destruct (first_hit_split (iter_dirs_upto_depth r))
    as (pre & rest & Hl & Hpre & Hrest).
  pose proof (iter_dirs_upto_depth_sorted fs max_depth r) as Hsort.
  pose proof (yields_reachable fs max_depth r) as Hsound.
  rewrite Hl in Hq, Hsort, Hsound.
  rewrite Forall_forall in Hpre.
  apply elem_of_app in Hq as [Hq|Hq].
  { specialize (Hpre _ Hq). simpl in Hpre. congruence. }
  destruct rest as [|[p d] rest]; [by apply elem_of_nil in Hq|].
  destruct Hrest as [Hp ->]. exists p, d.
  apply Forall_app in Hsound as [_ Hsound].
  apply Forall_cons in Hsound as [Hreach _].
  apply StronglySorted_app_1_r, StronglySorted_cons in Hsort as [Hle _].
  repeat split; try done.
  apply elem_of_cons in Hq as [[= -> ->]|Hq]; [lia|].
  rewrite Forall_forall in Hle. by apply (Hle _ Hq).
Qed.

End Search.

(** ** The search when [is_dir] raises *)

Section Raising_search.

Variable g : Raising.probes.
Variable max_depth : Z.

Lemma append_dirs_listed cur depth names q :
  Raising.append_dirs g cur depth names q
  = q ++ ((fun p => (p, (depth + 1)%Z))
            <$> filter (fun p => is_dir (Raising.plain g) p)
                       (joinpath cur <$> Raising.listed g cur names)).
Proof.
  revert q. induction names as [|name names IH]; intros q; simpl.
  { by rewrite app_nil_r. }
  unfold Raising.path_is_dir.
  destruct (Raising.denied g (cur // name)) as [e|]; simpl.
  { by rewrite app_nil_r. }
  rewrite filter_cons.
  destruct (is_dir (Raising.plain g) (cur // name)) eqn:Hdir.
  - destruct (decide true) as [_|Hn]; [|by destruct Hn].
    rewrite IH, <- app_assoc. done.
  - destruct (decide false) as [[]|_]. apply IH.
Qed.

(** The traversal is the traversal of the file system it gets to see. *)
Lemma expand_visible cur depth q :
  Raising.expand g max_depth cur depth q
  = expand (Raising.visible g) max_depth cur depth q.
Proof.
  unfold Raising.expand, expand. simpl.
  destruct (depth <? max_depth)%Z; [|done].
  destruct (iterdir (Raising.plain g) cur) as [names|e]; [|done].
  apply append_dirs_listed.
Qed.

Lemma resume_visible w :
  Raising.resume g max_depth w = resume (Raising.visible g) max_depth w.
Proof.
  unfold Raising.resume, resume, Raising.expanded, expanded.
  destruct (pending w) as [[cur depth]|]; [|done].
  by rewrite expand_visible.
Qed.

Lemma raising_for_each_dir_yields w l fuel :
  yields (Raising.visible g) max_depth w l -> length l < fuel ->
  Raising.for_each_dir g max_depth fuel w = Some (Raising.first_hit g l).
Proof.
  intros Hy. revert fuel. induction Hy as [w Hres|w [p d] w' l Hres _ IH];
    intros [|fuel] Hlen; simpl in *; try lia.
  - by rewrite resume_visible, Hres.
  - rewrite resume_visible, Hres.
    destruct (Raising.has_pair g p) as [[]|e]; [done| |done].
    rewrite IH by lia. by destruct (Raising.first_hit g l).
Qed.

Lemma raising_for_each_dir_start r :
  Raising.for_each_dir g max_depth
    (S (weight (Raising.visible g) max_depth (start r))) (start r)
  = Some (Raising.first_hit g
            (iter_dirs_upto_depth (Raising.visible g) max_depth r)).
Proof.
  destruct (yields_total (Raising.visible g) max_depth (start r))
    as (l & Hl & Hlen).
  rewrite (yields_det _ _ _ _ _
             (iter_dirs_upto_depth_yields (Raising.visible g) max_depth r) Hl).
  apply raising_for_each_dir_yields; [done|lia].
Qed.

Lemma raising_for_each_root_cons r roots :
  Raising.for_each_root g max_depth (r :: roots) =
  match Raising.first_hit g
          (iter_dirs_upto_depth (Raising.visible g) max_depth r) with
  | (Ok (Return img met), visited) => Some (Ok (Some img, Some met), visited)
  | (Ok Exhausted, visited) =>
      match Raising.for_each_root g max_depth roots with
      | Some (res, visited') => Some (res, visited ++ visited')
      | None => None
      end
  | (Raise e, visited) => Some (Raise e, visited)
  end.
Proof.
  change (Raising.for_each_root g max_depth (r :: roots))
    with (match Raising.for_each_dir g max_depth
                  (S (weight (Raising.visible g) max_depth (start r))) (start r)
          with
          | None => None
          | Some (Ok (Return img met), visited) =>
              Some (Ok (Some img, Some met), visited)
          | Some (Ok Exhausted, visited) =>
              match Raising.for_each_root g max_depth roots with
              | Some (res, visited') => Some (res, visited ++ visited')
              | None => None
              end
          | Some (Raise e, visited) => Some (Raise e, visited)
          end).
  rewrite raising_for_each_dir_start.
  by destruct (Raising.first_hit g _) as [[[img met|]|e] v].
Qed.

(** The fuel never runs out: the search returns or raises. *)
Lemma raising_for_each_root_returns roots :
  Raising.for_each_root g max_depth roots
  = Some (Raising.find_images_meta_traced g max_depth roots).
Proof.
  unfold Raising.find_images_meta_traced.
  enough (is_Some (Raising.for_each_root g max_depth roots)) as [x ->] by done.
  induction roots as [|r roots [x IH]]; [done|].
  rewrite raising_for_each_root_cons, IH.
  destruct (Raising.first_hit g _) as [[[img met|]|e] v]; try done.
  by destruct x.
Qed.

Lemma raising_traced_cons r roots :
  Raising.find_images_meta_traced g max_depth (r :: roots) =
  match Raising.first_hit g
          (iter_dirs_upto_depth (Raising.visible g) max_depth r) with
  | (Ok (Return img met), visited) => (Ok (Some img, Some met), visited)
  | (Ok Exhausted, visited) =>
      ((Raising.find_images_meta_traced g max_depth roots).1,
       visited ++ (Raising.find_images_meta_traced g max_depth roots).2)
  | (Raise e, visited) => (Raise e, visited)
  end.
Proof.
  unfold Raising.find_images_meta_traced at 1.
  rewrite raising_for_each_root_cons, raising_for_each_root_returns.
  destruct (Raising.first_hit g _) as [[[img met|]|e] v]; try done.
  by destruct (Raising.find_images_meta_traced g max_depth roots).
Qed.

(** How the scan of a list ends. *)
Lemma raising_first_hit_split l :
  exists pre rest,
    l = pre ++ rest
    /\ Forall (fun e => Raising.has_pair g e.1 = Ok false) pre
    /\ match rest with
       | [] => Raising.first_hit g l = (Ok Exhausted, pre)
       | (p, d) :: _ =>
           (Raising.has_pair g p = Ok true
            /\ Raising.first_hit g l
               = (Ok (Return (p // "images") (p // "meta")), pre ++ [(p, d)]))
           \/ (exists e, Raising.has_pair g p = Raise e
                 /\ Raising.first_hit g l = (Raise e, pre ++ [(p, d)]))
       end.
Proof.
  induction l as [|[p d] l (pre & rest & -> & Hpre & Hrest)].
  - exists [], []. by repeat split.
  - simpl. destruct (Raising.has_pair g p) as [[]|e] eqn:Hp.
    + exists [], ((p, d) :: pre ++ rest). repeat split; [done|]. by left.
    + exists ((p, d) :: pre), rest. split; [done|]. split; [by constructor|].
      destruct rest as [|[q k] rest].
      * by rewrite Hrest.
      * destruct Hrest as [[Hq ->]|(e & Hq & ->)]; [by left|right; by exists e].
    + exists [], ((p, d) :: pre ++ rest). repeat split; [done|].
      right. by exists e.
Qed.

Lemma raising_traced_split roots :
  exists pre rest,
    traversal (Raising.visible g) max_depth roots = pre ++ rest
    /\ Forall (fun e => Raising.has_pair g e.1 = Ok false) pre
    /\ match rest with
       | [] =>
           Raising.find_images_meta_traced g max_depth roots
           = (Ok (None, None), pre)
       | (p, d) :: _ =>
           (Raising.has_pair g p = Ok true
            /\ Raising.find_images_meta_traced g max_depth roots
               = (Ok (Some (p // "images"), Some (p // "meta")), pre ++ [(p, d)]))
           \/ (exists e, Raising.has_pair g p = Raise e
                 /\ Raising.find_images_meta_traced g max_depth roots
                    = (Raise e, pre ++ [(p, d)]))
       end.
Proof.
  induction roots as [|r roots (pre' & rest' & Htr & Hpre' & Hrest')].
  - exists [], []. by repeat split.
  - rewrite raising_traced_cons. unfold traversal in *. rewrite bind_cons.
    destruct (raising_first_hit_split
                (iter_dirs_upto_depth (Raising.visible g) max_depth r))
      as (pre & rest & Hl & Hpre & Hrest).
    destruct rest as [|[p d] rest].
    + rewrite app_nil_r in Hl. subst pre. rewrite Hrest.
      exists (iter_dirs_upto_depth (Raising.visible g) max_depth r ++ pre'), rest'.
      split; [by rewrite Htr, app_assoc|]. split; [by apply Forall_app|].
      destruct rest' as [|[p d] rest'].
      * by rewrite Hrest'.
      * destruct Hrest' as [[Hp ->]|(e & Hp & ->)]; simpl;
          rewrite app_assoc; [by left|right; by exists e].
    + exists pre,
        ((p, d) :: rest
           ++ (roots ≫= iter_dirs_upto_depth (Raising.visible g) max_depth)).
      split; [by rewrite Hl, <- app_assoc|]. split; [done|].
      destruct Hrest as [[Hp ->]|(e & Hp & ->)]; [by left|right; by exists e].
Qed.

(** *** When [is_dir] raises nowhere *)

Hypothesis answers : forall p, Raising.denied g p = None.

Lemma listed_all cur names : Raising.listed g cur names = names.
Proof.
  induction names as [|name names IH]; simpl; [done|].
  by rewrite answers, IH.
Qed.

Lemma expand_plain cur depth q :
  expand (Raising.visible g) max_depth cur depth q
  = expand (Raising.plain g) max_depth cur depth q.
Proof.
  unfold expand. simpl. destruct (depth <? max_depth)%Z; [|done].
  destruct (iterdir (Raising.plain g) cur) as [names|e]; [|done].
  by rewrite listed_all.
Qed.

Lemma resume_plain w :
  resume (Raising.visible g) max_depth w = resume (Raising.plain g) max_depth w.
Proof.
  unfold resume, expanded. destruct (pending w) as [[cur depth]|]; [|done].
  by rewrite expand_plain.
Qed.

Lemma yields_plain w l :
  yields (Raising.visible g) max_depth w l ->
  yields (Raising.plain g) max_depth w l.
Proof.
  induction 1 as [w Hres|w e w' l Hres _ IH].
  - apply yields_stop. by rewrite <- resume_plain.
  - eapply yields_step; [|exact IH]. by rewrite <- resume_plain.
Qed.

Lemma iter_dirs_upto_depth_plain r :
  iter_dirs_upto_depth (Raising.visible g) max_depth r
  = iter_dirs_upto_depth (Raising.plain g) max_depth r.
Proof.
  eapply yields_det; [|apply iter_dirs_upto_depth_yields].
  apply yields_plain, iter_dirs_upto_depth_yields.
Qed.

Lemma has_pair_plain p :
  Raising.has_pair g p = Ok (has_pair (Raising.plain g) p).
Proof.
  unfold Raising.has_pair, Raising.path_is_dir, has_pair.
  rewrite !answers. by destruct (is_dir (Raising.plain g) (p // "images")).
Qed.

Lemma first_hit_plain l :
  Raising.first_hit g l
  = (Ok (first_hit (Raising.plain g) l).1, (first_hit (Raising.plain g) l).2).
Proof.
  induction l as [|[p d] l IH]; [done|]. simpl.
  rewrite has_pair_plain. destruct (has_pair (Raising.plain g) p); [done|].
  rewrite IH. by destruct (first_hit (Raising.plain g) l).
Qed.

Lemma raising_traced_plain roots :
  Raising.find_images_meta_traced g max_depth roots
  = (Ok (find_images_meta_traced (Raising.plain g) max_depth roots).1,
     (find_images_meta_traced (Raising.plain g) max_depth roots).2).
Proof.
  induction roots as [|r roots IH]; [done|].
  rewrite raising_traced_cons, find_images_meta_traced_cons.
  rewrite iter_dirs_upto_depth_plain, first_hit_plain, IH.
  by destruct (first_hit (Raising.plain g) _) as [[img met|] v].
Qed.

End Raising_search.

Section Raising_listing.

Variable g : Raising.probes.

(** The names after the first one whose test raises are not tested. *)
Lemma listed_until cur names1 name names2 e :
  Forall (fun n => Raising.denied g (cur // n) = None) names1 ->
  Raising.denied g (cur // name) = Some e ->
  Raising.listed g cur (names1 ++ name :: names2) = names1.
Proof.
  intros Hall Hden. induction Hall as [|n names1 Hn _ IH]; simpl.
  - by rewrite Hden.
  - by rewrite Hn, IH.
Qed.

End Raising_listing.

(** *** A listing that fails is a listing of nothing *)

Section Raising_hushed.

Variable g : Raising.probes.
Variable max_depth : Z.

Lemma expand_hushed cur depth q :
  expand (Raising.visible (Raising.hushed g)) max_depth cur depth q
  = expand (Raising.visible g) max_depth cur depth q.
Proof.
  unfold expand. simpl. destruct (depth <? max_depth)%Z; [|done].
  destruct (iterdir (Raising.plain g) cur) as [names|e]; [done|].
  simpl. apply app_nil_r.
Qed.

Lemma resume_hushed w :
  resume (Raising.visible (Raising.hushed g)) max_depth w
  = resume (Raising.visible g) max_depth w.
Proof.
  unfold resume, expanded. destruct (pending w) as [[cur depth]|]; [|done].
  by rewrite expand_hushed.
Qed.

Lemma yields_hushed w l :
  yields (Raising.visible (Raising.hushed g)) max_depth w l ->
  yields (Raising.visible g) max_depth w l.
Proof.
  induction 1 as [w Hres|w e w' l Hres _ IH].
  - apply yields_stop. by rewrite <- resume_hushed.
  - eapply yields_step; [|exact IH]. by rewrite <- resume_hushed.
Qed.

Lemma iter_dirs_upto_depth_hushed r :
  iter_dirs_upto_depth (Raising.visible (Raising.hushed g)) max_depth r
  = iter_dirs_upto_depth (Raising.visible g) max_depth r.
Proof.
  eapply yields_det; [|apply iter_dirs_upto_depth_yields].
  apply yields_hushed, iter_dirs_upto_depth_yields.
Qed.

Lemma first_hit_hushed l :
  Raising.first_hit (Raising.hushed g) l = Raising.first_hit g l.
Proof.
  induction l as [|[p d] l IH]; [done|]. simpl.
  change (Raising.has_pair (Raising.hushed g) p) with (Raising.has_pair g p).
  by rewrite IH.
Qed.

Lemma raising_traced_hushed roots :
  Raising.find_images_meta_traced (Raising.hushed g) max_depth roots
  = Raising.find_images_meta_traced g max_depth roots.
Proof.
  induction roots as [|r roots IH]; [done|].
  by rewrite !raising_traced_cons, iter_dirs_upto_depth_hushed,
    first_hit_hushed, IH.
Qed.

End Raising_hushed.

(** ** Archives: classification *)

Section Archives.

Import Food101.

Variable fs : filesystem.

Lemma lower_ascii_idempotent (c : ascii) :
  lower_ascii (lower_ascii c) = lower_ascii c.
Proof. destruct c as [[] [] [] [] [] [] [] []]; reflexivity. Qed.

Lemma lower_idempotent (s : string) : lower (lower s) = lower s.
Proof.
  induction s as [|c s IH]; simpl; [done|].
  by rewrite lower_ascii_idempotent, IH.
Qed.

Lemma startswith_cons (c : ascii) (pre s : string) :
  startswith s (String c pre) = true ->
  exists s', s = String c s' /\ startswith s' pre = true.
Proof.
  unfold startswith. destruct s as [|b s]; simpl; [done|].
  destruct (ascii_dec c b) as [->|]; [|done]. eauto.
Qed.

(** The three prefixes exclude one another. *)
Lemma prefixes_exclusive (low : string) :
  (startswith low "images" = true -> startswith low "meta" = false
                                     /\ startswith low "food-101" = false)
  /\ (startswith low "meta" = true -> startswith low "food-101" = false).
Proof.
  split.
  - intros (s' & -> & _)%startswith_cons. by split.
  - intros (s' & -> & _)%startswith_cons. done.
Qed.

(** One step of the scan keeps the file of a class and leaves the other
    classes alone. *)
Lemma classify_class acc p :
  classify fs acc p =
  if is_file fs p then
    match class_of (name_of p) with
    | Some Primary => Archives (Some p) (meta_archive acc) (food101_archive acc)
    | Some Secondary => Archives (images_archive acc) (Some p) (food101_archive acc)
    | Some Combined => Archives (images_archive acc) (meta_archive acc) (Some p)
    | None => acc
    end
  else acc.
Proof.
  unfold classify, class_of. destruct (is_file fs p); [|done].
  cbv zeta. change (negb true) with false. cbv iota.
  generalize (lower (name_of p)). intros low.
  destruct (prefixes_exclusive low) as [Him Hme].
  destruct (endswith_any low exts).
  - rewrite !andb_true_r.
    destruct (startswith low "images") eqn:H1.
    + destruct (Him eq_refl) as [_ ->]. done.
    + destruct (startswith low "meta") eqn:H2.
      * by rewrite (Hme eq_refl).
      * by destruct (startswith low "food-101").
  - by rewrite !andb_false_r.
Qed.

Lemma last_of_class_cons c p files :
  last_of_class c (p :: files) =
  newer (last_of_class c files)
        (if decide (class_of (name_of p) = Some c) then Some p else None).
Proof.
  unfold last_of_class. rewrite filter_cons.
  destruct (decide (class_of (name_of p) = Some c)); [rewrite last_cons|];
    by destruct (last (filter (fun p => class_of (name_of p) = Some c) files)).
Qed.

Lemma fold_classify files acc :
  fold_left (classify fs) files acc =
  let kept := filter (fun p => is_file fs p) files in
  Archives (newer (last_of_class Primary kept) (images_archive acc))
           (newer (last_of_class Secondary kept) (meta_archive acc))
           (newer (last_of_class Combined kept) (food101_archive acc)).
Proof.
  revert acc. induction files as [|p files IH]; intros acc.
  - by destruct acc.
  - simpl fold_left. rewrite IH, classify_class, filter_cons. simpl.
    destruct (is_file fs p) eqn:Hfile; simpl.
    + rewrite !last_of_class_cons.
      destruct (class_of (name_of p)) as [[]|]; simpl;
        repeat case_decide; try done;
        by repeat match goal with
                  | |- context [last_of_class ?c ?l] =>
                      destruct (last_of_class c l)
                  end.
    + done.
Qed.

Lemma fold_roots (f : archives -> path -> archives) (g : path -> list path)
  roots acc :
  fold_left (fun acc root => fold_left f (g root) acc) roots acc
  = fold_left f (roots ≫= g) acc.
Proof.
  revert acc. induction roots as [|r roots IH]; intros acc; [done|].
  rewrite bind_cons, fold_left_app. simpl. apply IH.
Qed.

Lemma scan_archives_last candidates :
  scan_archives fs candidates =
  Archives (last_of_class Primary (scanned fs candidates))
           (last_of_class Secondary (scanned fs candidates))
           (last_of_class Combined (scanned fs candidates)).
Proof.
  unfold scan_archives, scanned.
  rewrite (fold_roots (classify fs) (fun root => joinpath root <$> glob_star fs root)).
  rewrite fold_classify. simpl.
  by repeat match goal with
            | |- context [last_of_class ?c ?l] => destruct (last_of_class c l)
            end.
Qed.

End Archives.

(** ** Archives: the case of the letters *)

Section Letter_case.

Import Food101.

Lemma lower_rev_app (s acc : string) :
  lower (String.rev_app s acc) = String.rev_app (lower s) (lower acc).
Proof.
  revert acc. induction s as [|c s IH]; intros acc; simpl; [done|].
  by rewrite IH.
Qed.

Lemma lower_rev (s : string) : lower (String.rev s) = String.rev (lower s).
Proof. apply lower_rev_app. Qed.

Lemma prefix_lower (p s : string) :
  String.prefix p s = true -> String.prefix (lower p) (lower s) = true.
Proof.
  revert s. induction p as [|a p IH]; intros [|b s]; simpl; try done.
  destruct (ascii_dec a b) as [->|]; [|done]. intros Hp.
  destruct (ascii_dec (lower_ascii b) (lower_ascii b)); [auto|done].
Qed.

Lemma startswith_lower (s pre : string) :
  startswith s pre = true -> startswith (lower s) (lower pre) = true.
Proof. apply prefix_lower. Qed.

Lemma endswith_lower (s suf : string) :
  endswith s suf = true -> endswith (lower s) (lower suf) = true.
Proof.
  unfold endswith. intros Hs. rewrite <- !lower_rev. by apply prefix_lower.
Qed.

Lemma endswith_any_lower (s : string) :
  endswith_any s exts = true -> endswith_any (lower s) exts = true.
Proof.
  unfold endswith_any. intros (suf & Hin & Hs)%existsb_exists.
  apply existsb_exists. exists suf. split; [done|].
  apply endswith_lower in Hs.
  replace (lower suf) with suf in Hs; [done|].
  unfold exts in Hin. simpl in Hin.
  by destruct Hin as [<-|[<-|[<-|[<-|[]]]]].
Qed.

Lemma capital_of_lower (small cap : ascii) :
  capital_of small cap = true ->
  lower_ascii cap = small /\ lower_ascii small = small.
Proof.
  unfold capital_of, lower_ascii. cbv zeta.
  intros [[Hlo Hhi]%andb_prop Heq%Nat.eqb_eq]%andb_prop.
  apply Nat.leb_le in Hlo, Hhi. split.
  - rewrite (proj2 (Nat.leb_le _ _) Hlo), (proj2 (Nat.leb_le _ _) Hhi). simpl.
    rewrite <- Heq. apply ascii_nat_embedding.
  - rewrite Heq.
    destruct (Nat.leb_spec (nat_of_ascii cap + 32) 90) as [Hle|_]; [lia|].
    by rewrite andb_false_r.
Qed.

Lemma same_letter_lower (c1 c2 : ascii) :
  same_letter c1 c2 = true -> lower_ascii c1 = lower_ascii c2.
Proof.
  unfold same_letter.
  intros [[Heq|Hcap]%orb_prop|Hcap]%orb_prop.
  - by apply bool_decide_eq_true_1 in Heq as ->.
  - apply capital_of_lower in Hcap as [H2 H1]. congruence.
  - apply capital_of_lower in Hcap as [H1 H2]. congruence.
Qed.

(** Names that differ by the case of letters only have the same lower-cased
    form. *)
Lemma same_modulo_case_lower (s1 s2 : string) :
  same_modulo_case s1 s2 = true -> lower s1 = lower s2.
Proof.
  revert s2. induction s1 as [|c1 s1 IH]; intros [|c2 s2]; simpl; try done.
  intros [Hc Hs]%andb_prop. by rewrite (same_letter_lower _ _ Hc), (IH _ Hs).
Qed.

Lemma same_letter_lower_ascii (c : ascii) : same_letter c (lower_ascii c) = true.
Proof. destruct c as [[] [] [] [] [] [] [] []]; by vm_compute. Qed.

Lemma same_modulo_case_lower_self (s : string) :
  same_modulo_case s (lower s) = true.
Proof.
  induction s as [|c s IH]; simpl; [done|].
  by rewrite same_letter_lower_ascii, IH.
Qed.

Lemma prefix_of_lower (c : archive_class) : lower (prefix_of c) = prefix_of c.
Proof. by destruct c. Qed.

(** The class of a lower-cased name, by prefix and suffix. *)
Lemma class_of_low (name : string) (c : archive_class) :
  class_of name = Some c
  <-> startswith (lower name) (prefix_of c) = true
      /\ endswith_any (lower name) exts = true.
Proof.
  unfold class_of. cbv zeta.
  destruct (prefixes_exclusive (lower name)) as [Him Hme].
  destruct (endswith_any (lower name) exts); [|split; [done|by intros [_ ?]]].
  destruct (startswith (lower name) "food-101") eqn:Hf.
  { split.
    - intros [= <-]. by split.
    - intros [Hp _]. destruct c; simpl in Hp; [done| |].
      + destruct (Him Hp) as [_ ?]. congruence.
      + specialize (Hme Hp). congruence. }
  destruct (startswith (lower name) "images") eqn:Hi.
  { split.
    - intros [= <-]. by split.
    - intros [Hp _]. destruct c; simpl in Hp; [congruence|done|].
      destruct (Him eq_refl) as [? _]. congruence. }
  destruct (startswith (lower name) "meta") eqn:Hm.
  { split.
    - intros [= <-]. by split.
    - intros [Hp _]. destruct c; simpl in Hp; [congruence|congruence|done]. }
  split; [done|]. intros [Hp _]. destruct c; simpl in Hp; congruence.
Qed.

End Letter_case.

(** ** Programs: how a sequence ends *)

(** Exposes the trace, the state and the outcome of a program built from
    the primitives. *)
Ltac unfold_prog :=
  unfold mbind, prog_mbind, prog_bind, probe, print, eprint, emit, call,
    call_value, sys_exit, raise, try_except, mret, prog_mret, prog_ret.

Tactic Notation "unfold_prog" "in" hyp(H) :=
  unfold mbind, prog_mbind, prog_bind, probe, print, eprint, emit, call,
    call_value, sys_exit, raise, try_except, mret, prog_mret, prog_ret in H.

Section Programs.

Context {S : Type}.

Lemma bind_inv {A B : Type} (m : prog S A) (k : A -> prog S B) s tr s' o :
  (m ≫= k) s = (tr, s', o) ->
  (exists tr1 s1 a tr2,
      m s = (tr1, s1, Value a) /\ k a s1 = (tr2, s', o) /\ tr = tr1 ++ tr2)
  \/ (exists c, m s = (tr, s', SysExit c) /\ o = SysExit c)
  \/ (exists e, m s = (tr, s', Uncaught e) /\ o = Uncaught e).
Proof.
  unfold_prog.
  destruct (m s) as [[tr1 s1] [a|c|e]].
  - destruct (k a s1) as [[tr2 s2] o2] eqn:Hk. intros [= <- <- <-].
    left. by exists tr1, s1, a, tr2.
  - intros [= <- <- <-]. right. left. by exists c.
  - intros [= <- <- <-]. right. right. by exists e.
Qed.

Lemma bind_value {A B : Type} (m : prog S A) (k : A -> prog S B) s tr1 s1 a :
  m s = (tr1, s1, Value a) ->
  (m ≫= k) s = (let '(tr2, s2, o) := k a s1 in (tr1 ++ tr2, s2, o)).
Proof. unfold_prog. by intros ->. Qed.

Lemma bind_exit {A B : Type} (m : prog S A) (k : A -> prog S B) s tr1 s1 c :
  m s = (tr1, s1, SysExit c) -> (m ≫= k) s = (tr1, s1, SysExit c).
Proof. unfold_prog. by intros ->. Qed.

Lemma bind_uncaught {A B : Type} (m : prog S A) (k : A -> prog S B) s tr1 s1 e :
  m s = (tr1, s1, Uncaught e) -> (m ≫= k) s = (tr1, s1, Uncaught e).
Proof. unfold_prog. by intros ->. Qed.

End Programs.

(** ** [download_food101.py]: extraction *)

Section Unpacking.

Import Food101.

Variable E : externals.

Lemma extractions_app tr1 tr2 :
  extractions (tr1 ++ tr2) = extractions tr1 ++ extractions tr2.
Proof. apply omap_app. Qed.

Lemma extract_any_outcome a d fs tr fs' o :
  extract_any E a d fs = (tr, fs', o) ->
  match o with
  | Value _ => extractions tr = [(a, d)]
  | SysExit _ => False
  | Uncaught _ => extractions tr = [] \/ extractions tr = [(a, d)]
  end.
Proof.
  unfold extract_any. unfold_prog.
  destruct (mkdir_parents E d fs) as [fs1|e]; [|intros [= <- <- <-]; by left].
  destruct (endswith_any _ _).
  - destruct (tar_extractall E a d fs1); intros [= <- <- <-]; simpl; auto.
  - destruct (endswith _ _).
    + destruct (zip_extractall E a d fs1); intros [= <- <- <-]; simpl; auto.
    + intros [= <- <- <-]. by left.
Qed.

(** Announcing and extracting one archive that was found, or nothing. *)
Lemma extract_optional_outcome (label : string) (found : option path) d fs tr fs' o :
  match found with
  | Some a => print (label +:+ name_of a) ;; extract_any E a d
  | None => mret tt
  end fs = (tr, fs', o) ->
  match o with
  | Value _ => extractions tr = (fun a => (a, d)) <$> option_list found
  | SysExit _ => False
  | Uncaught _ =>
      extractions tr `prefix_of` ((fun a => (a, d)) <$> option_list found)
  end.
Proof.
  destruct found as [a|]; simpl.
  - intros Hrun. apply bind_inv in Hrun
      as [(tr1 & s1 & [] & tr2 & [= <- <-] & Hx & ->)|[(c & [=] & _)|(e & [=] & _)]].
    apply extract_any_outcome in Hx. rewrite extractions_app. simpl.
    destruct o; [done|done|]. by destruct Hx as [->| ->]; [apply prefix_nil|].
  - by intros [= <- <- <-].
Qed.

Lemma extract_found_outcome found out_dir fs tr fs' o :
  extract_found E found out_dir fs = (tr, fs', o) ->
  match o with
  | Value r =>
      extractions tr = (fun a => (a, out_dir)) <$> policy found
      /\ r = find_images_meta fs' 2 [out_dir]
  | SysExit _ => False
  | Uncaught _ =>
      extractions tr `prefix_of` ((fun a => (a, out_dir)) <$> policy found)
  end.
Proof.
  unfold extract_found, policy. destruct (food101_archive found) as [a|].
  - intros Hrun. apply bind_inv in Hrun
      as [(tr1 & s1 & [] & tr2 & [= <- <-] & Hrun & ->)|[(c & [=] & _)|(e & [=] & _)]].
    apply bind_inv in Hrun
      as [(tr1 & s1 & [] & tr2' & Hx & [= <- <- <-] & ->)
         |[(c & Hx & ->)|(e & Hx & ->)]];
      apply extract_any_outcome in Hx; simpl;
      rewrite ?extractions_app, ?app_nil_r; simpl; try done.
    by destruct Hx as [->| ->]; [apply prefix_nil|].
  - intros Hrun. rewrite fmap_app.
    apply bind_inv in Hrun
      as [(tr1 & s1 & [] & tr2 & Hi & Hrun & ->)|[(c & Hi & ->)|(e & Hi & ->)]];
      apply (extract_optional_outcome "  • Extracting images archive: ") in Hi;
      [|done|by apply prefix_app_r].
    rewrite extractions_app, Hi.
    apply bind_inv in Hrun
      as [(tr1' & s1' & [] & tr2' & Hm & [= <- <- <-] & ->)
         |[(c & Hm & ->)|(e & Hm & ->)]];
      apply (extract_optional_outcome "  • Extracting meta archive: ") in Hm;
      [|done|by apply prefix_app].
    by rewrite extractions_app, app_nil_r, Hm.
Qed.

End Unpacking.

(** ** [download_food101.py]: the stages of [main] *)

Section Stages.

Import Food101.

Variable E : externals.

Lemma both_Some r images_dir meta_dir :
  both r = Some (images_dir, meta_dir) <-> r = (Some images_dir, Some meta_dir).
Proof. destruct r as [[i|] [m|]]; simpl; split; congruence. Qed.

Lemma handle_existing_run force out_dir fs :
  handle_existing E force out_dir fs =
  if path_exists fs out_dir then
    if force then
      match rmtree E out_dir fs with
      | Ok fs' => ([Stdout (msg_force out_dir); Rmtree out_dir], fs', Value tt)
      | Raise e => ([Stdout (msg_force out_dir); Rmtree out_dir], fs, Uncaught e)
      end
    else ([Stdout (msg_skip out_dir); Stdout msg_skip_hint], fs, SysExit 0)
  else ([], fs, Value tt).
Proof.
  unfold handle_existing. unfold_prog.
  destruct (path_exists fs out_dir); [|done].
  destruct force; [|done]. by destruct (rmtree E out_dir fs).
Qed.

Lemma prepare_run a fs :
  prepare E a fs =
  if kagglehub_available E then
    match dataset_download E DATASET_REF fs with
    | Raise e =>
        ([Stdout banner_download; DatasetDownload DATASET_REF], fs, Uncaught e)
    | Ok (None, fs1) =>
        ([Stdout banner_download; DatasetDownload DATASET_REF; Stderr msg_no_path],
         fs1, SysExit 2)
    | Ok (Some cache_path, fs1) =>
        let cache_dir := resolve fs1 cache_path in
        let out_dir := resolve fs1 (expanduser E (out a)) in
        let head := [Stdout banner_download; DatasetDownload DATASET_REF;
                     Stdout ("[2/6] KaggleHub cache at: " +:+ show_path cache_dir)] in
        match handle_existing E (force a) out_dir fs1 with
        | (tr, fs2, Value _) =>
            match mkdir_parents E out_dir fs2 with
            | Ok fs3 =>
                (head ++ tr ++ [Mkdir out_dir], fs3, Value (cache_dir, out_dir))
            | Raise e => (head ++ tr ++ [Mkdir out_dir], fs2, Uncaught e)
            end
        | (tr, fs2, SysExit c) => (head ++ tr, fs2, SysExit c)
        | (tr, fs2, Uncaught e) => (head ++ tr, fs2, Uncaught e)
        end
    end
  else ([Stderr msg_no_kagglehub], fs, SysExit 1).
Proof.
  unfold prepare. unfold_prog.
  destruct (kagglehub_available E); [|done].
  destruct (dataset_download E DATASET_REF fs) as [[[cp|] fs1]|e]; try done.
  destruct (handle_existing E (force a) _ fs1) as [[tr fs2] [[]|c|e]]; try done.
  destruct (mkdir_parents E _ fs2); by rewrite ?app_nil_r.
Qed.

Lemma locate_run cache_dir out_dir fs :
  locate E cache_dir out_dir fs =
  let candidates := candidate_roots fs cache_dir in
  match both (find_images_meta fs 3 candidates) with
  | Some (images_dir, meta_dir) =>
      ([Stdout ("[3/6] Found images/meta under: " +:+ show_path (parent images_dir))],
       fs, Value (images_dir, meta_dir))
  | None =>
      match extract_found E (scan_archives fs candidates) out_dir fs with
      | (tr, fs', Value r') =>
          match both r' with
          | Some dirs => (Stdout banner_search :: tr, fs', Value dirs)
          | None =>
              (Stdout banner_search :: tr ++ [Stderr msg_not_located], fs', SysExit 3)
          end
      | (tr, fs', SysExit c) => (Stdout banner_search :: tr, fs', SysExit c)
      | (tr, fs', Uncaught e) => (Stdout banner_search :: tr, fs', Uncaught e)
      end
  end.
Proof.
  unfold locate. unfold_prog. cbv zeta.
  destruct (both _) as [[i m]|]; [done|].
  destruct (extract_found E _ out_dir fs) as [[tr fs'] [r'|c|e]]; try done.
  simpl. destruct (both r'); simpl; by rewrite ?app_nil_r.
Qed.

Lemma locate_exit cache_dir out_dir fs tr fs' code :
  locate E cache_dir out_dir fs = (tr, fs', SysExit code) ->
  code = 3%Z
  /\ last tr = Some (Stderr msg_not_located)
  /\ both (find_images_meta fs 3 (candidate_roots fs cache_dir)) = None
  /\ both (find_images_meta fs' 2 [out_dir]) = None.
Proof.
  rewrite locate_run. cbv zeta.
  destruct (both (find_images_meta fs 3 _)) as [[i m]|] eqn:Hfirst; [done|].
  destruct (extract_found E _ out_dir fs) as [[tr0 fs0] [r'|c|e]] eqn:Hx;
    apply extract_found_outcome in Hx; [|done|done].
  destruct Hx as [_ ->].
  destruct (both (find_images_meta fs0 2 [out_dir])) eqn:Hboth; [done|].
  intros [= <- <- <-]. repeat split; try done.
  by rewrite app_comm_cons, last_snoc.
Qed.

Lemma place_run step label src target fs :
  place E step label src target fs =
  if bool_decide (resolve fs src ≠ resolve fs target) then
    match iterdir fs src with
    | Raise e =>
        ([Stdout (msg_copying step label target); Copytree src target], fs,
         Uncaught e)
    | Ok _ =>
        if path_exists fs target then
          ([Stdout (msg_copying step label target); Copytree src target], fs,
           Uncaught FileExistsError)
        else
          match copy_tree E src target fs with
          | Ok fs' =>
              ([Stdout (msg_copying step label target); Copytree src target],
               fs', Value tt)
          | Raise e =>
              ([Stdout (msg_copying step label target); Copytree src target],
               fs, Uncaught e)
          end
    end
  else ([Stdout (msg_already_at step label target)], fs, Value tt).
Proof.
  unfold place, shutil_copytree. unfold_prog. simpl.
  destruct (bool_decide _); [|done]. simpl.
  destruct (iterdir fs src) as [names|e]; [|done].
  destruct (path_exists fs target); [done|]. by destruct (copy_tree E src target fs).
Qed.

Lemma place_no_exit step label src target fs tr fs' c :
  place E step label src target fs <> (tr, fs', SysExit c).
Proof.
  rewrite place_run. repeat case_match; congruence.
Qed.

Lemma count_classes_no_exit final_images fs tr fs' c :
  count_classes final_images fs <> (tr, fs', SysExit c).
Proof. unfold count_classes. repeat case_match; congruence. Qed.

Lemma count_classes_silent final_images fs tr fs' o :
  count_classes final_images fs = (tr, fs', o) -> tr = [] /\ fs' = fs.
Proof. unfold count_classes. repeat case_match; by intros [= <- <- <-]. Qed.

Lemma finalize_no_exit out_dir images_dir meta_dir fs tr fs' c :
  finalize E out_dir images_dir meta_dir fs <> (tr, fs', SysExit c).
Proof.
  unfold finalize. intros Hrun.
  apply bind_inv in Hrun as [(tr1 & s1 & [] & tr2 & _ & Hrun & ->)
                            |[(c' & Hp & _)|(e & _ & [=])]];
    [|by apply place_no_exit in Hp].
  apply bind_inv in Hrun as [(tr1' & s1' & [] & tr2' & _ & Hrun & ->)
                            |[(c' & Hp & _)|(e & _ & [=])]];
    [|by apply place_no_exit in Hp].
  apply bind_inv in Hrun as [(tr3 & s3 & n & tr4 & _ & Hrun & ->)
                            |[(c' & Hp & _)|(e & _ & [=])]];
    [|by apply count_classes_no_exit in Hp].
  unfold_prog in Hrun. simpl in Hrun.
  congruence.
Qed.

Lemma main_run a fs :
  main E a fs =
  match prepare E a fs with
  | (tr1, fs1, Value (cache_dir, out_dir)) =>
      match locate E cache_dir out_dir fs1 with
      | (tr2, fs2, Value (images_dir, meta_dir)) =>
          let '(tr3, fs3, o) := finalize E out_dir images_dir meta_dir fs2 in
          (tr1 ++ tr2 ++ tr3, fs3, o)
      | (tr2, fs2, SysExit c) => (tr1 ++ tr2, fs2, SysExit c)
      | (tr2, fs2, Uncaught e) => (tr1 ++ tr2, fs2, Uncaught e)
      end
  | (tr1, fs1, SysExit c) => (tr1, fs1, SysExit c)
  | (tr1, fs1, Uncaught e) => (tr1, fs1, Uncaught e)
  end.
Proof.
  unfold main. unfold_prog.
  destruct (prepare E a fs) as [[tr1 fs1] [[cache_dir out_dir]|c|e]]; try done.
  destruct (locate E cache_dir out_dir fs1) as [[tr2 fs2] [[i m]|c|e]]; try done.
  by destruct (finalize E out_dir i m fs2) as [[tr3 fs3] o].
Qed.

Lemma main_exit_after_prepare cache_dir out_dir fs1 tr1 tr fs' code :
  match locate E cache_dir out_dir fs1 with
  | (tr2, fs2, Value (images_dir, meta_dir)) =>
      let '(tr3, fs3, o) := finalize E out_dir images_dir meta_dir fs2 in
      (tr1 ++ tr2 ++ tr3, fs3, o)
  | (tr2, fs2, SysExit c) => (tr1 ++ tr2, fs2, SysExit c)
  | (tr2, fs2, Uncaught e) => (tr1 ++ tr2, fs2, Uncaught e)
  end = (tr, fs', SysExit code) ->
  code = 3%Z
  /\ last tr = Some (Stderr msg_not_located)
  /\ both (find_images_meta fs' 2 [out_dir]) = None.
Proof.
  destruct (locate E cache_dir out_dir fs1) as [[tr2 fs2] [[i m]|c|e]] eqn:Hl.
  - destruct (finalize E out_dir i m fs2) as [[tr3 fs3] o] eqn:Hf.
    intros [= <- <- ->]. by apply finalize_no_exit in Hf.
  - intros [= <- <- <-]. apply locate_exit in Hl as (-> & Hlast & _ & Hnone).
    repeat split; try done. by rewrite last_app, Hlast.
  - done.
Qed.

End Stages.

(** ** [download_food11.py] *)

Section Food11_run.

Variable E : externals.

Lemma food11_main_skip a fs cache_path fs1 :
  kagglehub_available E = true ->
  force a = false ->
  dataset_download E Food11.DATASET_REF fs = Ok (Some cache_path, fs1) ->
  path_exists fs1 (resolve fs1 (expanduser E (out a))) = true ->
  Food11.main E a fs =
  ([Stdout ("[1/3] Downloading via kagglehub: " +:+ Food11.DATASET_REF);
    DatasetDownload Food11.DATASET_REF;
    Stdout ("[2/3] KaggleHub cache at: " +:+ show_path (resolve fs1 cache_path));
    Stdout (msg_skip (resolve fs1 (expanduser E (out a))));
    Stdout msg_skip_hint], fs1, SysExit 0).
Proof.
  intros Hk Hf Hd Hex.
  unfold Food11.main. unfold_prog.
  rewrite Hk, Hd. simpl. by rewrite handle_existing_run, Hex, Hf.
Qed.

End Food11_run.

(** ** [utility_functions.py] *)

Section Image_find.

Import Utility.

Context {W : Type}.
Variable H : host W.

(** Once the parent directory is made, every outcome is a returned
    string: the path, or one of the two messages. *)
Lemma utils_image_find_in_band local_path url w w1 :
  os_makedirs H (dirname local_path) w = Ok w1 ->
  exists tr w' text,
    utils_image_find H local_path url w
    = (Makedirs (dirname local_path) :: tr, w', Value text)
    /\ (os_path_exists H local_path w1 = true ->
        text = local_path /\ tr = [] /\ w' = w1)
    /\ (os_path_exists H local_path w1 = false -> truthy url = None ->
        text = "Image not found, add url argument" /\ tr = [] /\ w' = w1)
    /\ (os_path_exists H local_path w1 = false ->
        forall u e, truthy url = Some u -> requests_get H u w1 = Raise e ->
        text = "Download failed: " +:+ exn_text H e).
Proof.
  intros Hmk.
  unfold utils_image_find. unfold_prog.
  rewrite Hmk. simpl.
  destruct (os_path_exists H local_path w1) eqn:Hex.
  - eexists _, _, _. split; [done|]. repeat split; done.
  - destruct (truthy url) as [u|] eqn:Hurl.
    + destruct (requests_get H u w1) as [[content w2]|e] eqn:Hget.
      * destruct (write_bytes H local_path content w2) as [w3|e] eqn:Hwr;
          simpl; eexists _, _, _; (split; [done|]);
          repeat split; try done; intros; simplify_eq; congruence.
      * simpl. eexists _, _, _. split; [done|].
        repeat split; try done; intros; simplify_eq; congruence.
    + eexists _, _, _. split; [done|]. repeat split; try done.
Qed.

End Image_find.

(** ** [download_food11.py]: an existing target and no [--force] *)

Section Food11_existing.

Variable E : externals.

Lemma food11_main_existing a fs :
  force a = false ->
  (forall cache_path fs1,
      dataset_download E Food11.DATASET_REF fs = Ok (Some cache_path, fs1) ->
      path_exists fs1 (resolve fs1 (expanduser E (out a))) = true) ->
  Food11.main E a fs =
  if kagglehub_available E then
    match dataset_download E Food11.DATASET_REF fs with
    | Raise e =>
        ([Stdout ("[1/3] Downloading via kagglehub: " +:+ Food11.DATASET_REF);
          DatasetDownload Food11.DATASET_REF], fs, Uncaught e)
    | Ok (None, fs1) =>
        ([Stdout ("[1/3] Downloading via kagglehub: " +:+ Food11.DATASET_REF);
          DatasetDownload Food11.DATASET_REF; Stderr msg_no_path], fs1, SysExit 2)
    | Ok (Some cache_path, fs1) =>
        ([Stdout ("[1/3] Downloading via kagglehub: " +:+ Food11.DATASET_REF);
          DatasetDownload Food11.DATASET_REF;
          Stdout ("[2/3] KaggleHub cache at: "
                  +:+ show_path (resolve fs1 cache_path));
          Stdout (msg_skip (resolve fs1 (expanduser E (out a))));
          Stdout msg_skip_hint], fs1, SysExit 0)
    end
  else ([Stderr msg_no_kagglehub], fs, SysExit 1).
Proof.
  intros Hf Hex.
  destruct (kagglehub_available E) eqn:Hk.
  - destruct (dataset_download E Food11.DATASET_REF fs)
      as [[[cache_path|] fs1]|e] eqn:Hd.
    + by apply food11_main_skip; [| | |apply (Hex cache_path)].
    + unfold Food11.main. unfold_prog. by rewrite Hk, Hd.
    + unfold Food11.main. unfold_prog. by rewrite Hk, Hd.
  - unfold Food11.main. unfold_prog. by rewrite Hk.
Qed.

End Food11_existing.

(** * The claims *)

(** C1.  [find_images_meta] returns the [images] and [meta] subdirectories
    of the first directory with both labels, in the order of the candidates
    and of each candidate's traversal, and it is handed no directory after
    that one.  The traversal of a candidate is breadth-first: it lists the
    reachable directories exactly, in order of depth.  Hence when some
    directory at depth [e] below the first candidate has both labels, the
    directory that is returned lies at depth at most [e] (a pair at depth 1
    wins over a pair at depth 3, wherever the latter is listed). *)
Theorem find_images_meta_first_match (fs : filesystem) (max_depth : Z)
  (roots : list path) :
  (exists pre rest,
      traversal fs max_depth roots = pre ++ rest
      /\ Forall (fun e => has_pair fs e.1 = false) pre
      /\ match rest with
         | [] => find_images_meta_traced fs max_depth roots = ((None, None), pre)
         | (p, d) :: _ =>
             has_pair fs p = true
             /\ find_images_meta_traced fs max_depth roots
                = ((Some (p // "images"), Some (p // "meta")), pre ++ [(p, d)])
         end)
  /\ (forall r,
        StronglySorted depth_le (iter_dirs_upto_depth fs max_depth r)
        /\ forall p d, (p, d) ∈ iter_dirs_upto_depth fs max_depth r
                       <-> reachable fs max_depth r p d)
  /\ (forall r rest q e,
        roots = r :: rest ->
        reachable fs max_depth r q e -> has_pair fs q = true ->
        exists p d,
          reachable fs max_depth r p d /\ (d <= e)%Z /\ has_pair fs p = true
          /\ find_images_meta fs max_depth roots
             = (Some (p // "images"), Some (p // "meta"))).
Proof.
  split; [apply find_images_meta_traced_split|]. split.
  - intros r. split; [apply iter_dirs_upto_depth_sorted|].
    intros p d. split; [|apply reachable_yielded].
    intros Hin. pose proof (yields_reachable fs max_depth r) as Hs.
    rewrite Forall_forall in Hs. apply (Hs _ Hin).
  - intros r rest q e -> Hq Hpair. by eapply find_images_meta_least_depth.
Qed.

Lemma find_images_meta_first_match_witness :
  reachable Scenario.nested 3 Scenario.cache ["cache"; "shallow"] 1
  /\ has_pair Scenario.nested ["cache"; "shallow"] = true
  /\ exists p d,
       reachable Scenario.nested 3 Scenario.cache p d /\ (d <= 1)%Z
       /\ has_pair Scenario.nested p = true
       /\ find_images_meta Scenario.nested 3 [Scenario.cache]
          = (Some (p // "images"), Some (p // "meta")).
Proof.
  assert (reachable Scenario.nested 3 Scenario.cache ["cache"; "shallow"] 1)
    as Hreach.
  { apply (reachable_child Scenario.nested 3 Scenario.cache
             Scenario.cache 0%Z ["deep"; "shallow"] "shallow").
    - apply reachable_root.
    - lia.
    - reflexivity.
    - apply list_elem_of_In. simpl. tauto.
    - reflexivity. }
  split; [exact Hreach|]. split; [reflexivity|].
  apply (proj2 (proj2 (find_images_meta_first_match
                         Scenario.nested 3 [Scenario.cache]))
           Scenario.cache [] ["cache"; "shallow"] 1%Z eq_refl Hreach eq_refl).
Defined.

(** C2 (amended).  The seen-set is keyed on the path as it was queued, not
    on its resolved form: every path is yielded at most once, yet paths that
    resolve to one directory may all be yielded.  The traversal ends
    nevertheless, also under cyclic links: the generator stops after at most
    [weight] yields, a number fixed by the depth bound and the listings. *)
Theorem iter_dirs_upto_depth_paths_once (fs : filesystem) (max_depth : Z)
  (root : path) :
  NoDup (iter_dirs_upto_depth fs max_depth root).*1
  /\ yields fs max_depth (start root) (iter_dirs_upto_depth fs max_depth root)
  /\ length (iter_dirs_upto_depth fs max_depth root)
     <= weight fs max_depth (start root)
  /\ forall w e w', resume fs max_depth w = Some (e, w') ->
                    (e.1 ∉ seen w) /\ seen w' = {[e.1]} ∪ seen w.
Proof.
  pose proof (iter_dirs_upto_depth_yields fs max_depth root) as Hy.
  split; [by apply (yields_fresh _ _ _ _ Hy)|]. split; [done|]. split.
  - destruct (yields_total fs max_depth (start root)) as (l & Hl & Hlen).
    by rewrite (yields_det _ _ _ _ _ Hy Hl).
  - intros w e w' Hres.
    by destruct (resume_Some _ _ _ _ _ Hres) as (_ & _ & _ & ? & _ & ?).
Qed.

Lemma iter_dirs_upto_depth_paths_once_witness :
  resume Scenario.cyclic 2 (Walker (Some (["r"], 0%Z)) [] {[ ["r"] ]})
  = Some ((["r"; "a"], 1%Z),
          Walker (Some (["r"; "a"], 1%Z)) [] ({[ ["r"; "a"] ]} ∪ {[ ["r"] ]}))
  /\ (["r"; "a"] ∉ ({[ ["r"] ]} : gset path))
  /\ resolve Scenario.cyclic ["r"; "a"] = ["r"].
Proof.
  assert (resume Scenario.cyclic 2 (Walker (Some (["r"], 0%Z)) [] {[ ["r"] ]})
          = Some ((["r"; "a"], 1%Z),
                  Walker (Some (["r"; "a"], 1%Z)) []
                         ({[ ["r"; "a"] ]} ∪ {[ ["r"] ]}))) as Hres.
  { unfold resume, expanded, expand. simpl.
    rewrite bool_decide_eq_false_2; [reflexivity|].
    intros Hin. apply elem_of_singleton in Hin. discriminate. }
  split; [exact Hres|]. split; [|reflexivity].
  exact (proj1 (proj2 (proj2 (proj2
           (iter_dirs_upto_depth_paths_once Scenario.cyclic 2 ["r"]))) _ _ _ Hres)).
Defined.

(** C2, as stated, fails: with [r/a] a link to [r], the traversal of [r] to
    depth 2 yields [r], [r/a] and [r/a/a], which resolve to the same
    directory. *)
Lemma resolved_directory_visited_again :
  iter_dirs_upto_depth Scenario.cyclic 2 ["r"]
  = [(["r"], 0%Z); (["r"; "a"], 1%Z); (["r"; "a"; "a"], 2%Z)]
  /\ resolve Scenario.cyclic ["r"; "a"] = resolve Scenario.cyclic ["r"]
  /\ ~ NoDup (resolve Scenario.cyclic
                <$> (iter_dirs_upto_depth Scenario.cyclic 2 ["r"]).*1).
Proof.
  split; [by vm_compute|]. split; [by vm_compute|].
  intros Hnd.
  assert (resolve Scenario.cyclic
            <$> (iter_dirs_upto_depth Scenario.cyclic 2 ["r"]).*1
          = [["r"]; ["r"]; ["r"]]) as Heq by (by vm_compute).
  rewrite Heq in Hnd. apply NoDup_cons in Hnd as [Hnotin _].
  apply Hnotin. left.
Qed.

(** C3.  For a bound that is not negative, every directory yielded lies
    [d] components below the root with [0 <= d <= max_depth], the root at
    depth 0, and a directory taken from the queue at depth [max_depth] or
    more is not listed: the traversal does not descend past the bound.
    Consequently, when no path of at most [max_depth] components below a
    candidate has both labels, that is when every pair lies strictly deeper
    than the bound, [find_images_meta] returns [(None, None)]. *)
Theorem iter_dirs_upto_depth_bounded (fs : filesystem) (max_depth : Z)
  (roots : list path) :
  (0 <= max_depth)%Z ->
  (forall r,
      Forall (fun e => (exists s, e.1 = r ++ s /\ e.2 = Z.of_nat (length s))
                       /\ (0 <= e.2 <= max_depth)%Z)
             (iter_dirs_upto_depth fs max_depth r))
  /\ (forall cur depth q,
        (max_depth <= depth)%Z -> expand fs max_depth cur depth q = q)
  /\ ((forall r s, r ∈ roots ->
                   (Z.of_nat (length s) <= max_depth)%Z ->
                   has_pair fs (r ++ s) = false) ->
      find_images_meta fs max_depth roots = (None, None)).
Proof.
  intros Hbound0.
  assert (forall r,
      Forall (fun e => (exists s, e.1 = r ++ s /\ e.2 = Z.of_nat (length s))
                       /\ (0 <= e.2 <= max_depth)%Z)
             (iter_dirs_upto_depth fs max_depth r)) as Hbound.
  { intros r. eapply Forall_impl; [apply yields_reachable|].
    intros [p d] Hreach. apply reachable_depth in Hreach as [Hs Hd].
    split; [done|]. simpl in *. lia. }
  split; [done|]. split.
  { intros cur depth q Hge. unfold expand.
    by destruct (Z.ltb_spec depth max_depth); [lia|]. }
  intros Hdeep. apply find_images_meta_none.
  unfold traversal. apply Forall_forall. intros e He.
  apply list_elem_of_bind in He as (r & He & Hr).
  specialize (Hbound r). rewrite Forall_forall in Hbound.
  destruct (Hbound _ He) as [(s & Heq & Hd) Hrange].
  destruct e as [p d]. simpl in *. subst p. apply Hdeep; [done|lia].
Qed.

Lemma iter_dirs_upto_depth_bounded_witness :
  (0 <= 2)%Z
  /\ (forall r s, r ∈ [Scenario.cache] ->
                  (Z.of_nat (length s) <= 2)%Z ->
                  has_pair Scenario.buried (r ++ s) = false)
  /\ has_pair Scenario.buried ["cache"; "a"; "b"; "c"] = true
  /\ find_images_meta Scenario.buried 2 [Scenario.cache] = (None, None).
Proof.
  assert (forall r s, r ∈ [Scenario.cache] ->
               (Z.of_nat (length s) <= 2)%Z ->
               has_pair Scenario.buried (r ++ s) = false) as Hdeep.
  { intros r s Hr Hlen. apply list_elem_of_singleton in Hr as ->.
    destruct s as [|a [|b [|c s]]]; simpl in Hlen; try lia;
      unfold has_pair, Scenario.buried, Scenario.cache; simpl;
      repeat (case_bool_decide; simplify_eq; simpl; try done); done. }
  split; [lia|]. split; [exact Hdeep|]. split; [reflexivity|].
  exact (proj2 (proj2 (iter_dirs_upto_depth_bounded Scenario.buried 2
                         [Scenario.cache] ltac:(lia))) Hdeep).
Defined.

(** C4.  When the first search finds nothing, the archives extracted into
    the output directory are those of the policy, in its order: the
    combined archive alone when one was found, otherwise the primary and the
    secondary archive that were found.  When the stage ends without an
    exception every one of them was extracted, and the stage ends with the
    result of [find_images_meta([out_dir], max_depth=2)] on the file system
    so obtained: the two directories, or exit code 3. *)
Theorem locate_extraction_policy (E : externals) (cache_dir out_dir : path)
  (fs : filesystem) (tr : list event) (fs' : filesystem)
  (o : outcome (path * path)) :
  Food101.both (find_images_meta fs 3 (Food101.candidate_roots fs cache_dir))
  = None ->
  Food101.locate E cache_dir out_dir fs = (tr, fs', o) ->
  let found :=
    Food101.scan_archives fs (Food101.candidate_roots fs cache_dir) in
  let due := (fun a => (a, out_dir)) <$> Food101.policy found in
  (forall a, Food101.food101_archive found = Some a -> due = [(a, out_dir)])
  /\ (Food101.food101_archive found = None ->
      due = ((fun a => (a, out_dir)) <$> option_list (Food101.images_archive found))
            ++ ((fun a => (a, out_dir)) <$> option_list (Food101.meta_archive found)))
  /\ match o with
     | Value (images_dir, meta_dir) =>
         Food101.extractions tr = due
         /\ find_images_meta fs' 2 [out_dir] = (Some images_dir, Some meta_dir)
     | SysExit code =>
         Food101.extractions tr = due
         /\ Food101.both (find_images_meta fs' 2 [out_dir]) = None
         /\ code = 3%Z
     | Uncaught _ => Food101.extractions tr `prefix_of` due
     end.
Proof.
  intros Hnone Hrun found due. split; [|split].
  - intros a Ha. unfold due, Food101.policy. by rewrite Ha.
  - intros Ha. unfold due, Food101.policy. by rewrite Ha, fmap_app.
  - rewrite locate_run in Hrun. cbv zeta in Hrun. rewrite Hnone in Hrun.
    fold found in Hrun.
    destruct (Food101.extract_found E found out_dir fs)
      as [[tr0 fs0] [r'|c|e]] eqn:Hx;
      apply extract_found_outcome in Hx.
    + destruct Hx as [Hx ->].
      destruct (Food101.both (find_images_meta fs0 2 [out_dir]))
        as [[i m]|] eqn:Hboth; injection Hrun as <- <- <-.
      * split; [done|]. by apply both_Some.
      * change (Stdout Food101.banner_search
                  :: tr0 ++ [Stderr Food101.msg_not_located])
          with ([Stdout Food101.banner_search] ++ tr0
                  ++ [Stderr Food101.msg_not_located]).
        rewrite !extractions_app, app_nil_r. done.
    + done.
    + by injection Hrun as <- <- <-.
Qed.

Lemma locate_extraction_policy_witness :
  let fs := Scenario.overlay ["out"] Scenario.empty_dir Scenario.archived in
  Food101.both (find_images_meta fs 3 (Food101.candidate_roots fs Scenario.cache))
  = None
  /\ Food101.scan_archives fs (Food101.candidate_roots fs Scenario.cache)
     = Food101.Archives (Some ["cache"; "images.zip"])
                        (Some ["cache"; "meta.tar.gz"])
                        (Some ["cache"; "food-101.tar"])
  /\ Food101.extractions (Food101.locate Scenario.hub Scenario.cache ["out"] fs).1.1
     = [(["cache"; "food-101.tar"], ["out"])]
  /\ (Food101.locate Scenario.hub Scenario.cache ["out"] fs).2
     = Value (["out"; "food-101"; "images"], ["out"; "food-101"; "meta"]).
Proof.
  intros fs.
  assert (Food101.both
            (find_images_meta fs 3 (Food101.candidate_roots fs Scenario.cache))
          = None) as Hnone by (vm_compute; reflexivity).
  assert ((Food101.locate Scenario.hub Scenario.cache ["out"] fs).2
          = Value (["out"; "food-101"; "images"], ["out"; "food-101"; "meta"]))
    as Hout by (vm_compute; reflexivity).
  split; [exact Hnone|]. split; [vm_compute; reflexivity|].
  pose proof (locate_extraction_policy Scenario.hub Scenario.cache ["out"] fs
                (Food101.locate Scenario.hub Scenario.cache ["out"] fs).1.1
                (Food101.locate Scenario.hub Scenario.cache ["out"] fs).1.2
                (Food101.locate Scenario.hub Scenario.cache ["out"] fs).2
                Hnone) as Hthm.
  destruct (Food101.locate Scenario.hub Scenario.cache ["out"] fs)
    as [[tr fs'] o]. simpl in *. subst o.
  destruct (Hthm eq_refl) as (_ & _ & Hex & _).
  split; [|reflexivity]. rewrite Hex. vm_compute. reflexivity.
Defined.

(** C5.  The scan keeps, for each class, the last file of that class among
    the files met, in scanning order.  The class of a file does not depend
    on the case of the letters of its name: two names that differ by case
    only have the same class, and a name has a class exactly when it is,
    up to case, a name that starts with the prefix of the class and ends
    with one of the four suffixes.  One step of the scan replaces the file
    kept for the class of the file it meets and leaves the other two
    alone. *)
Theorem scan_archives_classification (fs : filesystem) (candidates : list path) :
  Food101.scan_archives fs candidates
  = Food101.Archives
      (Food101.last_of_class Food101.Primary (Food101.scanned fs candidates))
      (Food101.last_of_class Food101.Secondary (Food101.scanned fs candidates))
      (Food101.last_of_class Food101.Combined (Food101.scanned fs candidates))
  /\ (forall name, Food101.class_of (lower name) = Food101.class_of name)
  /\ (forall name1 name2,
        same_modulo_case name1 name2 = true ->
        Food101.class_of name1 = Food101.class_of name2)
  /\ (forall name c,
        Food101.class_of name = Some c
        <-> exists low,
              same_modulo_case name low = true
              /\ startswith low (Food101.prefix_of c) = true
              /\ endswith_any low Food101.exts = true)
  /\ (forall acc p,
        Food101.classify fs acc p =
        if is_file fs p then
          match Food101.class_of (name_of p) with
          | Some Food101.Primary =>
              Food101.Archives (Some p) (Food101.meta_archive acc)
                               (Food101.food101_archive acc)
          | Some Food101.Secondary =>
              Food101.Archives (Food101.images_archive acc) (Some p)
                               (Food101.food101_archive acc)
          | Some Food101.Combined =>
              Food101.Archives (Food101.images_archive acc)
                               (Food101.meta_archive acc) (Some p)
          | None => acc
          end
        else acc).
Proof.
  split; [apply scan_archives_last|]. split.
  { intros name. unfold Food101.class_of. by rewrite lower_idempotent. }
  split.
  { intros name1 name2 Hsame. unfold Food101.class_of.
    by rewrite (same_modulo_case_lower _ _ Hsame). }
  split; [|apply classify_class].
  intros name c. rewrite class_of_low. split.
  - intros [Hpre Hsuf]. exists (lower name).
    split; [apply same_modulo_case_lower_self|done].
  - intros (low & Hsame & Hpre & Hsuf).
    rewrite (same_modulo_case_lower _ _ Hsame).
    split; [|by apply endswith_any_lower].
    rewrite <- (prefix_of_lower c). by apply startswith_lower.
Qed.

Lemma scan_archives_classification_witness :
  same_modulo_case "IMAGES.ZIP" "images.zip" = true
  /\ Food101.class_of "IMAGES.ZIP" = Some Food101.Primary
  /\ Food101.class_of "Food-101.Tar.Gz" = Food101.class_of "food-101.tar.gz"
  /\ Food101.scan_archives Scenario.shouting [Scenario.cache]
     = Food101.Archives (Some ["cache"; "Images.tar"])
                        (Some ["cache"; "META.TGZ"])
                        (Some ["cache"; "Food-101.Tar.Gz"]).
Proof.
  pose proof (scan_archives_classification Scenario.shouting [Scenario.cache])
    as (Hscan & _ & Hcase & Hclass & _).
  split; [reflexivity|]. split; [|split].
  - apply Hclass. exists "images.zip". by repeat split.
  - by apply Hcase.
  - rewrite Hscan. by vm_compute.
Defined.

(** C6 (amended).  On a file system where [is_dir] may raise, the search
    always ends, with a result or with an exception: the fuel never runs
    out.  What fails inside the [try] is swallowed: a directory whose
    listing raises contributes no children, and when the test of a listed
    entry raises, the entries listed before it are queued and those after
    it are dropped.  The test for the two labels at a visited directory is
    outside the [try]: the search ends at the first visited directory where
    that test succeeds or raises, with the pair or with the exception, and
    with [(None, None)] when it does neither anywhere.  The outcome is the
    one over the file system in which a directory whose listing fails is
    empty.  Where [is_dir]
    raises nowhere the search raises nothing and returns what the search
    over the plain file system returns. *)
Theorem find_images_meta_raises_at_label_test (g : Raising.probes)
  (max_depth : Z) (roots : list path) :
  Raising.for_each_root g max_depth roots
  = Some (Raising.find_images_meta_traced g max_depth roots)
  /\ (forall cur depth q e,
        iterdir (Raising.plain g) cur = Raise e ->
        Raising.expand g max_depth cur depth q = q)
  /\ (forall cur depth q names1 name names2 e,
        (depth < max_depth)%Z ->
        iterdir (Raising.plain g) cur = Ok (names1 ++ name :: names2) ->
        Forall (fun n => Raising.denied g (cur // n) = None) names1 ->
        Raising.denied g (cur // name) = Some e ->
        Raising.expand g max_depth cur depth q
        = q ++ ((fun p => (p, (depth + 1)%Z))
                  <$> filter (fun p => is_dir (Raising.plain g) p)
                             (joinpath cur <$> names1)))
  /\ Raising.find_images_meta_traced g max_depth roots
     = Raising.find_images_meta_traced (Raising.hushed g) max_depth roots
  /\ (exists pre rest,
        traversal (Raising.visible g) max_depth roots = pre ++ rest
        /\ Forall (fun e => Raising.has_pair g e.1 = Ok false) pre
        /\ match rest with
           | [] =>
               Raising.find_images_meta_traced g max_depth roots
               = (Ok (None, None), pre)
           | (p, d) :: _ =>
               (Raising.has_pair g p = Ok true
                /\ Raising.find_images_meta_traced g max_depth roots
                   = (Ok (Some (p // "images"), Some (p // "meta")),
                      pre ++ [(p, d)]))
               \/ (exists e,
                     Raising.has_pair g p = Raise e
                     /\ Raising.find_images_meta_traced g max_depth roots
                        = (Raise e, pre ++ [(p, d)]))
           end)
  /\ ((forall p, Raising.denied g p = None) ->
      Raising.find_images_meta g max_depth roots
      = Ok (find_images_meta (Raising.plain g) max_depth roots)).
Proof.
  split; [apply raising_for_each_root_returns|]. split.
  { intros cur depth q e Hraise. unfold Raising.expand. rewrite Hraise.
    by destruct (depth <? max_depth)%Z. }
  split.
  { intros cur depth q names1 name names2 e Hlt Hlist Hall Hden.
    unfold Raising.expand. rewrite Hlist.
    destruct (Z.ltb_spec depth max_depth); [|lia].
    by rewrite append_dirs_listed, (listed_until _ _ _ _ _ e). }
  split; [by rewrite raising_traced_hushed|].
  split; [apply raising_traced_split|].
  intros Hanswers. unfold Raising.find_images_meta.
  by rewrite raising_traced_plain.
Qed.

Lemma find_images_meta_raises_at_label_test_witness :
  (forall p, Raising.denied (Raising.permissive Scenario.guarded) p = None)
  /\ Raising.find_images_meta (Raising.permissive Scenario.guarded) 3
       [Scenario.cache]
     = Ok (Some ["cache"; "public"; "images"], Some ["cache"; "public"; "meta"])
  /\ Raising.denied Raising.faulty ["cache"; "a"; "y"]
     = Some (OtherError "OSError")
  /\ Raising.expand Raising.faulty 3 ["cache"; "a"] 1
       [(["cache"; "b"], 1%Z); (["cache"; "c"], 1%Z)]
     = [(["cache"; "b"], 1%Z); (["cache"; "c"], 1%Z); (["cache"; "a"; "x"], 2%Z)].
Proof.
  pose proof (find_images_meta_raises_at_label_test
                (Raising.permissive Scenario.guarded) 3 [Scenario.cache])
    as (_ & _ & _ & _ & _ & Hplain).
  pose proof (find_images_meta_raises_at_label_test Raising.faulty 3 [])
    as (_ & _ & Hdrop & _).
  split; [done|]. split; [|split; [reflexivity|]].
  - rewrite (Hplain (fun p => eq_refl)). by vm_compute.
  - rewrite (Hdrop ["cache"; "a"] 1%Z _ ["x"] "y" ["z"] (OtherError "OSError"));
      [by vm_compute|lia|reflexivity| |reflexivity].
    by repeat constructor.
Defined.

(** C6, as stated, fails: with a directory that can be neither listed nor
    searched, the search does not skip it; the test for the two labels
    raises when the directory is visited, although a later directory holds
    the pair. *)
Lemma locked_directory_makes_search_raise :
  iterdir (Raising.plain Raising.locked) ["cache"; "private"]
  = Raise PermissionError
  /\ Raising.has_pair Raising.locked ["cache"; "private"] = Raise PermissionError
  /\ Raising.find_images_meta_traced Raising.locked 3 [Scenario.cache]
     = (Raise PermissionError,
        [(["cache"], 0%Z); (["cache"; "private"], 1%Z)])
  /\ find_images_meta (Raising.plain Raising.locked) 3 [Scenario.cache]
     = (Some ["cache"; "public"; "images"], Some ["cache"; "public"; "meta"]).
Proof. repeat split; by vm_compute. Qed.

(** C7 (amended).  A directory whose resolved path is the resolved target is
    not copied, and this is reported.  Otherwise [copytree] is called: it
    lists the source first, and a source that cannot be listed ends the
    call with the error of the listing; then it makes the target, which
    raises [FileExistsError] when the target exists, whether it is empty or
    not, before any entry is copied; then it copies.  So, the copying of
    the entries set aside, the call ends with [FileExistsError] exactly
    when the source can be listed and the target exists.  When both
    directories are in place already, finalisation makes no copy and begins
    with the two reports. *)
Theorem place_copies_unless_same (E : externals) (step label : string)
  (src target : path) (fs : filesystem) :
  (resolve fs src = resolve fs target ->
   Food101.place E step label src target fs
   = ([Stdout (Food101.msg_already_at step label target)], fs, Value tt))
  /\ (resolve fs src <> resolve fs target ->
      Food101.place E step label src target fs
      = match iterdir fs src with
        | Raise e =>
            ([Stdout (Food101.msg_copying step label target);
              Copytree src target], fs, Uncaught e)
        | Ok _ =>
            if path_exists fs target then
              ([Stdout (Food101.msg_copying step label target);
                Copytree src target], fs, Uncaught FileExistsError)
            else
              match copy_tree E src target fs with
              | Ok fs' =>
                  ([Stdout (Food101.msg_copying step label target);
                    Copytree src target], fs', Value tt)
              | Raise e =>
                  ([Stdout (Food101.msg_copying step label target);
                    Copytree src target], fs, Uncaught e)
              end
        end)
  /\ (resolve fs src <> resolve fs target ->
      iterdir fs src <> Raise FileExistsError ->
      copy_tree E src target fs <> Raise FileExistsError ->
      (Food101.place E step label src target fs).2 = Uncaught FileExistsError
      <-> (exists names, iterdir fs src = Ok names)
          /\ path_exists fs target = true)
  /\ (forall out_dir images_dir meta_dir tr fs' o,
        resolve fs images_dir = resolve fs (out_dir // "images") ->
        resolve fs meta_dir = resolve fs (out_dir // "meta") ->
        Food101.finalize E out_dir images_dir meta_dir fs = (tr, fs', o) ->
        fs' = fs
        /\ Forall (fun ev => forall s d, ev <> Copytree s d) tr
        /\ exists tr',
            tr = Stdout (Food101.msg_already_at "[4/6]" "images" (out_dir // "images"))
                 :: Stdout (Food101.msg_already_at "[5/6]" "meta" (out_dir // "meta"))
                 :: tr').
Proof.
  split; [|split; [|split]].
  - intros Heq. rewrite place_run. by rewrite bool_decide_eq_false_2 by auto.
  - intros Hne. rewrite place_run. by rewrite bool_decide_eq_true_2.
  - intros Hne Hlist Hcopy. rewrite place_run, bool_decide_eq_true_2 by done.
    destruct (iterdir fs src) as [names|e] eqn:Hsrc.
    + destruct (path_exists fs target) eqn:Hex.
      * split; [intros _; split; [by exists names|done]|done].
      * destruct (copy_tree E src target fs) as [fs'|e] eqn:Hc; simpl.
        -- split; [done|]. by intros [_ ?].
        -- split; [|by intros [_ ?]]. intros [= ->]. done.
    + simpl. split.
      * intros [= ->]. done.
      * by intros [[names [=]] _].
  - intros out_dir images_dir meta_dir tr fs' o Hi Hm.
    assert (forall step label src target,
               resolve fs src = resolve fs target ->
               Food101.place E step label src target fs
               = ([Stdout (Food101.msg_already_at step label target)], fs, Value tt))
      as Hsame.
    { intros ???? Heq. rewrite place_run. by rewrite bool_decide_eq_false_2 by auto. }
    unfold Food101.finalize.
    rewrite (bind_value _ _ _ _ _ _ (Hsame _ _ _ _ Hi)).
    rewrite (bind_value _ _ _ _ _ _ (Hsame _ _ _ _ Hm)).
    unfold_prog.
    destruct (Food101.count_classes (out_dir // "images") fs)
      as [[tr3 fs3] [n|c|e]] eqn:Hc;
      apply count_classes_silent in Hc as [-> ->];
      simpl; intros [= <- <- <-];
      (split; [done|]); (split; [|by eexists]);
      repeat constructor; done.
Qed.

Lemma place_copies_unless_same_witness :
  (resolve Scenario.staged ["out"; "food-101"; "images"]
   <> resolve Scenario.staged ["out"; "images"]
   /\ iterdir Scenario.staged ["out"; "food-101"; "images"] = Ok ["apple_pie"]
   /\ path_exists Scenario.staged ["out"; "images"] = true)
  /\ Food101.place Scenario.hub "[4/6]" "images"
       ["out"; "food-101"; "images"] ["out"; "images"] Scenario.staged
     = ([Stdout "[4/6] Copying images -> out/images";
         Copytree ["out"; "food-101"; "images"] ["out"; "images"]],
        Scenario.staged, Uncaught FileExistsError)
  /\ (Food101.place Scenario.hub "[4/6]" "images"
        ["out"; "food-101"; "images"] ["out"; "images"] Scenario.sealed).2
     = Uncaught PermissionError
  /\ (Food101.place Scenario.hub "[4/6]" "images"
        ["out"; "food-101"; "images"] ["out"; "images"] Scenario.staged).2
     = Uncaught FileExistsError.
Proof.
  assert (resolve Scenario.staged ["out"; "food-101"; "images"]
          <> resolve Scenario.staged ["out"; "images"]) as Hne by (by simpl).
  split; [by repeat split|]. split; [|split].
  - exact (proj1 (proj2 (place_copies_unless_same Scenario.hub "[4/6]" "images"
                           ["out"; "food-101"; "images"] ["out"; "images"]
                           Scenario.staged)) Hne).
  - rewrite (proj1 (proj2 (place_copies_unless_same Scenario.hub "[4/6]" "images"
                             ["out"; "food-101"; "images"] ["out"; "images"]
                             Scenario.sealed)));
      [reflexivity|by simpl].
  - apply (proj1 (proj2 (proj2 (place_copies_unless_same Scenario.hub "[4/6]"
                                  "images" ["out"; "food-101"; "images"]
                                  ["out"; "images"] Scenario.staged))));
      [exact Hne|by simpl|by simpl|].
    split; [by exists ["apple_pie"]|reflexivity].
Defined.

(** C7, as stated, fails: the copy raises although the target directory is
    empty. *)
Lemma copy_into_empty_target_raises :
  iterdir Scenario.staged ["out"; "images"] = Ok []
  /\ (Food101.place Scenario.hub "[4/6]" "images"
        ["out"; "food-101"; "images"] ["out"; "images"] Scenario.staged).2
     = Uncaught FileExistsError.
Proof. split; reflexivity. Qed.

(** C8 (amended).  The target is looked at after the download.  An
    invocation without [--force] whose target exists makes no call that
    removes, makes, extracts or copies anything, and leaves the file system
    as the download left it; how it ends is decided by what comes before
    the test: exit code 1 when [kagglehub] cannot be imported and exit code
    2 when the download gives no path, both without the skip message; the
    exception of the download when it raises; and otherwise the two lines
    of the skip message and [sys.exit(0)], the status of a run that does
    all the work.  With [--force] the target is handed to [shutil.rmtree]
    before anything else is done to it, and the output directory is made
    afresh in the file system that results. *)
Theorem existing_target_skip_or_force (E : externals) (a : args)
  (fs : filesystem) :
  (forall out_dir fs0,
      path_exists fs0 out_dir = true ->
      handle_existing E false out_dir fs0
      = ([Stdout (msg_skip out_dir); Stdout msg_skip_hint], fs0, SysExit 0)
      /\ handle_existing E true out_dir fs0
         = match rmtree E out_dir fs0 with
           | Ok fs1 => ([Stdout (msg_force out_dir); Rmtree out_dir], fs1, Value tt)
           | Raise e => ([Stdout (msg_force out_dir); Rmtree out_dir], fs0, Uncaught e)
           end)
  /\ (force a = false ->
      (forall cache_path fs1,
          dataset_download E Food101.DATASET_REF fs = Ok (Some cache_path, fs1) ->
          path_exists fs1 (resolve fs1 (expanduser E (out a))) = true) ->
      Food101.main E a fs
      = if kagglehub_available E then
          match dataset_download E Food101.DATASET_REF fs with
          | Raise e =>
              ([Stdout Food101.banner_download;
                DatasetDownload Food101.DATASET_REF], fs, Uncaught e)
          | Ok (None, fs1) =>
              ([Stdout Food101.banner_download;
                DatasetDownload Food101.DATASET_REF; Stderr msg_no_path],
               fs1, SysExit 2)
          | Ok (Some cache_path, fs1) =>
              ([Stdout Food101.banner_download;
                DatasetDownload Food101.DATASET_REF;
                Stdout ("[2/6] KaggleHub cache at: "
                        +:+ show_path (resolve fs1 cache_path));
                Stdout (msg_skip (resolve fs1 (expanduser E (out a))));
                Stdout msg_skip_hint], fs1, SysExit 0)
          end
        else ([Stderr msg_no_kagglehub], fs, SysExit 1))
  /\ (force a = false ->
      (forall cache_path fs1,
          dataset_download E Food11.DATASET_REF fs = Ok (Some cache_path, fs1) ->
          path_exists fs1 (resolve fs1 (expanduser E (out a))) = true) ->
      Food11.main E a fs
      = if kagglehub_available E then
          match dataset_download E Food11.DATASET_REF fs with
          | Raise e =>
              ([Stdout ("[1/3] Downloading via kagglehub: "
                        +:+ Food11.DATASET_REF);
                DatasetDownload Food11.DATASET_REF], fs, Uncaught e)
          | Ok (None, fs1) =>
              ([Stdout ("[1/3] Downloading via kagglehub: "
                        +:+ Food11.DATASET_REF);
                DatasetDownload Food11.DATASET_REF; Stderr msg_no_path],
               fs1, SysExit 2)
          | Ok (Some cache_path, fs1) =>
              ([Stdout ("[1/3] Downloading via kagglehub: "
                        +:+ Food11.DATASET_REF);
                DatasetDownload Food11.DATASET_REF;
                Stdout ("[2/3] KaggleHub cache at: "
                        +:+ show_path (resolve fs1 cache_path));
                Stdout (msg_skip (resolve fs1 (expanduser E (out a))));
                Stdout msg_skip_hint], fs1, SysExit 0)
          end
        else ([Stderr msg_no_kagglehub], fs, SysExit 1))
  /\ (forall cache_path fs1 fs2 fs3,
        kagglehub_available E = true -> force a = true ->
        dataset_download E Food101.DATASET_REF fs = Ok (Some cache_path, fs1) ->
        path_exists fs1 (resolve fs1 (expanduser E (out a))) = true ->
        rmtree E (resolve fs1 (expanduser E (out a))) fs1 = Ok fs2 ->
        mkdir_parents E (resolve fs1 (expanduser E (out a))) fs2 = Ok fs3 ->
        Food101.prepare E a fs
        = ([Stdout Food101.banner_download;
            DatasetDownload Food101.DATASET_REF;
            Stdout ("[2/6] KaggleHub cache at: "
                    +:+ show_path (resolve fs1 cache_path));
            Stdout (msg_force (resolve fs1 (expanduser E (out a))));
            Rmtree (resolve fs1 (expanduser E (out a)));
            Mkdir (resolve fs1 (expanduser E (out a)))],
           fs3,
           Value (resolve fs1 cache_path, resolve fs1 (expanduser E (out a)))))
  /\ exit_status (SysExit 0 : outcome unit) = exit_status (Value tt).
Proof.
  split; [|split; [|split; [|split]]].
  - intros out_dir fs0 Hex. rewrite !handle_existing_run, Hex. done.
  - intros Hf Hex. rewrite main_run, prepare_run.
    destruct (kagglehub_available E); [|done].
    destruct (dataset_download E Food101.DATASET_REF fs)
      as [[[cache_path|] fs1]|e] eqn:Hd; [|done|done].
    cbv zeta. by rewrite handle_existing_run, (Hex _ _ eq_refl), Hf.
  - apply food11_main_existing.
  - intros cache_path fs1 fs2 fs3 Hk Hf Hd Hex Hrm Hmk.
    rewrite prepare_run, Hk, Hd. cbv zeta.
    by rewrite handle_existing_run, Hex, Hf, Hrm, Hmk.
  - done.
Qed.

Lemma existing_target_skip_or_force_witness :
  (force Scenario.to_out = false
   /\ path_exists Scenario.occupied ["out"] = true)
  /\ Food101.main Scenario.hub Scenario.to_out Scenario.occupied
     = ([Stdout "[1/6] Downloading via kagglehub: dansbecker/food-101";
         DatasetDownload "dansbecker/food-101";
         Stdout "[2/6] KaggleHub cache at: cache";
         Stdout "[skip] Output folder already exists: out";
         Stdout "       Use --force to overwrite, or choose a different --out path."],
        Scenario.occupied, SysExit 0)
  /\ Food101.main Scenario.offline Scenario.to_out Scenario.occupied
     = ([Stderr "ERROR: 'kagglehub' is not installed. Run: pip install kagglehub"],
        Scenario.occupied, SysExit 1)
  /\ (Food11.main Scenario.pathless Scenario.to_out Scenario.occupied).2
     = SysExit 2.
Proof.
  split; [by split|]. split; [|split].
  - rewrite (proj1 (proj2 (existing_target_skip_or_force
                             Scenario.hub Scenario.to_out Scenario.occupied))
               eq_refl); [reflexivity|].
    intros cache_path fs1 Hd. simpl in Hd. by simplify_eq.
  - rewrite (proj1 (proj2 (existing_target_skip_or_force
                             Scenario.offline Scenario.to_out Scenario.occupied))
               eq_refl); [reflexivity|].
    intros cache_path fs1 Hd. simpl in Hd. by simplify_eq.
  - rewrite (proj1 (proj2 (proj2 (existing_target_skip_or_force
                             Scenario.pathless Scenario.to_out Scenario.occupied)))
               eq_refl); [reflexivity|].
    intros cache_path fs1 Hd. simpl in Hd. by simplify_eq.
Defined.

(** C8, as stated, fails: the skip exits with the status of a run that
    downloads, extracts and copies. *)
Lemma skip_exit_status_is_success_status :
  (Food101.main Scenario.hub Scenario.to_out Scenario.occupied).2 = SysExit 0
  /\ (Food101.main Scenario.hub Scenario.to_out Scenario.archived).2 = Value tt
  /\ Food101.extractions
       (Food101.main Scenario.hub Scenario.to_out Scenario.archived).1.1
     = [(["cache"; "food-101.tar"], ["out"])]
  /\ exit_status (Food101.main Scenario.hub Scenario.to_out Scenario.occupied).2
     = exit_status (Food101.main Scenario.hub Scenario.to_out Scenario.archived).2.
Proof. repeat split; vm_compute; reflexivity. Qed.

(** C9 (amended).  [main] exits with 1 when [kagglehub] cannot be imported,
    having printed one line and changed nothing; with 2 when the download
    returns no path; with 3 when the search after the extractions finds no
    pair, after printing one fixed line to [sys.stderr]; with 0 when it
    skips an existing target.  These are the only calls of [sys.exit] that
    [main] makes, each with the cause given, and a run that reaches the end
    has status 0. *)
Theorem exit_codes (E : externals) (a : args) (fs : filesystem) :
  (kagglehub_available E = false ->
   Food101.main E a fs = ([Stderr msg_no_kagglehub], fs, SysExit 1))
  /\ (forall fs1,
        kagglehub_available E = true ->
        dataset_download E Food101.DATASET_REF fs = Ok (None, fs1) ->
        Food101.main E a fs
        = ([Stdout Food101.banner_download;
            DatasetDownload Food101.DATASET_REF; Stderr msg_no_path],
           fs1, SysExit 2))
  /\ (forall cache_dir out_dir fs0 tr fs' r,
        Food101.both (find_images_meta fs0 3 (Food101.candidate_roots fs0 cache_dir))
        = None ->
        Food101.extract_found E
          (Food101.scan_archives fs0 (Food101.candidate_roots fs0 cache_dir))
          out_dir fs0 = (tr, fs', Value r) ->
        Food101.both r = None ->
        Food101.locate E cache_dir out_dir fs0
        = (Stdout Food101.banner_search :: tr ++ [Stderr Food101.msg_not_located],
           fs', SysExit 3))
  /\ (forall tr fs' code,
        Food101.main E a fs = (tr, fs', SysExit code) ->
        (code = 1%Z /\ kagglehub_available E = false
         /\ tr = [Stderr msg_no_kagglehub] /\ fs' = fs)
        \/ (code = 2%Z /\ kagglehub_available E = true
            /\ dataset_download E Food101.DATASET_REF fs = Ok (None, fs')
            /\ last tr = Some (Stderr msg_no_path))
        \/ (code = 0%Z /\ kagglehub_available E = true /\ force a = false
            /\ path_exists fs' (resolve fs' (expanduser E (out a))) = true
            /\ last tr = Some (Stdout msg_skip_hint))
        \/ (code = 3%Z /\ kagglehub_available E = true
            /\ last tr = Some (Stderr Food101.msg_not_located)
            /\ exists out_dir,
                Food101.both (find_images_meta fs' 2 [out_dir]) = None))
  /\ (forall tr fs' u,
        Food101.main E a fs = (tr, fs', Value u) -> exit_status (Value u) = 0%Z).
Proof.
  split; [|split; [|split; [|split]]].
  - intros Hk. by rewrite main_run, prepare_run, Hk.
  - intros fs1 Hk Hd. by rewrite main_run, prepare_run, Hk, Hd.
  - intros cache_dir out_dir fs0 tr fs' r Hnone Hx Hr.
    rewrite locate_run. cbv zeta. by rewrite Hnone, Hx, Hr.
  - intros tr fs' code. rewrite main_run, prepare_run.
    destruct (kagglehub_available E) eqn:Hk;
      [|intros [= <- <- <-]; left; by repeat split].
    destruct (dataset_download E Food101.DATASET_REF fs)
      as [[[cache_path|] fs1]|e] eqn:Hd;
      [|intros [= <- <- <-]; right; left; by repeat split|done].
    cbv zeta. rewrite handle_existing_run.
    destruct (path_exists fs1 (resolve fs1 (expanduser E (out a)))) eqn:Hex.
    + destruct (force a) eqn:Hf.
      * destruct (rmtree E _ fs1) as [fs2|e]; [|done].
        destruct (mkdir_parents E _ fs2) as [fs3|e]; [|done].
        intros Hrun. apply main_exit_after_prepare in Hrun as (-> & Hlast & Hnone).
        right. right. right. repeat split; try done. by eexists.
      * intros [= <- <- <-]. right. right. left. by repeat split.
    + destruct (mkdir_parents E _ fs1) as [fs3|e]; [|done].
      intros Hrun. apply main_exit_after_prepare in Hrun as (-> & Hlast & Hnone).
      right. right. right. repeat split; try done. by eexists.
  - done.
Qed.

Lemma exit_codes_witness :
  (kagglehub_available Scenario.offline = false
   /\ Food101.main Scenario.offline Scenario.to_out Scenario.archived
      = ([Stderr "ERROR: 'kagglehub' is not installed. Run: pip install kagglehub"],
         Scenario.archived, SysExit 1))
  /\ (kagglehub_available Scenario.pathless = true
      /\ dataset_download Scenario.pathless Food101.DATASET_REF Scenario.archived
         = Ok (None, Scenario.archived)
      /\ exit_status
           (Food101.main Scenario.pathless Scenario.to_out Scenario.archived).2
         = 2%Z)
  /\ (Food101.main Scenario.hub Scenario.to_out Scenario.hollow).2 = SysExit 3
  /\ last (Food101.main Scenario.hub Scenario.to_out Scenario.hollow).1.1
     = Some (Stderr "ERROR: Could not locate 'images/' and 'meta/' after extraction.").
Proof.
  split; [|split; [|split]].
  - split; [reflexivity|].
    exact (proj1 (exit_codes Scenario.offline Scenario.to_out Scenario.archived)
             eq_refl).
  - split; [reflexivity|]. split; [reflexivity|].
    rewrite (proj1 (proj2 (exit_codes Scenario.pathless Scenario.to_out
                             Scenario.archived))
               Scenario.archived eq_refl eq_refl).
    reflexivity.
  - vm_compute. reflexivity.
  - pose proof (proj1 (proj2 (proj2 (proj2
        (exit_codes Scenario.hub Scenario.to_out Scenario.hollow))))
        (Food101.main Scenario.hub Scenario.to_out Scenario.hollow).1.1
        (Food101.main Scenario.hub Scenario.to_out Scenario.hollow).1.2
        3%Z) as Hcause.
    destruct Hcause as [(Hc & _)|[(Hc & _)|[(Hc & _)|(_ & _ & Hlast & _)]]];
      [vm_compute; reflexivity|done|done|done|exact Hlast].
Defined.

(** C9, as stated, fails in its last clause: what is reported with exit
    code 3 does not depend on what was searched.  Two runs over different
    caches and targets write the same single line, which names neither a
    root nor the target nor an archive. *)
Lemma not_located_report_is_constant :
  (Food101.main Scenario.hub Scenario.to_out Scenario.hollow).2 = SysExit 3
  /\ (Food101.main Scenario.hub Scenario.to_elsewhere Scenario.bare).2 = SysExit 3
  /\ Food101.extractions
       (Food101.main Scenario.hub Scenario.to_out Scenario.hollow).1.1
     = [(["cache"; "images.zip"], ["out"])]
  /\ Food101.extractions
       (Food101.main Scenario.hub Scenario.to_elsewhere Scenario.bare).1.1 = []
  /\ stderr_lines (Food101.main Scenario.hub Scenario.to_out Scenario.hollow).1.1
     = ["ERROR: Could not locate 'images/' and 'meta/' after extraction."]
  /\ stderr_lines
       (Food101.main Scenario.hub Scenario.to_elsewhere Scenario.bare).1.1
     = ["ERROR: Could not locate 'images/' and 'meta/' after extraction."].
Proof. repeat split; vm_compute; reflexivity. Qed.

(** C10.  [os.makedirs] is called before the [try] and before the test for
    the file: when it raises, [utils_image_find] raises, whatever the state
    of the file and whatever the url.  For a bare file name the directory
    name is the empty string, whose creation fails on every POSIX host, so
    that the call raises [FileNotFoundError] although the file exists. *)
Theorem utils_image_find_raises {W : Type} (H : Utility.host W)
  (local_path : string) (url : option string) (w : W) (e : exn) :
  Utility.os_makedirs H (Utility.dirname local_path) w = Raise e ->
  Utility.utils_image_find H local_path url w
  = ([Makedirs (Utility.dirname local_path)], w, Uncaught e).
Proof.
  intros Hmk.
  unfold Utility.utils_image_find. unfold_prog. by rewrite Hmk.
Qed.

Lemma utils_image_find_raises_witness :
  Utility.dirname "img.jpg" = ""
  /\ Utility.os_path_exists Scenario.posix "img.jpg" ["img.jpg"] = true
  /\ Utility.os_makedirs Scenario.posix (Utility.dirname "img.jpg") ["img.jpg"]
     = Raise FileNotFoundError
  /\ Utility.utils_image_find Scenario.posix "img.jpg" None ["img.jpg"]
     = ([Makedirs ""], ["img.jpg"], Uncaught FileNotFoundError).
Proof.
  split; [reflexivity|]. split; [reflexivity|]. split; [reflexivity|].
  exact (utils_image_find_raises Scenario.posix "img.jpg" None ["img.jpg"]
           FileNotFoundError eq_refl).
Defined.

(** * Further properties *)

(** ** The traversal and the search *)

Section Traversal_more.

Variable fs : filesystem.
Variable max_depth : Z.

Lemma resume_start root :
  resume fs max_depth (start root)
  = Some ((root, 0%Z), Walker (Some (root, 0%Z)) [] ({[root]} ∪ ∅)).
Proof.
  unfold resume. rewrite expanded_start. simpl.
  rewrite bool_decide_eq_false_2; [done|]. apply not_elem_of_empty.
Qed.

(** The root is the first entry that is yielded. *)
Lemma iter_dirs_upto_depth_head root :
  exists rest,
    iter_dirs_upto_depth fs max_depth root = (root, 0%Z) :: rest
    /\ yields fs max_depth (Walker (Some (root, 0%Z)) [] ({[root]} ∪ ∅)) rest.
Proof.
  pose proof (iter_dirs_upto_depth_yields fs max_depth root) as Hy.
  inversion Hy as [w Hres|w e w' l Hres Hl]; subst;
    rewrite resume_start in Hres; [done|].
  injection Hres as <- <-. by exists l.
Qed.

Lemma children_nil_root_only root :
  children fs max_depth (root, 0%Z) = [] ->
  iter_dirs_upto_depth fs max_depth root = [(root, 0%Z)].
Proof.
  intros Hch. destruct (iter_dirs_upto_depth_head root) as (rest & -> & Hy).
  f_equal. inversion Hy as [w Hres|w e w' l Hres Hl]; subst; [done|].
  unfold resume, expanded in Hres. simpl in Hres.
  rewrite expand_children, Hch in Hres. done.
Qed.

Lemma reachable_mono (bound : Z) root p d :
  (max_depth <= bound)%Z ->
  reachable fs max_depth root p d -> reachable fs bound root p d.
Proof.
  intros Hle. induction 1 as [|p d names name _ IH Hlt Hit Hname Hdir].
  - constructor.
  - eapply reachable_child; eauto. lia.
Qed.

(** A yielded directory that has both labels makes the search succeed. *)
Lemma find_images_meta_some roots r p d :
  r ∈ roots -> (p, d) ∈ iter_dirs_upto_depth fs max_depth r ->
  has_pair fs p = true ->
  find_images_meta fs max_depth roots <> (None, None).
Proof.
  intros Hr Hin Hp Hnone. unfold find_images_meta in Hnone.
  destruct (find_images_meta_traced_split fs max_depth roots)
    as (pre & rest & Htr & Hpre & Hrest).
  destruct rest as [|[q e] rest].
  - rewrite app_nil_r in Htr. subst pre. rewrite Forall_forall in Hpre.
    assert ((p, d) ∈ traversal fs max_depth roots) as Hin'.
    { unfold traversal. apply list_elem_of_bind. by exists r. }
    specialize (Hpre _ Hin'). simpl in Hpre. congruence.
  - destruct Hrest as [_ Hres]. rewrite Hres in Hnone. simpl in Hnone. congruence.
Qed.

(** What the search returns. *)
Lemma find_images_meta_result roots :
  find_images_meta fs max_depth roots = (None, None)
  \/ exists r p d,
       r ∈ roots /\ reachable fs max_depth r p d /\ has_pair fs p = true
       /\ find_images_meta fs max_depth roots
          = (Some (p // "images"), Some (p // "meta")).
Proof.
  unfold find_images_meta.
  destruct (find_images_meta_traced_split fs max_depth roots)
    as (pre & rest & Htr & Hpre & Hrest).
  destruct rest as [|[p d] rest]; [left; by rewrite Hrest|].
  destruct Hrest as [Hp Hres]. right.
  assert ((p, d) ∈ traversal fs max_depth roots) as Hin.
  { rewrite Htr. apply elem_of_app. right. left. }
  apply list_elem_of_bind in Hin as (r & Hin & Hr).
  pose proof (yields_reachable fs max_depth r) as Hs.
  rewrite Forall_forall in Hs. specialize (Hs _ Hin).
  exists r, p, d. rewrite Hres. by repeat split.
Qed.

End Traversal_more.

(** X1.  The root is yielded first, at depth 0, whether or not it exists or
    is a directory.  When the bound is not positive, when the root cannot be
    listed, or when none of its entries is a directory, the root is all that
    is yielded. *)
Theorem iter_dirs_upto_depth_root (fs : filesystem) (max_depth : Z)
  (root : path) :
  (exists rest, iter_dirs_upto_depth fs max_depth root = (root, 0%Z) :: rest)
  /\ ((max_depth <= 0)%Z
      \/ (exists e, iterdir fs root = Raise e)
      \/ (exists names, iterdir fs root = Ok names
                        /\ Forall (fun n => is_dir fs (root // n) = false) names) ->
      iter_dirs_upto_depth fs max_depth root = [(root, 0%Z)]).
Proof.
  split.
  - destruct (iter_dirs_upto_depth_head fs max_depth root) as (rest & Heq & _).
    by exists rest.
  - intros Hcase. apply children_nil_root_only.
    unfold children, subdirs. simpl.
    destruct Hcase as [Hle|[[e He]|(names & Hn & Hall)]].
    + destruct (Z.ltb_spec 0 max_depth); [lia|done].
    + rewrite He. by destruct (0 <? max_depth)%Z.
    + rewrite Hn. destruct (0 <? max_depth)%Z; [|done]. clear Hn.
      induction Hall as [|n names Hn' _ IH]; [done|].
      rewrite fmap_cons, filter_cons_False; [exact IH|].
      rewrite Hn'. auto.
Qed.

Lemma iter_dirs_upto_depth_root_witness :
  (exists e, iterdir Scenario.guarded ["cache"; "private"] = Raise e)
  /\ iter_dirs_upto_depth Scenario.guarded 3 ["cache"; "private"]
     = [(["cache"; "private"], 0%Z)].
Proof.
  assert (exists e, iterdir Scenario.guarded ["cache"; "private"] = Raise e)
    as Hraise by (exists PermissionError; reflexivity).
  split; [exact Hraise|].
  apply (proj2 (iter_dirs_upto_depth_root Scenario.guarded 3 ["cache"; "private"])).
  right. left. exact Hraise.
Defined.

(** X2.  Every entry that is yielded, other than the root, is a directory
    that was listed in its parent, and its parent is yielded before it, one
    level higher. *)
Theorem yielded_after_parent (fs : filesystem) (max_depth : Z)
  (root c : path) (d : Z) :
  (c, d) ∈ iter_dirs_upto_depth fs max_depth root ->
  (c = root /\ d = 0%Z)
  \/ (is_dir fs c = true
      /\ exists p names name l1 l2 l3,
          c = p // name /\ iterdir fs p = Ok names /\ name ∈ names
          /\ iter_dirs_upto_depth fs max_depth root
             = l1 ++ (p, (d - 1)%Z) :: l2 ++ (c, d) :: l3).
Proof.
  intros Hin.
  pose proof (yields_reachable fs max_depth root) as Hs.
  rewrite Forall_forall in Hs. specialize (Hs _ Hin). simpl in Hs.
  inversion Hs as [|p d' names name Hp Hlt Hit Hname Hdir]; subst; [by left|].
  right. split; [done|]. exists p, names, name.
  apply reachable_yielded in Hp.
  apply list_elem_of_split in Hp as (l1 & rest & Heq).
  pose proof (iter_dirs_upto_depth_sorted fs max_depth root) as Hsort.
  rewrite Heq in Hin, Hsort.
  apply StronglySorted_app in Hsort as (Hcross & _ & Hrest).
  apply elem_of_app in Hin as [Hin|Hin].
  { specialize (Hcross _ (p, d') Hin ltac:(left)).
    unfold depth_le in Hcross. simpl in Hcross. lia. }
  apply elem_of_cons in Hin as [Hin|Hin]; [injection Hin; lia|].
  apply list_elem_of_split in Hin as (l2 & l3 & ->).
  exists l1, l2, l3. repeat split; try done.
  rewrite Heq. by replace (d' + 1 - 1)%Z with d' by lia.
Qed.

Lemma yielded_after_parent_witness :
  (["cache"; "deep"; "a"], 2%Z)
    ∈ iter_dirs_upto_depth Scenario.nested 3 Scenario.cache
  /\ ((["cache"; "deep"; "a"] = Scenario.cache /\ 2%Z = 0%Z)
      \/ (is_dir Scenario.nested ["cache"; "deep"; "a"] = true
          /\ exists p names name l1 l2 l3,
              ["cache"; "deep"; "a"] = p // name
              /\ iterdir Scenario.nested p = Ok names /\ name ∈ names
              /\ iter_dirs_upto_depth Scenario.nested 3 Scenario.cache
                 = l1 ++ (p, (2 - 1)%Z) :: l2
                      ++ (["cache"; "deep"; "a"], 2%Z) :: l3)).
Proof.
  assert ((["cache"; "deep"; "a"], 2%Z)
            ∈ iter_dirs_upto_depth Scenario.nested 3 Scenario.cache) as Hin.
  { vm_compute iter_dirs_upto_depth. apply list_elem_of_In. simpl. tauto. }
  split; [exact Hin|].
  exact (yielded_after_parent Scenario.nested 3 Scenario.cache
           ["cache"; "deep"; "a"] 2%Z Hin).
Defined.

(** X3.  When the first candidate itself has both labels, they are returned
    at once: only that candidate is visited, and neither the bound nor the
    other candidates matter. *)
Theorem find_images_meta_direct (fs : filesystem) (max_depth : Z)
  (r : path) (roots : list path) :
  has_pair fs r = true ->
  find_images_meta_traced fs max_depth (r :: roots)
  = ((Some (r // "images"), Some (r // "meta")), [(r, 0%Z)]).
Proof.
  intros Hp. rewrite find_images_meta_traced_cons.
  destruct (iter_dirs_upto_depth_head fs max_depth r) as (rest & -> & _).
  simpl. by rewrite Hp.
Qed.

Lemma find_images_meta_direct_witness :
  has_pair Scenario.flat Scenario.cache = true
  /\ find_images_meta_traced Scenario.flat 0 [Scenario.cache; ["elsewhere"]]
     = ((Some ["cache"; "images"], Some ["cache"; "meta"]),
        [(Scenario.cache, 0%Z)]).
Proof.
  split; [reflexivity|].
  exact (find_images_meta_direct Scenario.flat 0 Scenario.cache [["elsewhere"]]
           eq_refl).
Defined.

(** X4.  The search returns either [(None, None)] or the two label
    subdirectories of one directory that has both labels and is reachable,
    within the bound, from one of the candidates; it never returns one
    directory without the other.  It finds a pair exactly when such a
    directory exists. *)
Theorem find_images_meta_found_iff (fs : filesystem) (max_depth : Z)
  (roots : list path) :
  (find_images_meta fs max_depth roots = (None, None)
   \/ exists r p d,
        r ∈ roots /\ reachable fs max_depth r p d /\ has_pair fs p = true
        /\ find_images_meta fs max_depth roots
           = (Some (p // "images"), Some (p // "meta")))
  /\ (find_images_meta fs max_depth roots <> (None, None)
      <-> exists r p d,
            r ∈ roots /\ reachable fs max_depth r p d /\ has_pair fs p = true).
Proof.
  split; [apply find_images_meta_result|]. split.
  - intros Hne. destruct (find_images_meta_result fs max_depth roots)
      as [Hnone|(r & p & d & Hr & Hreach & Hp & _)]; [done|].
    by exists r, p, d.
  - intros (r & p & d & Hr & Hreach & Hp).
    eapply find_images_meta_some; [exact Hr| |exact Hp].
    apply reachable_yielded, Hreach.
Qed.

(** X5.  Raising the bound never loses a result: if the search finds a pair
    with one bound it finds a pair with every larger bound. *)
Theorem find_images_meta_deeper (fs : filesystem) (max_depth bound : Z)
  (roots : list path) :
  (max_depth <= bound)%Z ->
  find_images_meta fs max_depth roots <> (None, None) ->
  find_images_meta fs bound roots <> (None, None).
Proof.
  intros Hle Hfound.
  destruct (find_images_meta_result fs max_depth roots)
    as [Hnone|(r & p & d & Hr & Hreach & Hp & _)]; [done|].
  eapply find_images_meta_some; [exact Hr| |exact Hp].
  apply reachable_yielded. by eapply reachable_mono.
Qed.

Lemma find_images_meta_deeper_witness :
  (2 <= 3)%Z
  /\ find_images_meta Scenario.nested 2 [Scenario.cache] <> (None, None)
  /\ find_images_meta Scenario.nested 3 [Scenario.cache] <> (None, None).
Proof.
  assert (find_images_meta Scenario.nested 2 [Scenario.cache] <> (None, None))
    as Hfound by (vm_compute; discriminate).
  split; [lia|]. split; [exact Hfound|].
  apply (find_images_meta_deeper Scenario.nested 2 3 [Scenario.cache]);
    [lia|exact Hfound].
Defined.

(** X6.  Searching a list of candidates followed by another is searching
    the first list and, only if that finds nothing, the second. *)
Theorem find_images_meta_candidates_app (fs : filesystem) (max_depth : Z)
  (roots1 roots2 : list path) :
  find_images_meta fs max_depth (roots1 ++ roots2)
  = if decide (find_images_meta fs max_depth roots1 = (None, None))
    then find_images_meta fs max_depth roots2
    else find_images_meta fs max_depth roots1.
Proof.
  unfold find_images_meta.
  induction roots1 as [|r roots1 IH]; simpl app.
  - by case_decide.
  - rewrite !find_images_meta_traced_cons.
    destruct (first_hit fs (iter_dirs_upto_depth fs max_depth r))
      as [[img met|] v]; simpl.
    + by case_decide.
    + exact IH.
Qed.

(** ** Archives *)

Section Archives_more.

Import Food101.

Lemma name_of_joinpath (p : path) (name : string) : name_of (p // name) = name.
Proof. unfold name_of, joinpath. apply last_last. Qed.

Lemma class_of_suffix name c :
  class_of name = Some c -> endswith_any (lower name) exts = true.
Proof. unfold class_of. by destruct (endswith_any (lower name) exts). Qed.

Lemma last_of_class_Some c files p :
  last_of_class c files = Some p -> p ∈ files /\ class_of (name_of p) = Some c.
Proof.
  unfold last_of_class. intros Hl. apply last_Some_elem_of in Hl.
  apply list_elem_of_filter in Hl. tauto.
Qed.

Lemma last_of_class_None c files :
  Forall (fun p => class_of (name_of p) = None) files ->
  last_of_class c files = None.
Proof.
  unfold last_of_class. intros Hall.
  induction Hall as [|p files Hp _ IH]; [done|].
  rewrite filter_cons_False; [done|]. congruence.
Qed.

Lemma elem_of_scanned fs candidates p :
  p ∈ scanned fs candidates <->
  is_file fs p = true
  /\ exists root name,
      root ∈ candidates /\ name ∈ glob_star fs root /\ p = root // name.
Proof.
  unfold scanned. rewrite list_elem_of_filter, list_elem_of_bind. split.
  - intros [Hf (root & Hp & Hroot)].
    apply list_elem_of_fmap in Hp as (name & -> & Hname).
    split; [by apply Is_true_eq_true|]. by exists root, name.
  - intros [Hf (root & name & Hroot & Hname & ->)].
    split; [by apply Is_true_eq_left|]. exists root. split; [|done].
    by apply list_elem_of_fmap_2.
Qed.

(** The suffixes of [exts] are the three that go to [tarfile] and the one
    that goes to [zipfile]. *)
Lemma exts_split low :
  endswith_any low exts
  = endswith_any low [".tar.gz"; ".tgz"; ".tar"] || endswith low ".zip".
Proof.
  unfold endswith_any, exts. simpl. rewrite !orb_false_r.
  by rewrite !orb_assoc.
Qed.

(** A name that ends in [.zip] ends in none of the tar suffixes. *)
Lemma zip_not_tar low :
  endswith low ".zip" = true ->
  endswith_any low [".tar.gz"; ".tgz"; ".tar"] = false.
Proof.
  unfold endswith_any, endswith. simpl existsb.
  change (String.rev ".zip") with "piz.".
  change (String.rev ".tar.gz") with "zg.rat.".
  change (String.rev ".tgz") with "zgt.".
  change (String.rev ".tar") with "rat.".
  intros (s' & -> & _)%startswith_cons. done.
Qed.

Variable E : externals.

Lemma extract_any_run a d fs :
  extract_any E a d fs =
  match mkdir_parents E d fs with
  | Raise e => ([Mkdir d], fs, Uncaught e)
  | Ok fs1 =>
      if endswith_any (lower (name_of a)) [".tar.gz"; ".tgz"; ".tar"] then
        match tar_extractall E a d fs1 with
        | Ok fs2 => ([Mkdir d; TarExtractall a d], fs2, Value tt)
        | Raise e => ([Mkdir d; TarExtractall a d], fs1, Uncaught e)
        end
      else if endswith (lower (name_of a)) ".zip" then
        match zip_extractall E a d fs1 with
        | Ok fs2 => ([Mkdir d; ZipExtractall a d], fs2, Value tt)
        | Raise e => ([Mkdir d; ZipExtractall a d], fs1, Uncaught e)
        end
      else
        ([Mkdir d], fs1,
         Uncaught (ValueError ("Unsupported archive format: " +:+ show_path a)))
  end.
Proof.
  unfold extract_any. unfold_prog.
  destruct (mkdir_parents E d fs) as [fs1|e]; [|done].
  destruct (endswith_any _ _).
  - by destruct (tar_extractall E a d fs1).
  - destruct (endswith _ _); [|done]. by destruct (zip_extractall E a d fs1).
Qed.

Lemma extract_found_nothing out_dir fs :
  extract_found E (Archives None None None) out_dir fs
  = ([], fs, Value (find_images_meta fs 2 [out_dir])).
Proof. reflexivity. Qed.

End Archives_more.

(** X7.  Every archive that the scan keeps is a regular file directly inside
    one of the candidate roots, and its name has one of the suffixes that
    [extract_any] handles: once the destination is made, [extract_any]
    calls an extractor on it and never rejects it as unsupported. *)
Theorem kept_archives_extractable (E : externals) (fs : filesystem)
  (candidates : list path) (a : path) :
  Food101.images_archive (Food101.scan_archives fs candidates) = Some a
  \/ Food101.meta_archive (Food101.scan_archives fs candidates) = Some a
  \/ Food101.food101_archive (Food101.scan_archives fs candidates) = Some a ->
  is_file fs a = true
  /\ (exists root name,
         root ∈ candidates /\ name ∈ glob_star fs root /\ a = root // name)
  /\ forall d fs0 fs1,
       mkdir_parents E d fs0 = Ok fs1 ->
       Food101.extractions (Food101.extract_any E a d fs0).1.1 = [(a, d)].
Proof.
  rewrite scan_archives_last. simpl. intros Hkept.
  assert (exists c, a ∈ Food101.scanned fs candidates
                    /\ Food101.class_of (name_of a) = Some c) as (c & Hin & Hc).
  { destruct Hkept as [H|[H|H]]; apply last_of_class_Some in H as [??]; eauto. }
  apply elem_of_scanned in Hin as [Hfile Hplace].
  split; [done|]. split; [done|].
  intros d fs0 fs1 Hmk. apply class_of_suffix in Hc.
  rewrite exts_split in Hc. rewrite extract_any_run, Hmk.
  destruct (endswith_any (lower (name_of a)) [".tar.gz"; ".tgz"; ".tar"]).
  - by destruct (tar_extractall E a d fs1).
  - simpl in Hc. rewrite Hc. by destruct (zip_extractall E a d fs1).
Qed.

Lemma kept_archives_extractable_witness :
  Food101.food101_archive (Food101.scan_archives Scenario.archived [Scenario.cache])
  = Some ["cache"; "food-101.tar"]
  /\ mkdir_parents Scenario.hub ["out"] Scenario.archived
     = Ok (Scenario.overlay ["out"] Scenario.empty_dir Scenario.archived)
  /\ Food101.extractions
       (Food101.extract_any Scenario.hub ["cache"; "food-101.tar"] ["out"]
          Scenario.archived).1.1
     = [(["cache"; "food-101.tar"], ["out"])].
Proof.
  assert (Food101.food101_archive
            (Food101.scan_archives Scenario.archived [Scenario.cache])
          = Some ["cache"; "food-101.tar"]) as Hkept by (vm_compute; reflexivity).
  split; [exact Hkept|]. split; [reflexivity|].
  exact (proj2 (proj2 (kept_archives_extractable Scenario.hub Scenario.archived
                         [Scenario.cache] ["cache"; "food-101.tar"]
                         (or_intror (or_intror Hkept))))
           ["out"] Scenario.archived _ eq_refl).
Defined.

(** X8.  [extract_any] makes the destination before it looks at the name.
    Then a name with a tar suffix goes to [tarfile], a name ending in [.zip]
    goes to [zipfile], in either case whatever the case of its letters, and
    any other name raises [ValueError], leaving the destination made and
    nothing extracted. *)
Theorem extract_any_dispatch (E : externals) (a d : path)
  (fs fs1 : filesystem) :
  mkdir_parents E d fs = Ok fs1 ->
  let low := lower (name_of a) in
  (endswith_any low [".tar.gz"; ".tgz"; ".tar"] = true ->
   (Food101.extract_any E a d fs).1.1 = [Mkdir d; TarExtractall a d])
  /\ (endswith low ".zip" = true ->
      (Food101.extract_any E a d fs).1.1 = [Mkdir d; ZipExtractall a d])
  /\ (endswith_any low Food101.exts = false ->
      Food101.extract_any E a d fs
      = ([Mkdir d], fs1,
         Uncaught (ValueError ("Unsupported archive format: " +:+ show_path a)))).
Proof.
  intros Hmk low. rewrite extract_any_run, Hmk. fold low.
  split; [|split].
  - intros ->. by destruct (tar_extractall E a d fs1).
  - intros Hzip. rewrite (zip_not_tar _ Hzip), Hzip.
    by destruct (zip_extractall E a d fs1).
  - rewrite exts_split. intros [-> ->]%orb_false_elim. done.
Qed.

Lemma extract_any_dispatch_witness :
  mkdir_parents Scenario.hub ["out"] Scenario.archived
  = Ok (Scenario.overlay ["out"] Scenario.empty_dir Scenario.archived)
  /\ endswith (lower (name_of ["cache"; "IMAGES.ZIP"])) ".zip" = true
  /\ (Food101.extract_any Scenario.hub ["cache"; "IMAGES.ZIP"] ["out"]
        Scenario.archived).1.1
     = [Mkdir ["out"]; ZipExtractall ["cache"; "IMAGES.ZIP"] ["out"]]
  /\ endswith_any (lower (name_of ["cache"; "images.rar"])) Food101.exts = false
  /\ (Food101.extract_any Scenario.hub ["cache"; "images.rar"] ["out"]
        Scenario.archived).2
     = Uncaught (ValueError "Unsupported archive format: cache/images.rar").
Proof.
  split; [reflexivity|]. split; [reflexivity|]. split.
  - exact (proj1 (proj2 (extract_any_dispatch Scenario.hub
                           ["cache"; "IMAGES.ZIP"] ["out"] Scenario.archived _
                           eq_refl)) eq_refl).
  - split; [reflexivity|].
    rewrite (proj2 (proj2 (extract_any_dispatch Scenario.hub
                             ["cache"; "images.rar"] ["out"] Scenario.archived _
                             eq_refl)) eq_refl).
    reflexivity.
Defined.

(** X9.  When the first search finds nothing and no file met by the scan
    has an archive class, nothing is made or extracted and the file system
    is left as it is: the stage ends with the second search, which gives the
    directories or exit code 3. *)
Theorem locate_without_archives (E : externals) (cache_dir out_dir : path)
  (fs : filesystem) :
  Food101.both (find_images_meta fs 3 (Food101.candidate_roots fs cache_dir))
  = None ->
  Forall (fun p => Food101.class_of (name_of p) = None)
         (Food101.scanned fs (Food101.candidate_roots fs cache_dir)) ->
  Food101.locate E cache_dir out_dir fs
  = match Food101.both (find_images_meta fs 2 [out_dir]) with
    | Some dirs => ([Stdout Food101.banner_search], fs, Value dirs)
    | None =>
        ([Stdout Food101.banner_search; Stderr Food101.msg_not_located], fs,
         SysExit 3)
    end.
Proof.
  intros Hnone Hall. rewrite locate_run. cbv zeta. rewrite Hnone.
  rewrite scan_archives_last, !last_of_class_None by done.
  rewrite extract_found_nothing.
  by destruct (Food101.both (find_images_meta fs 2 [out_dir])).
Qed.

Lemma locate_without_archives_witness :
  Food101.both
    (find_images_meta Scenario.cluttered 3
       (Food101.candidate_roots Scenario.cluttered Scenario.cache))
  = None
  /\ Food101.scanned Scenario.cluttered
       (Food101.candidate_roots Scenario.cluttered Scenario.cache)
     = [ ["cache"; "readme.txt"]; ["cache"; "images.rar"];
         ["cache"; "my-images.zip"] ]
  /\ Forall (fun p => Food101.class_of (name_of p) = None)
            (Food101.scanned Scenario.cluttered
               (Food101.candidate_roots Scenario.cluttered Scenario.cache))
  /\ Food101.locate Scenario.hub Scenario.cache ["out"] Scenario.cluttered
     = ([Stdout Food101.banner_search; Stderr Food101.msg_not_located],
        Scenario.cluttered, SysExit 3).
Proof.
  assert (Food101.scanned Scenario.cluttered
            (Food101.candidate_roots Scenario.cluttered Scenario.cache)
          = [ ["cache"; "readme.txt"]; ["cache"; "images.rar"];
              ["cache"; "my-images.zip"] ]) as Hscanned
    by (vm_compute; reflexivity).
  assert (Forall (fun p => Food101.class_of (name_of p) = None)
            (Food101.scanned Scenario.cluttered
               (Food101.candidate_roots Scenario.cluttered Scenario.cache)))
    as Hnone.
  { rewrite Hscanned. repeat (apply Forall_cons; split); try apply Forall_nil;
      reflexivity. }
  split; [vm_compute; reflexivity|]. split; [exact Hscanned|].
  split; [exact Hnone|].
  exact (locate_without_archives Scenario.hub Scenario.cache ["out"]
           Scenario.cluttered eq_refl Hnone).
Defined.

(** ** What the download scripts do to the file system *)

Section Traces.

Context {S : Type}.

(** A property of the events of a sequence follows from the property of
    its parts. *)
Lemma bind_trace_Forall {A B : Type} (P : event -> Prop)
  (m : prog S A) (k : A -> prog S B) (s : S) :
  Forall P (m s).1.1 ->
  (forall tr1 s1 a, m s = (tr1, s1, Value a) -> Forall P (k a s1).1.1) ->
  Forall P ((m ≫= k) s).1.1.
Proof.
  intros Hm Hk. unfold_prog.
  destruct (m s) as [[tr1 s1] [a|c|e]]; simpl in *; try done.
  specialize (Hk tr1 s1 a eq_refl).
  destruct (k a s1) as [[tr2 s2] o]. simpl in *. by apply Forall_app.
Qed.

End Traces.

Section Food101_traces.

Import Food101 Safety.

Variable E : externals.
Variables (force existed : bool) (out_dir : path).

Lemma extract_any_trace a fs :
  Forall (food101_event force existed out_dir) (extract_any E a out_dir fs).1.1.
Proof. rewrite extract_any_run. repeat case_match; by repeat constructor. Qed.

Lemma extract_found_trace found fs :
  Forall (food101_event force existed out_dir)
         (extract_found E found out_dir fs).1.1.
Proof.
  unfold extract_found.
  destruct (food101_archive found) as [a|];
    [|destruct (images_archive found) as [i|], (meta_archive found) as [m|]];
    repeat first
      [ apply extract_any_trace
      | apply bind_trace_Forall; [|intros ? ? ? ?]
      | by repeat constructor ].
Qed.

Lemma locate_trace cache_dir fs :
  Forall (food101_event force existed out_dir)
         (locate E cache_dir out_dir fs).1.1.
Proof.
  rewrite locate_run. cbv zeta. pose proof (extract_found_trace
    (scan_archives fs (candidate_roots fs cache_dir)) fs) as Hx.
  repeat case_match; simplify_eq; simpl in *;
    repeat first [ done | apply Forall_cons; split | apply Forall_app; split
                 | by repeat constructor ].
Qed.

Lemma place_trace step label src fs (target : path) :
  target = out_dir // "images" \/ target = out_dir // "meta" ->
  Forall (food101_event force existed out_dir)
         (place E step label src target fs).1.1.
Proof.
  intros Ht. rewrite place_run.
  repeat case_match; simpl; repeat (apply Forall_cons; split);
    try apply Forall_nil; simpl; done.
Qed.

Lemma finalize_trace images_dir meta_dir fs :
  Forall (food101_event force existed out_dir)
         (finalize E out_dir images_dir meta_dir fs).1.1.
Proof.
  unfold finalize.
  apply bind_trace_Forall; [apply place_trace; by left|intros ? ? ? _].
  apply bind_trace_Forall; [apply place_trace; by right|intros ? ? ? _].
  apply bind_trace_Forall.
  { destruct (count_classes (out_dir // "images") s0) as [[tr fs'] o] eqn:Hc.
    apply count_classes_silent in Hc as [-> _]. constructor. }
  intros ? ? ? _.
  repeat first [ apply bind_trace_Forall; [|intros ? ? ? ?]
               | by repeat constructor ].
Qed.

End Food101_traces.

(** X10.  Whatever the collaborators do, [main] of [download_food101.py]
    removes nothing but the resolved target, and that only under [--force]
    and only when the target existed; it makes no directory but the target,
    extracts archives into the target only, and copies trees only to its
    [images] and [meta] subdirectories.  When the download gives no path or
    raises, it only prints. *)
Theorem food101_main_confined (E : externals) (a : args) (fs : filesystem) :
  match dataset_download E Food101.DATASET_REF fs with
  | Ok (Some cache_path, fs1) =>
      let out_dir := resolve fs1 (expanduser E (out a)) in
      Forall (Safety.food101_event (force a) (path_exists fs1 out_dir) out_dir)
             (Food101.main E a fs).1.1
  | _ =>
      Forall (Safety.quiet_event Food101.DATASET_REF) (Food101.main E a fs).1.1
  end.
Proof.
  rewrite main_run, prepare_run.
  destruct (kagglehub_available E).
  2: { destruct (dataset_download E Food101.DATASET_REF fs) as [[[cp|] fs1]|e];
       by repeat constructor. }
  destruct (dataset_download E Food101.DATASET_REF fs) as [[[cp|] fs1]|e];
    [|by repeat constructor|by repeat constructor].
  cbv zeta. set (out_dir := resolve fs1 (expanduser E (out a))).
  set (P := Safety.food101_event (force a) (path_exists fs1 out_dir) out_dir).
  assert (Forall P (handle_existing E (force a) out_dir fs1).1.1) as Hhe.
  { rewrite handle_existing_run.
    destruct (path_exists fs1 out_dir) eqn:Hex; [|constructor].
    destruct (force a) eqn:Hf; [|by repeat constructor].
    destruct (rmtree E out_dir fs1); simpl;
      repeat (apply Forall_cons; split); try apply Forall_nil; simpl;
      by rewrite ?Hf, ?Hex. }
  destruct (handle_existing E (force a) out_dir fs1) as [[tr2 fs2] [[]|c|e]];
    simpl in Hhe.
  - destruct (mkdir_parents E out_dir fs2) as [fs3|e]; simpl.
    + pose proof (locate_trace E (force a) (path_exists fs1 out_dir) out_dir
                    (resolve fs1 cp) fs3) as Hl.
      fold P in Hl.
      destruct (Food101.locate E (resolve fs1 cp) out_dir fs3)
        as [[tr3 fs4] [[i m]|c|e]]; simpl in Hl.
      * pose proof (finalize_trace E (force a) (path_exists fs1 out_dir) out_dir
                      i m fs4) as Hf.
        fold P in Hf.
        destruct (Food101.finalize E out_dir i m fs4) as [[tr4 fs5] o].
        simpl in *. repeat (apply Forall_cons; split); try done.
        repeat (apply Forall_app; split); try done. by repeat constructor.
      * simpl. repeat (apply Forall_cons; split); try done.
        repeat (apply Forall_app; split); try done. by repeat constructor.
      * simpl. repeat (apply Forall_cons; split); try done.
        repeat (apply Forall_app; split); try done. by repeat constructor.
    + repeat (apply Forall_cons; split); try done.
      repeat (apply Forall_app; split); try done. by repeat constructor.
  - simpl. by repeat (apply Forall_cons; split).
  - simpl. by repeat (apply Forall_cons; split).
Qed.

(** ** The scripts that copy the cache *)

Section Copy_scripts.

Import CopyScript.

Variable E : externals.

Lemma food11_main_run a fs :
  Food11.main E a fs
  = copy_run E Food11.DATASET_REF food11_lines (out a) (force a) fs.
Proof.
  unfold Food11.main, copy_run, shutil_copytree. unfold_prog.
  destruct (kagglehub_available E); [|done].
  destruct (dataset_download E Food11.DATASET_REF fs) as [[[cp|] fs1]|e];
    try done.
  destruct (handle_existing E (force a) _ fs1) as [[tr fs2] [[]|c|e]];
    try done.
  simpl. destruct (mkdir_parents E _ fs2) as [fs3|e]; [|done].
  simpl. destruct (iterdir fs3 _) as [names|e]; [|done].
  simpl. destruct (copy_tree E _ _ fs3) as [fs4|e]; [|done].
  simpl. by rewrite ?app_nil_r.
Qed.

Lemma nutrition5k_main_run a fs :
  Nutrition5k.main E a fs
  = copy_run E (Nutrition5k.ref a) nutrition5k_lines
      (Nutrition5k.out a) (Nutrition5k.force a) fs.
Proof.
  unfold Nutrition5k.main, copy_run, shutil_copytree. unfold_prog.
  destruct (kagglehub_available E); [|done].
  destruct (dataset_download E (Nutrition5k.ref a) fs) as [[[cp|] fs1]|e];
    try done.
  destruct (handle_existing E (Nutrition5k.force a) _ fs1)
    as [[tr fs2] [[]|c|e]]; try done.
  simpl. destruct (mkdir_parents E _ fs2) as [fs3|e]; [|done].
  simpl. destruct (iterdir fs3 _) as [names|e]; [|done].
  simpl. destruct (copy_tree E _ _ fs3) as [fs4|e]; [|done].
  simpl. by rewrite ?app_nil_r.
Qed.

Lemma copy_run_exit ref lines out force fs tr fs' code :
  copy_run E ref lines out force fs = (tr, fs', SysExit code) ->
  (code = 1%Z /\ kagglehub_available E = false /\ fs' = fs)
  \/ (code = 2%Z /\ dataset_download E ref fs = Ok (None, fs'))
  \/ (code = 0%Z /\ force = false
      /\ path_exists fs' (resolve fs' (expanduser E out)) = true
      /\ exists cache_path, dataset_download E ref fs = Ok (Some cache_path, fs')).
Proof.
  unfold copy_run.
  destruct (kagglehub_available E); [|intros [= <- <- <-]; by left].
  destruct (dataset_download E ref fs) as [[[cp|] fs1]|e];
    [|intros [= <- <- <-]; right; by left|done].
  cbv zeta. rewrite handle_existing_run.
  destruct (path_exists fs1 _) eqn:Hex.
  - destruct force.
    + destruct (rmtree E _ fs1) as [fs2|e]; [|done].
      by repeat case_match.
    + intros [= <- <- <-]. right. right. repeat split; eauto.
  - by repeat case_match.
Qed.

Lemma copy_run_trace ref lines out force fs :
  match dataset_download E ref fs with
  | Ok (Some cache_path, fs1) =>
      let out_dir := resolve fs1 (expanduser E out) in
      Forall (Safety.copy_event ref force (path_exists fs1 out_dir)
                (resolve fs1 cache_path) out_dir)
             (copy_run E ref lines out force fs).1.1
  | _ => Forall (Safety.quiet_event ref) (copy_run E ref lines out force fs).1.1
  end.
Proof.
  unfold copy_run.
  destruct (kagglehub_available E).
  2: { destruct (dataset_download E ref fs) as [[[cp|] fs1]|e];
       by repeat constructor. }
  destruct (dataset_download E ref fs) as [[[cp|] fs1]|e];
    [|by repeat constructor|by repeat constructor].
  cbv zeta. rewrite handle_existing_run.
  assert (forall l : list string,
             Forall (Safety.copy_event ref force
                       (path_exists fs1 (resolve fs1 (expanduser E out)))
                       (resolve fs1 cp) (resolve fs1 (expanduser E out)))
                    (Stdout <$> l)) as Hlines.
  { intros l. induction l; by constructor. }
  destruct (path_exists fs1 _) eqn:Hex; [destruct force eqn:Hf|];
    repeat case_match; simplify_eq; simpl;
    repeat (apply Forall_cons; split); try apply Hlines;
    try apply Forall_nil; simpl; done.
Qed.

End Copy_scripts.

(** X11.  [main] of [download_food11.py] and of [download_nutrition5k.py]
    call [sys.exit] with 1, 2 or 0 only: 1 when [kagglehub] is missing,
    before anything is done; 2 when the download returns no path; 0 when
    the target exists and [--force] is not given.  Neither has an exit
    code for a failed copy: that ends in an uncaught exception. *)
Theorem copy_scripts_exit_codes (E : externals) (fs : filesystem) :
  (forall a tr fs' code,
      Food11.main E a fs = (tr, fs', SysExit code) ->
      (code = 1%Z /\ kagglehub_available E = false /\ fs' = fs)
      \/ (code = 2%Z /\ dataset_download E Food11.DATASET_REF fs = Ok (None, fs'))
      \/ (code = 0%Z /\ force a = false
          /\ path_exists fs' (resolve fs' (expanduser E (out a))) = true
          /\ exists cache_path,
              dataset_download E Food11.DATASET_REF fs = Ok (Some cache_path, fs')))
  /\ (forall a tr fs' code,
        Nutrition5k.main E a fs = (tr, fs', SysExit code) ->
        (code = 1%Z /\ kagglehub_available E = false /\ fs' = fs)
        \/ (code = 2%Z
            /\ dataset_download E (Nutrition5k.ref a) fs = Ok (None, fs'))
        \/ (code = 0%Z /\ Nutrition5k.force a = false
            /\ path_exists fs' (resolve fs' (expanduser E (Nutrition5k.out a))) = true
            /\ exists cache_path,
                dataset_download E (Nutrition5k.ref a) fs
                = Ok (Some cache_path, fs'))).
Proof.
  split; intros a tr fs' code.
  - rewrite food11_main_run. apply copy_run_exit.
  - rewrite nutrition5k_main_run. apply copy_run_exit.
Qed.

Lemma copy_scripts_exit_codes_witness :
  Food11.main Scenario.hub Scenario.to_out Scenario.occupied
  = ([Stdout "[1/3] Downloading via kagglehub: trolukovich/food11-image-dataset";
      DatasetDownload "trolukovich/food11-image-dataset";
      Stdout "[2/3] KaggleHub cache at: cache";
      Stdout "[skip] Output folder already exists: out";
      Stdout "       Use --force to overwrite, or choose a different --out path."],
     Scenario.occupied, SysExit 0)
  /\ force Scenario.to_out = false
  /\ path_exists Scenario.occupied ["out"] = true.
Proof.
  assert (Food11.main Scenario.hub Scenario.to_out Scenario.occupied
          = ([Stdout "[1/3] Downloading via kagglehub: trolukovich/food11-image-dataset";
              DatasetDownload "trolukovich/food11-image-dataset";
              Stdout "[2/3] KaggleHub cache at: cache";
              Stdout "[skip] Output folder already exists: out";
              Stdout "       Use --force to overwrite, or choose a different --out path."],
             Scenario.occupied, SysExit 0)) as Hrun by reflexivity.
  split; [exact Hrun|].
  destruct (proj1 (copy_scripts_exit_codes Scenario.hub Scenario.occupied)
              _ _ _ _ Hrun)
    as [(Hc & _)|[(Hc & _)|(_ & Hf & Hex & _)]]; [done|done|].
  split; [exact Hf|exact Hex].
Defined.

(** X12.  Whatever the collaborators do, the two copy scripts remove
    nothing but the resolved target, and that only under [--force] and only
    when it existed; the only directory they make is the parent of the
    target, and the only copy is that of the resolved cache onto the
    target.  [download_nutrition5k.py] asks for the data set named by
    [--ref]. *)
Theorem copy_scripts_confined (E : externals) (fs : filesystem) :
  (forall a,
      match dataset_download E Food11.DATASET_REF fs with
      | Ok (Some cache_path, fs1) =>
          let out_dir := resolve fs1 (expanduser E (out a)) in
          Forall (Safety.copy_event Food11.DATASET_REF (force a)
                    (path_exists fs1 out_dir) (resolve fs1 cache_path) out_dir)
                 (Food11.main E a fs).1.1
      | _ =>
          Forall (Safety.quiet_event Food11.DATASET_REF) (Food11.main E a fs).1.1
      end)
  /\ (forall a,
        match dataset_download E (Nutrition5k.ref a) fs with
        | Ok (Some cache_path, fs1) =>
            let out_dir := resolve fs1 (expanduser E (Nutrition5k.out a)) in
            Forall (Safety.copy_event (Nutrition5k.ref a) (Nutrition5k.force a)
                      (path_exists fs1 out_dir) (resolve fs1 cache_path) out_dir)
                   (Nutrition5k.main E a fs).1.1
        | _ =>
            Forall (Safety.quiet_event (Nutrition5k.ref a))
                   (Nutrition5k.main E a fs).1.1
        end).
Proof.
  split; intros a.
  - rewrite food11_main_run. apply copy_run_trace.
  - rewrite nutrition5k_main_run. apply copy_run_trace.
Qed.

(** X13.  With [--ref] set to the data set of [download_food11.py],
    [download_nutrition5k.py] does what [download_food11.py] does, call for
    call, and prints one more line when it reaches the end. *)
Theorem nutrition5k_as_food11 (E : externals) (a : args) (fs : filesystem) :
  Nutrition5k.main E
    (Nutrition5k.Args (out a) Food11.DATASET_REF (force a)) fs
  = match Food11.main E a fs with
    | (tr, fs', Value _) => (tr ++ [Stdout Nutrition5k.msg_note], fs', Value tt)
    | other => other
    end.
Proof.
  rewrite food11_main_run, nutrition5k_main_run. simpl.
  unfold CopyScript.copy_run.
  repeat case_match; simplify_eq; try done.
  unfold CopyScript.nutrition5k_lines. rewrite fmap_app. simpl.
  by rewrite <- !app_assoc.
Qed.

(** ** Path strings: [dirname], [basename], [join] *)

Section Path_strings.

Import Utility Detection PathString.

Lemma chars_app (a b : string) :
  list_ascii_of_string (a +:+ b)
  = list_ascii_of_string a ++ list_ascii_of_string b.
Proof.
  induction a as [|c a IH]; [done|].
  change (String c a +:+ b) with (String c (a +:+ b)). simpl. by rewrite IH.
Qed.

Lemma chars_rev_app (s acc : string) :
  list_ascii_of_string (String.rev_app s acc)
  = rev (list_ascii_of_string s) ++ list_ascii_of_string acc.
Proof.
  revert acc. induction s as [|c s IH]; intros acc; [done|].
  simpl. rewrite IH. simpl. by rewrite <- app_assoc.
Qed.

Lemma chars_rev (s : string) :
  list_ascii_of_string (String.rev s) = rev (list_ascii_of_string s).
Proof. unfold String.rev. by rewrite chars_rev_app, app_nil_r. Qed.

Lemma drop_while_all (f : ascii -> bool) (l rest : list ascii) :
  forallb f l = true -> drop_while f (l ++ rest) = drop_while f rest.
Proof.
  induction l as [|c l IH]; [done|]. simpl.
  intros [-> Hl]%andb_true_iff. by apply IH.
Qed.

Lemma take_while_all (f : ascii -> bool) (l : list ascii) :
  forallb f l = true -> take_while f l = l.
Proof.
  induction l as [|c l IH]; [done|]. simpl.
  intros [-> Hl]%andb_true_iff. by rewrite IH.
Qed.

Lemma take_while_stop (f : ascii -> bool) (l rest : list ascii) (c : ascii) :
  forallb f l = true -> f c = false -> take_while f (l ++ c :: rest) = l.
Proof.
  induction l as [|x l IH]; simpl.
  - by intros _ ->.
  - intros [-> Hl]%andb_true_iff Hc. by rewrite IH.
Qed.

Lemma take_while_forallb (f : ascii -> bool) (l : list ascii) :
  forallb f (take_while f l) = true.
Proof.
  induction l as [|c l IH]; [done|]. simpl.
  destruct (f c) eqn:Hc; [|done]. simpl. by rewrite Hc.
Qed.

Lemma forallb_rev (f : ascii -> bool) (l : list ascii) :
  forallb f (rev l) = forallb f l.
Proof.
  induction l as [|c l IH]; [done|]. simpl.
  rewrite forallb_app, IH. simpl. rewrite andb_true_r. apply andb_comm.
Qed.

(** A non-empty string that does not end in a separator: its last
    character. *)
Lemma last_char_not_sep (d : string) :
  d <> "" -> endswith d "/" = false ->
  exists c rest,
    rev (list_ascii_of_string d) = c :: rest /\ is_sep c = false.
Proof.
  intros Hne Hend. unfold endswith in Hend.
  change (String.rev "/") with "/" in Hend.
  rewrite <- chars_rev.
  destruct (String.rev d) as [|c r] eqn:Hrev.
  - exfalso. apply Hne.
    apply (f_equal list_ascii_of_string) in Hrev. rewrite chars_rev in Hrev.
    simpl in Hrev. destruct d as [|x d]; [done|]. simpl in Hrev.
    by destruct (rev (list_ascii_of_string d)).
  - exists c, (list_ascii_of_string r). split; [done|].
    unfold is_sep. case_bool_decide as Hc; [|done]. subst c.
    simpl in Hend. by destruct r.
Qed.

Lemma slash_free_not_startswith (f : string) :
  slash_free f = true -> startswith f "/" = false.
Proof.
  intros Hf. destruct (startswith f "/") eqn:Hs; [|done].
  apply startswith_cons in Hs as (s' & -> & _). done.
Qed.

Lemma dirname_slash_free (p : string) : slash_free p = true -> dirname p = "".
Proof.
  unfold slash_free, dirname. intros Hp.
  rewrite <- (app_nil_r (rev (list_ascii_of_string p))).
  rewrite drop_while_all by by rewrite forallb_rev. done.
Qed.

Lemma basename_slash_free (p : string) : slash_free p = true -> basename p = p.
Proof.
  unfold slash_free, basename. intros Hp.
  rewrite take_while_all by by rewrite forallb_rev.
  by rewrite rev_involutive, string_of_list_ascii_of_string.
Qed.

Lemma slash_free_basename (p : string) : slash_free (basename p) = true.
Proof.
  unfold slash_free, basename.
  rewrite list_ascii_of_string_of_list_ascii, forallb_rev.
  apply take_while_forallb.
Qed.

Lemma dirname_joined (d f : string) :
  d <> "" -> endswith d "/" = false -> slash_free f = true ->
  dirname (d +:+ "/" +:+ f) = d.
Proof.
  intros Hne Hend Hf. destruct (last_char_not_sep d Hne Hend) as (c & rest & Hrev & Hc).
  unfold dirname. rewrite !chars_app, !rev_app_distr. simpl.
  rewrite <- app_assoc.
  rewrite drop_while_all by by rewrite forallb_rev.
  simpl. rewrite Hrev. simpl.
  change (is_sep "/") with true. simpl. rewrite Hc. simpl.
  change (rev rest ++ [c]) with (rev (c :: rest)).
  rewrite <- Hrev, rev_involutive. apply string_of_list_ascii_of_string.
Qed.

Lemma basename_joined (d f : string) :
  slash_free f = true -> basename (d +:+ "/" +:+ f) = f.
Proof.
  intros Hf. unfold basename. rewrite !chars_app, !rev_app_distr. simpl.
  rewrite <- app_assoc. simpl.
  rewrite take_while_stop by (by rewrite ?forallb_rev).
  by rewrite rev_involutive, string_of_list_ascii_of_string.
Qed.

Lemma path_join_plain (d f : string) :
  d <> "" -> endswith d "/" = false -> slash_free f = true ->
  path_join d f = d +:+ "/" +:+ f.
Proof.
  intros Hne Hend Hf. unfold path_join.
  rewrite (slash_free_not_startswith _ Hf), Hend.
  destruct (String.eqb_spec d ""); done.
Qed.

End Path_strings.

(** ** [utils_image_find] and [run_yolo] *)

(** X14.  [utils_image_find] with a local path that has no directory part
    asks [os.makedirs] for the empty path; on a host that refuses it, the
    call raises before the file is looked for, whether or not the file
    exists and whatever the url. *)
Theorem utils_image_find_bare_name {W : Type} (H : Utility.host W)
  (local_path : string) (url : option string) (w : W) (e : exn) :
  PathString.slash_free local_path = true ->
  Utility.os_makedirs H "" w = Raise e ->
  Utility.utils_image_find H local_path url w = ([Makedirs ""], w, Uncaught e).
Proof.
  intros Hfree Hmk. unfold Utility.utils_image_find.
  rewrite (dirname_slash_free _ Hfree). unfold_prog. by rewrite Hmk.
Qed.

Lemma utils_image_find_bare_name_witness :
  PathString.slash_free "photo.png" = true
  /\ Utility.os_makedirs Scenario.posix "" ["photo.png"] = Raise FileNotFoundError
  /\ Utility.utils_image_find Scenario.posix "photo.png"
       (Some "http://example.org/photo.png") ["photo.png"]
     = ([Makedirs ""], ["photo.png"], Uncaught FileNotFoundError).
Proof.
  split; [reflexivity|]. split; [reflexivity|].
  exact (utils_image_find_bare_name Scenario.posix "photo.png"
           (Some "http://example.org/photo.png") ["photo.png"] FileNotFoundError
           eq_refl eq_refl).
Defined.

(** X15.  Once the parent directory is made, [utils_image_find] returns a
    string and raises nothing.  An existing file gives its path with no
    request made.  A missing file with no url, or with the empty url, gives
    the message that asks for a url.  Otherwise one request is made: if it
    fails, or if writing the file fails, the result is the [Download
    failed] message; if both succeed the result is the path, and the file
    was written once with the body of the answer. *)
Theorem utils_image_find_returns {W : Type} (H : Utility.host W)
  (local_path : string) (url : option string) (w w1 : W) :
  Utility.os_makedirs H (Utility.dirname local_path) w = Ok w1 ->
  exists tr w' text,
    Utility.utils_image_find H local_path url w
    = (Makedirs (Utility.dirname local_path) :: tr, w', Value text)
    /\ (Utility.os_path_exists H local_path w1 = true ->
        text = local_path /\ tr = [] /\ w' = w1)
    /\ (Utility.os_path_exists H local_path w1 = false ->
        url = None \/ url = Some "" ->
        text = "Image not found, add url argument" /\ tr = [] /\ w' = w1)
    /\ (Utility.os_path_exists H local_path w1 = false ->
        forall u, url = Some u -> u <> "" ->
        match Utility.requests_get H u w1 with
        | Raise e =>
            text = "Download failed: " +:+ Utility.exn_text H e
            /\ tr = [HttpGet u] /\ w' = w1
        | Ok (content, w2) =>
            tr = [HttpGet u; WriteFile local_path]
            /\ match Utility.write_bytes H local_path content w2 with
               | Ok w3 => text = local_path /\ w' = w3
               | Raise e =>
                   text = "Download failed: " +:+ Utility.exn_text H e
                   /\ w' = w2
               end
        end).
Proof.
  intros Hmk. unfold Utility.utils_image_find. unfold_prog. rewrite Hmk. simpl.
  destruct (Utility.os_path_exists H local_path w1) eqn:Hex.
  { eexists _, _, _. split; [done|]. repeat split; done. }
  destruct url as [u|]; simpl.
  - destruct (String.eqb_spec u "") as [->|Hne].
    + eexists _, _, _. split; [done|]. repeat split; try done.
      intros _ u [= <-] Hu. done.
    + destruct (Utility.requests_get H u w1) as [[content w2]|e] eqn:Hget.
      * destruct (Utility.write_bytes H local_path content w2) as [w3|e] eqn:Hwr;
          simpl; eexists _, _, _; (split; [done|]);
          (split; [done|]); (split; [intros _ [[=]|[= ->]]; done|]);
          intros _ u' [= <-] _; rewrite Hget, Hwr; done.
      * simpl. eexists _, _, _. split; [done|].
        split; [done|]. split; [intros _ [[=]|[= ->]]; done|].
        intros _ u' [= <-] _. by rewrite Hget.
  - eexists _, _, _. split; [done|]. repeat split; done.
Qed.

Lemma utils_image_find_returns_witness :
  Utility.os_makedirs Cases.online (Utility.dirname "img/cat.jpg") [] = Ok []
  /\ Utility.utils_image_find Cases.online "img/cat.jpg"
       (Some "http://example.org/cat.jpg") []
     = ([Makedirs "img"; HttpGet "http://example.org/cat.jpg";
         WriteFile "img/cat.jpg"], ["img/cat.jpg"], Value "img/cat.jpg")
  /\ Utility.utils_image_find Cases.online "img/cat.jpg" (Some "") []
     = ([Makedirs "img"], [], Value "Image not found, add url argument").
Proof.
  split; [reflexivity|].
  destruct (utils_image_find_returns Cases.online "img/cat.jpg"
              (Some "http://example.org/cat.jpg") [] [] eq_refl)
    as (tr & w' & text & Hrun & _ & _ & Hget).
  specialize (Hget eq_refl _ eq_refl ltac:(discriminate)).
  simpl in Hget. destruct Hget as (-> & -> & ->).
  split; [exact Hrun|reflexivity].
Defined.

(** X16.  [run_yolo] makes the results directory first, then has the image
    annotated, writes the annotated image to
    [join(results_dir, "results_" + basename(img_path))], prints that path
    and returns it.  It never calls [sys.exit]; when a step raises, the
    steps after it are not made: in particular nothing is written when the
    directory cannot be made or the model fails. *)
Theorem run_yolo_outcome {W : Type} (V : Detection.vision W)
  (img_path model_path results_dir : string) (w : W) :
  let out_path := Detection.out_path_of img_path results_dir in
  let run := Detection.run_yolo V img_path model_path results_dir w in
  match run.2 with
  | Value returned =>
      returned = out_path
      /\ run.1.1 = [Makedirs results_dir; WriteFile out_path;
                    Stdout ("Saved: " +:+ out_path)]
  | SysExit _ => False
  | Uncaught _ =>
      run.1.1 `prefix_of` [Makedirs results_dir; WriteFile out_path;
                           Stdout ("Saved: " +:+ out_path)]
      /\ run.1.1 <> []
  end
  /\ ((exists e, Detection.makedirs V results_dir w = Raise e)
      \/ (exists w1 e, Detection.makedirs V results_dir w = Ok w1
                       /\ Detection.annotate V model_path img_path w1 = Raise e) ->
      run.1.1 = [Makedirs results_dir]).
Proof.
  intros out_path run. subst run out_path.
  unfold Detection.run_yolo, Detection.silently. unfold_prog.
  destruct (Detection.makedirs V results_dir w) as [w1|e] eqn:Hmk; simpl.
  2: { split; [|done]. split; [|done]. eexists; reflexivity. }
  destruct (Detection.annotate V model_path img_path w1) as [[img w2]|e] eqn:Han;
    simpl.
  2: { split; [|done]. split; [|done]. eexists; reflexivity. }
  split.
  - destruct (Detection.imwrite V _ img w2) as [w3|e]; simpl.
    + destruct (Detection.display V img w3) as [w4|e]; simpl; [done|].
      split; [done|done].
    + split; [|done]. eexists; reflexivity.
  - intros [[e [=]]|(w1' & e & [= <-] & Hraise)]. congruence.
Qed.

Lemma run_yolo_outcome_witness :
  Detection.run_yolo Cases.studio "shots/a.jpg" "yolo11n.pt" "results" []
  = ([Makedirs "results"; WriteFile "results/results_a.jpg";
      Stdout "Saved: results/results_a.jpg"],
     ["results/results_a.jpg"], Value "results/results_a.jpg")
  /\ (exists e, Detection.makedirs Cases.studio "" [] = Raise e)
  /\ (Detection.run_yolo Cases.studio "shots/a.jpg" "yolo11n.pt" "" []).1.1
     = [Makedirs ""].
Proof.
  split; [reflexivity|].
  assert (exists e, Detection.makedirs Cases.studio "" [] = Raise e) as Hraise
    by (exists FileNotFoundError; reflexivity).
  split; [exact Hraise|].
  exact (proj2 (run_yolo_outcome Cases.studio "shots/a.jpg" "yolo11n.pt" "" [])
           (or_introl Hraise)).
Defined.

(** X17.  For a non-empty results directory that does not end in a
    separator, the file written by [run_yolo] lies directly in that
    directory and is named [results_] followed by the base name of the
    image: the directory part of the image path does not appear, so images
    of different directories with the same base name share one result
    file. *)
Theorem run_yolo_out_path (img_path other results_dir : string) :
  results_dir <> "" -> endswith results_dir "/" = false ->
  Utility.dirname (Detection.out_path_of img_path results_dir) = results_dir
  /\ Detection.basename (Detection.out_path_of img_path results_dir)
     = "results_" +:+ Detection.basename img_path
  /\ (Detection.basename other = Detection.basename img_path ->
      Detection.out_path_of other results_dir
      = Detection.out_path_of img_path results_dir).
Proof.
  intros Hne Hend.
  assert (PathString.slash_free ("results_" +:+ Detection.basename img_path) = true)
    as Hfree.
  { pose proof (slash_free_basename img_path) as Hb.
    unfold PathString.slash_free in *. rewrite chars_app, forallb_app, Hb.
    reflexivity. }
  unfold Detection.out_path_of. rewrite path_join_plain by done.
  split; [by apply dirname_joined|]. split; [by apply basename_joined|].
  intros Hsame. rewrite Hsame. by apply path_join_plain.
Qed.

Lemma run_yolo_out_path_witness :
  ("results" <> "" /\ endswith "results" "/" = false)
  /\ Detection.basename "b/x.jpg" = Detection.basename "a/x.jpg"
  /\ Detection.out_path_of "b/x.jpg" "results" = "results/results_x.jpg"
  /\ Detection.out_path_of "b/x.jpg" "results"
     = Detection.out_path_of "a/x.jpg" "results".
Proof.
  split; [by split|]. split; [reflexivity|]. split; [reflexivity|].
  apply (proj2 (proj2 (run_yolo_out_path "a/x.jpg" "b/x.jpg" "results"
                         ltac:(discriminate) eq_refl))).
  reflexivity.
Defined.

(** ** The training script *)

Section Training.

Import Train.

Lemma resolve_aug_ok (a : args) (defaults : list (string * value)) :
  Forall (fun kv => is_Some (getattr a kv.1)) defaults ->
  resolve_aug a defaults
  = Ok ((fun kv => (kv.1, if decide (override a kv.1 = VNone)
                          then kv.2 else override a kv.1)) <$> defaults).
Proof.
  induction 1 as [|[k v] rest [given Hk] _ IH]; [done|].
  simpl in *. unfold override in *. rewrite Hk, IH. done.
Qed.

Lemma gentle_known (a : args) :
  Forall (fun kv => is_Some (getattr a kv.1)) gentle.
Proof. unfold gentle. repeat (apply Forall_cons; split); try apply Forall_nil; by eexists. Qed.

Lemma strong_known (a : args) :
  Forall (fun kv => is_Some (getattr a kv.1)) strong.
Proof. unfold strong. repeat (apply Forall_cons; split); try apply Forall_nil; by eexists. Qed.

Lemma strong_keys : strong.*1 = gentle.*1.
Proof. reflexivity. Qed.

Lemma resolved_keys (a : args) (defaults : list (string * value)) :
  ((fun kv => (kv.1, if decide (override a kv.1 = VNone)
                     then kv.2 else override a kv.1)) <$> defaults).*1
  = defaults.*1.
Proof. rewrite <- list_fmap_compose. by apply list_fmap_ext. Qed.

Lemma clash_keys (kw1 kw2 kw2' : list (string * value)) :
  kw2.*1 = kw2'.*1 -> clash kw1 kw2 = clash kw1 kw2'.
Proof. unfold clash. by intros ->. Qed.

Lemma explicit_keys (a : args) (d : string) :
  (explicit a d).*1
  = ["data"; "imgsz"; "epochs"; "batch"; "name"; "device"; "resume";
     "save"; "plots"; "lr0"].
Proof. reflexivity. Qed.

Lemma clash_profile (a : args) (d : string) (defaults : list (string * value)) :
  defaults.*1 = gentle.*1 ->
  clash (explicit a d)
    ((fun kv => (kv.1, if decide (override a kv.1 = VNone)
                       then kv.2 else override a kv.1)) <$> defaults) = false.
Proof.
  intros Hkeys. unfold clash. rewrite resolved_keys, Hkeys, explicit_keys.
  by vm_compute.
Qed.

Lemma main_run_ok (a : args) :
  let d := match data a with
           | Some d => d
           | None =>
               if String.eqb (model_type a) "license_plates"
               then "all_datasets/dataset_1_licenseplates/data.yaml"
               else "all_datasets/dataset_2_characters/data.yaml"
           end in
  let defaults := if String.eqb (model_type a) "character" then gentle else strong in
  main a
  = Ok (TrainCall (weights a)
          (explicit a d
           ++ ((fun kv => (kv.1, if decide (override a kv.1 = VNone)
                                 then kv.2 else override a kv.1)) <$> defaults))).
Proof.
  intros d defaults. unfold main. fold d. fold defaults.
  assert (Forall (fun kv => is_Some (getattr a kv.1)) defaults) as Hknown.
  { subst defaults. destruct (String.eqb (model_type a) "character");
      [apply gentle_known|apply strong_known]. }
  assert (defaults.*1 = gentle.*1) as Hkeys.
  { subst defaults. by destruct (String.eqb (model_type a) "character"). }
  rewrite (resolve_aug_ok _ _ Hknown), (clash_profile _ _ _ Hkeys). done.
Qed.

Lemma keyword_app (kw1 kw2 : list (string * value)) (k : string) :
  keyword (kw1 ++ kw2) k
  = match keyword kw1 k with
    | Some v => Some v
    | None => keyword kw2 k
    end.
Proof.
  induction kw1 as [|[k' v] rest IH]; [done|]. simpl.
  by destruct (String.eqb k' k).
Qed.

Lemma keyword_resolved (a : args) (defaults : list (string * value))
  (k : string) (v : value) :
  NoDup defaults.*1 -> (k, v) ∈ defaults ->
  keyword ((fun kv => (kv.1, if decide (override a kv.1 = VNone)
                             then kv.2 else override a kv.1)) <$> defaults) k
  = Some (if decide (override a k = VNone) then v else override a k).
Proof.
  induction defaults as [|[k' v'] rest IH]; intros Hnd Hin.
  { by apply elem_of_nil in Hin. }
  simpl in *. apply NoDup_cons in Hnd as [Hfresh Hnd].
  apply elem_of_cons in Hin as [[= -> ->]|Hin].
  - by rewrite String.eqb_refl.
  - destruct (String.eqb_spec k' k) as [->|_]; [|by apply IH].
    exfalso. apply Hfresh. apply list_elem_of_fmap. by exists (k, v).
Qed.

Lemma keyword_explicit_aug (a : args) (d k : string) (v : value)
  (defaults : list (string * value)) :
  defaults.*1 = gentle.*1 -> (k, v) ∈ defaults ->
  keyword (explicit a d) k = None.
Proof.
  intros Hkeys Hin.
  assert (k ∈ gentle.*1) as Hk.
  { rewrite <- Hkeys. apply list_elem_of_fmap. by exists (k, v). }
  unfold gentle in Hk. simpl in Hk.
  repeat (apply elem_of_cons in Hk as [->|Hk]; [reflexivity|]).
  by apply elem_of_nil in Hk.
Qed.

Lemma gentle_nodup : NoDup gentle.*1.
Proof. by apply (bool_decide_unpack _). Qed.

Lemma profile_not_none (k : string) (v : value) :
  (k, v) ∈ gentle \/ (k, v) ∈ strong -> v <> VNone.
Proof.
  intros [Hin|Hin]; [unfold gentle in Hin|unfold strong in Hin];
    repeat (apply elem_of_cons in Hin as [[= -> ->]|Hin]; [done|]);
    by apply elem_of_nil in Hin.
Qed.

End Training.

(** X18.  The keyword handling of the training script never fails: for
    every parsed command line it reaches the one [train] call, on the model
    loaded from [--weights], with twenty-two keywords, the ten written in
    the call followed by the twelve augmentation parameters; no keyword is
    given twice.  [save], [plots] and [lr0] have the same values whatever
    the command line, and [data] is the given path or, when omitted, the
    licence-plate data set for the profile [license_plates] and the
    character data set otherwise. *)
Theorem train_main_call (a : Train.args) :
  exists call,
    Train.main a = Ok call
    /\ Train.call_weights call = Train.weights a
    /\ (Train.kwargs call).*1
       = ["data"; "imgsz"; "epochs"; "batch"; "name"; "device"; "resume";
          "save"; "plots"; "lr0";
          "hsv_h"; "hsv_s"; "hsv_v"; "degrees"; "translate"; "scale"; "shear";
          "perspective"; "flipud"; "fliplr"; "mosaic"; "mixup"]
    /\ NoDup (Train.kwargs call).*1
    /\ Train.keyword (Train.kwargs call) "save" = Some (Train.VBool true)
    /\ Train.keyword (Train.kwargs call) "plots" = Some (Train.VBool true)
    /\ Train.keyword (Train.kwargs call) "lr0" = Some (Train.VFloat 1 (-3))
    /\ Train.keyword (Train.kwargs call) "data"
       = Some (Train.VStr
                 match Train.data a with
                 | Some d => d
                 | None =>
                     if String.eqb (Train.model_type a) "license_plates"
                     then "all_datasets/dataset_1_licenseplates/data.yaml"
                     else "all_datasets/dataset_2_characters/data.yaml"
                 end).
Proof.
  eexists. split; [apply main_run_ok|]. cbn [Train.call_weights Train.kwargs].
  assert ((if String.eqb (Train.model_type a) "character"
           then Train.gentle else Train.strong).*1 = Train.gentle.*1) as Hkeys
    by by destruct (String.eqb (Train.model_type a) "character").
  assert (forall d,
    (Train.explicit a d
     ++ ((fun kv => (kv.1, if decide (Train.override a kv.1 = Train.VNone)
                           then kv.2 else Train.override a kv.1))
         <$> (if String.eqb (Train.model_type a) "character"
              then Train.gentle else Train.strong))).*1
    = ["data"; "imgsz"; "epochs"; "batch"; "name"; "device"; "resume";
       "save"; "plots"; "lr0";
       "hsv_h"; "hsv_s"; "hsv_v"; "degrees"; "translate"; "scale"; "shear";
       "perspective"; "flipud"; "fliplr"; "mosaic"; "mixup"]) as Hnames.
  { intros d. rewrite fmap_app, resolved_keys, Hkeys. reflexivity. }
  split; [done|]. split; [apply Hnames|].
  split; [rewrite Hnames; by apply (bool_decide_unpack _)|].
  rewrite !keyword_app. done.
Qed.

(** X19.  Each augmentation parameter reaches [train] with the value given
    on the command line when one was given, a zero included, and with the
    default of the profile otherwise: the gentle defaults for the profile
    [character], the strong ones for any other.  [train] never receives
    [None] for an augmentation parameter. *)
Theorem train_main_augmentation (a : Train.args) (k : string) (v : Train.value) :
  (k, v) ∈ (if String.eqb (Train.model_type a) "character"
            then Train.gentle else Train.strong) ->
  exists call,
    Train.main a = Ok call
    /\ Train.keyword (Train.kwargs call) k
       = Some (if decide (Train.override a k = Train.VNone)
               then v else Train.override a k)
    /\ Train.keyword (Train.kwargs call) k <> Some Train.VNone.
Proof.
  intros Hin. eexists. split; [apply main_run_ok|]. cbn [Train.call_weights Train.kwargs].
  assert ((if String.eqb (Train.model_type a) "character"
           then Train.gentle else Train.strong).*1 = Train.gentle.*1) as Hkeys
    by by destruct (String.eqb (Train.model_type a) "character").
  assert (v <> Train.VNone) as Hv.
  { apply (profile_not_none k).
    destruct (String.eqb (Train.model_type a) "character"); auto. }
  rewrite keyword_app, (keyword_explicit_aug _ _ _ _ _ Hkeys Hin).
  rewrite (keyword_resolved a _ k v); [|rewrite Hkeys; apply gentle_nodup|done].
  split; [done|]. case_decide; congruence.
Qed.

Lemma train_main_augmentation_witness :
  ("hsv_h", Train.VFloat 15 (-3))
    ∈ (if String.eqb (Train.model_type Cases.plates) "character"
       then Train.gentle else Train.strong)
  /\ exists call,
       Train.main Cases.plates = Ok call
       /\ Train.keyword (Train.kwargs call) "hsv_h" = Some (Train.VFloat 0 (-1))
       /\ Train.keyword (Train.kwargs call) "hsv_s" = Some (Train.VFloat 7 (-1)).
Proof.
  assert (("hsv_h", Train.VFloat 15 (-3))
            ∈ (if String.eqb (Train.model_type Cases.plates) "character"
               then Train.gentle else Train.strong)) as Hin
    by (simpl; apply list_elem_of_here).
  split; [exact Hin|].
  destruct (train_main_augmentation Cases.plates "hsv_h" (Train.VFloat 15 (-3)) Hin)
    as (call & Hrun & Hk & _).
  exists call. split; [exact Hrun|]. split; [exact Hk|].
  vm_compute in Hrun. injection Hrun as <-. reflexivity.
Defined.
